(** * Dynamic pricing engine: a shallow embedding of [pricing_engine.py]

    Python floats and NumPy [float64] scalars are IEEE 754 binary64 numbers;
    they are modelled by Rocq's primitive floats, so every arithmetic
    expression below rounds exactly as the program does.  Python integers
    are unbounded and are modelled by [Z].  Dictionaries keep their
    insertion order and are modelled by association lists.  Exceptions are
    values of [exn], carried by the [result] type. *)

From Stdlib Require Import ZArith List String Bool Lia Floats.
Import ListNotations.

Set Warnings "-inexact-float,-abstract-large-number".
Local Open Scope Z_scope.

(** ** Exceptions and results *)

Inductive exn : Type :=
| ZeroDivisionError
| OverflowError
| KeyError
| ValueError
| IndexError.

Inductive result (A : Type) : Type :=
| Ok (a : A)
| Raise (e : exn).

Arguments Ok {A} a.
Arguments Raise {A} e.

Definition bind {A B : Type} (r : result A) (k : A -> result B) : result B :=
  match r with
  | Ok a => k a
  | Raise e => Raise e
  end.

Notation "x <- r ;; k" := (bind r (fun x => k))
  (at level 61, r at next level, right associativity).

(** ** Python numbers *)

Module Py.

(** [float(i)] on a Python integer: the nearest binary64 number, ties to
    even; integers beyond the binary64 range raise [OverflowError]. *)
Definition float_of_int (i : Z) : result float :=
  let f := SF2Prim (binary_normalize prec emax i 0 false) in
  if is_infinity f then Raise OverflowError else Ok f.

(** NumPy converts a machine integer without raising. *)
Definition np_float_of_int (i : Z) : float :=
  SF2Prim (binary_normalize prec emax i 0 false).

(** [a / b] on two Python floats. *)
Definition truediv (a b : float) : result float :=
  if (b =? 0)%float then Raise ZeroDivisionError else Ok (a / b)%float.

(** [i > f] and [i < f] with [i] an integer and [f] a float: Python
    compares the two exactly, without rounding [i]. *)
Definition int_cmp_float (i : Z) (f : float) : option comparison :=
  match Prim2SF f with
  | S754_nan => None
  | S754_infinity s => Some (if s then Gt else Lt)
  | S754_zero _ => Some (i ?= 0)
  | S754_finite s m e =>
      let v := if s then Z.neg m else Z.pos m in
      Some (if 0 <=? e then i ?= v * 2 ^ e else i * 2 ^ (- e) ?= v)
  end.

Definition int_gt_float (i : Z) (f : float) : bool :=
  match int_cmp_float i f with Some Gt => true | _ => false end.

Definition int_lt_float (i : Z) (f : float) : bool :=
  match int_cmp_float i f with Some Lt => true | _ => false end.

(** The builtins [max] and [min] keep the first argument unless a later
    one compares strictly greater (smaller). *)
Definition max2 (a b : float) : float := if (a <? b)%float then b else a.
Definition min2 (a b : float) : float := if (b <? a)%float then b else a.

Definition max_list (l : list float) : result float :=
  match l with
  | [] => Raise ValueError
  | x :: r => Ok (fold_left max2 r x)
  end.

Definition min_list (l : list float) : result float :=
  match l with
  | [] => Raise ValueError
  | x :: r => Ok (fold_left min2 r x)
  end.

Definition len {A : Type} (l : list A) : Z := Z.of_nat (List.length l).

(** A number as the program holds it: a Python [int], a Python [float] or
    a NumPy [float64] scalar.  The last two carry the same binary64 values
    but divide differently: dividing by a Python float zero raises, NumPy
    returns an infinity or a NaN. *)
Inductive num : Type :=
| PyInt (i : Z)
| PyFloat (x : float)
| NpFloat (x : float).

(** [x / d] with [d] a Python float: a Python division, which raises on a
    zero divisor, unless [x] is a NumPy scalar. *)
Definition num_truediv (x : num) (d : float) : result float :=
  match x with
  | PyInt i => f <- float_of_int i ;; truediv f d
  | PyFloat x => truediv x d
  | NpFloat x => Ok (x / d)%float
  end.

(** [0 / n] on Python integers. *)
Definition zero_truediv (n : Z) : result float :=
  if n =? 0 then Raise ZeroDivisionError
  else Ok (if n <? 0 then (-0)%float else 0%float).

End Py.

(** ** Dictionaries

    A Python [dict] iterates in insertion order and assigning to an
    existing key keeps the key's position. *)

Module Dict.
Section Defs.
Context {V : Type}.

Definition t := list (string * V).

Fixpoint get (d : t) (k : string) : option V :=
  match d with
  | [] => None
  | (k', v) :: r => if String.eqb k k' then Some v else get r k
  end.

Fixpoint set (d : t) (k : string) (v : V) : t :=
  match d with
  | [] => [(k, v)]
  | (k', v') :: r =>
      if String.eqb k k' then (k, v) :: r else (k', v') :: set r k v
  end.

Definition mem (d : t) (k : string) : bool :=
  match get d k with Some _ => true | None => false end.

Definition keys (d : t) : list string := map fst d.
Definition values (d : t) : list V := map snd d.

(** [d[k]]: a missing key raises [KeyError]. *)
Definition item (d : t) (k : string) : result V :=
  match get d k with Some v => Ok v | None => Raise KeyError end.
End Defs.
Arguments t : clear implicits.
End Dict.

(** ** NumPy array primitives that the program uses *)

Module Np.

(** An array value is either a 0-d scalar or a 1-d vector. *)
Inductive ndarray : Type :=
| Scalar (x : float)
| Vector (l : list float).

Definition zeros (n : nat) : list float := repeat 0%float n.

(** [np.maximum]: the first argument when it is a NaN or the greater of
    the two, and else the second; so a NaN wins, and of two arguments that
    compare equal, [0.0] and [-0.0] for one, the second is returned. *)
Definition maximum (a b : float) : float :=
  if is_nan a then a else if (b <? a)%float then a else b.

(** [np.maximum] on two arrays of one length, element by element. *)
Definition maximum_arrays (a b : list float) : list float :=
  map (fun p => maximum (fst p) (snd p)) (combine a b).

(** [np.max] of a non-empty 1-d array is [np.maximum.reduce]. *)
Definition max (l : list float) : result float :=
  match l with
  | [] => Raise ValueError
  | x :: r => Ok (fold_left maximum r x)
  end.

(** The scan of [np.argmax] on floats: the running maximum moves to
    position [i] when the element there is not [<=] it, and the scan stops
    at a NaN. *)
Fixpoint argmax_scan (mp : float) (idx i : nat) (l : list float) : nat :=
  match l with
  | [] => idx
  | x :: r =>
      if (x <=? mp)%float then argmax_scan mp idx (S i) r
      else if is_nan x then i
      else argmax_scan x i (S i) r
  end.

Definition argmax (a : ndarray) : result nat :=
  match a with
  | Scalar _ => Ok 0%nat
  | Vector [] => Raise ValueError
  | Vector (x :: r) => Ok (if is_nan x then 0%nat else argmax_scan x 0 1 r)
  end.

(** [a[i]] on the rows of a 2-d array. *)
Definition row {A : Type} (a : list A) (i : nat) : result A :=
  match nth_error a i with Some r => Ok r | None => Raise IndexError end.

End Np.

(** ** [class BayesianOptimizer] *)

Module BayesianOptimizer.

Record t : Type := mk {
  bounds : list (float * float);
  n_initial : Z;
  X_sample : list (list float);
  y_sample : list float;
  best_params : option (list float);
  best_value : float
}.

(** [__init__] *)
Definition init (bounds : list (float * float)) (n_initial : Z) : t :=
  {| bounds := bounds; n_initial := n_initial;
     X_sample := []; y_sample := [];
     best_params := None; best_value := neg_infinity |}.

(** [update]: both samples are appended, the best is replaced when
    [y > self.best_value]. *)
Definition update (self : t) (X : list float) (y : float) : t :=
  let X_sample' := X_sample self ++ [X] in
  let y_sample' := y_sample self ++ [y] in
  if (best_value self <? y)%float then
    {| bounds := bounds self; n_initial := n_initial self;
       X_sample := X_sample'; y_sample := y_sample';
       best_params := Some X; best_value := y |}
  else
    {| bounds := bounds self; n_initial := n_initial self;
       X_sample := X_sample'; y_sample := y_sample';
       best_params := best_params self; best_value := best_value self |}.

Record best : Type := mk_best {
  parameters : list float;
  best_value_out : float;
  n_iterations : Z
}.

(** [get_best_params] *)
Definition get_best_params (self : t) : best :=
  {| parameters := match best_params self with Some p => p | None => [] end;
     best_value_out := best_value self;
     n_iterations := Py.len (X_sample self) |}.

(** A run of [update] calls, in order. *)
Definition updates (self : t) (obs : list (list float * float)) : t :=
  fold_left (fun s o => update s (fst o) (snd o)) obs self.

Section Acquisition.
(** NumPy's reductions and SciPy's normal distribution. *)
Variable np_mean np_std : list float -> float.
Variable norm_cdf norm_pdf : float -> float.

(** The closed-form Expected Improvement of lines 160-161. *)
Definition expected_improvement (mu sd best_f xi : float) : float :=
  let sigma := (sd + 1e-6)%float in
  let Z := ((mu - best_f - xi) / sigma)%float in
  ((mu - best_f - xi) * norm_cdf Z + sigma * norm_pdf Z)%float.

(** [acquisition_function] *)
Definition acquisition_function (self : t) (X : list (list float))
    (xi : float) : result Np.ndarray :=
  if Py.len (y_sample self) =? 0 then
    Ok (Np.Vector (Np.zeros (List.length X)))
  else
    let y_array := y_sample self in
    let mu := np_mean y_array in
    let sd := np_std y_array in
    best_f <- Np.max y_array ;;
    Ok (Np.Scalar (expected_improvement mu sd best_f xi)).

Section Propose.
(** The ambient random stream of [np.random]: a scalar draw, and a
    draw of [n] rows with one column per bound.  NumPy raises when a
    range is not finite. *)
Variable world : Type.
Variable uniform : float -> float -> world -> result float * world.
Variable uniform_rows :
  list float -> list float -> nat -> world ->
  result (list (list float)) * world.

Fixpoint uniform_each (bs : list (float * float)) (w : world)
    : result (list float) * world :=
  match bs with
  | [] => (Ok [], w)
  | b :: r =>
      match uniform (fst b) (snd b) w with
      | (Raise e, w1) => (Raise e, w1)
      | (Ok x, w1) =>
          match uniform_each r w1 with
          | (Raise e, w2) => (Raise e, w2)
          | (Ok xs, w2) => (Ok (x :: xs), w2)
          end
      end
  end.

(** [propose_location] *)
Definition propose_location (self : t) (w : world)
    : result (list float) * world :=
  if Py.len (X_sample self) <? n_initial self then
    uniform_each (bounds self) w
  else
    let n_random := 1000%nat in
    match uniform_rows (map fst (bounds self)) (map snd (bounds self))
            n_random w with
    | (Raise e, w1) => (Raise e, w1)
    | (Ok X_random, w1) =>
        (ei_values <- acquisition_function self X_random 0.01%float ;;
         best_idx <- Np.argmax ei_values ;;
         Np.row X_random best_idx, w1)
    end.
End Propose.
End Acquisition.

End BayesianOptimizer.

(** ** [class GammaPoissonMixture] *)

Module GammaPoissonMixture.

Import Py.

Record t : Type := mk {
  alpha : num;
  beta : num;
  lambda_samples : list float
}.

(** [__init__]: the arguments are Python floats, [2.0] and [1.0] by
    default. *)
Definition init (alpha beta : float) : t :=
  {| alpha := PyFloat alpha; beta := PyFloat beta; lambda_samples := [] |}.

Definition default : t := init 2 1.

(** The binary64 value of a shape or rate parameter. *)
Definition value (x : num) : float :=
  match x with
  | PyInt i => np_float_of_int i
  | PyFloat x => x
  | NpFloat x => x
  end.

(** [k / x] with [k] a Python integer that fits a float. *)
Definition int_div (k : Z) (x : num) : result float :=
  match x with
  | NpFloat x => Ok (np_float_of_int k / x)%float
  | _ => truediv (np_float_of_int k) (value x)
  end.

(** [a / b] on two Python integers: the quotient, rounded once to the
    nearest binary64 number, ties to even. *)
Definition int_truediv (a b : Z) : result float :=
  if b =? 0 then Raise ZeroDivisionError
  else if a =? 0 then zero_truediv b
  else
    let q :=
      SF2Prim (SFdiv prec emax
                 (S754_finite (a <? 0) (Z.to_pos (Z.abs a)) 0)
                 (S754_finite (b <? 0) (Z.to_pos (Z.abs b)) 0)) in
    if is_infinity q then Raise OverflowError else Ok q.

(** What [np.sum(purchase_data)] returns: a NumPy scalar, held by the
    binary64 value that its arithmetic with a float reads, or, for an array
    of Python objects, a Python integer. *)
Inductive total : Type :=
| NumPy (s : float)
| Python (s : Z).

Definition wrap_int64 (i : Z) : Z := (i + 2 ^ 63) mod 2 ^ 64 - 2 ^ 63.

Definition in_int64 (x : Z) : bool := (- 2 ^ 63 <=? x) && (x <? 2 ^ 63).

Definition in_numeric (x : Z) : bool := (- 2 ^ 63 <=? x) && (x <? 2 ^ 64).

Section Fit.
(** The sum that NumPy returns for a list with a count in [2^63, 2^64) and
    none beyond: [np.array] makes an array of [uint64], or of [float64] when
    a negative count comes with it. *)
Variable np_sum_wide : list Z -> total.

(** [np.sum(purchase_data)] for [purchase_data] the array
    [np.array(purchase_history)] of a list of integers.  The empty list
    makes an empty [float64] array, whose sum is [0.0]; counts that all fit
    [int64] make an [int64] array, whose sum wraps around modulo [2^64]; a
    count outside [-2^63, 2^64) makes an array of Python objects, whose sum
    is the exact Python integer. *)
Definition np_sum (purchase_data : list Z) : total :=
  match purchase_data with
  | [] => NumPy 0
  | _ =>
      if forallb in_int64 purchase_data then
        NumPy (np_float_of_int
                 (fold_left (fun a x => wrap_int64 (a + x)) purchase_data 0))
      else if forallb in_numeric purchase_data then np_sum_wide purchase_data
      else Python (fold_left Z.add purchase_data 0)
  end.

(** A pass of the loop on operands that pair a Python integer of any size
    with a NumPy scalar, or on a parameter that is itself an integer: what
    NumPy answers there depends on the size of the integer and on its
    version.  A model built by [__init__] from floats and fitted to the
    array of one list never makes such a pass. *)
Variable mixed_pass : list Z -> t -> result unit * t.

(** One pass of the loop body of [fit] (lines 24-25), which assigns
    [self.alpha] before it evaluates line 25.

    With a NumPy scalar for [sum_purchases] both quotients are NumPy
    divisions, which never raise, and both parameters become NumPy scalars;
    only [n / self.beta] can be a Python division.

    With a Python integer for [sum_purchases] and Python floats for the
    parameters every operation is Python's: [self.alpha + sum_purchases]
    converts the integer, [sum_purchases / n] divides two integers, and
    each division refuses a zero divisor. *)
Definition fit_step (purchase_data : list Z) (n : Z) (sum_purchases : total)
    (self : t) : result unit * t :=
  match sum_purchases, alpha self, beta self with
  | NumPy s, (PyFloat a | NpFloat a), (PyFloat b | NpFloat b) =>
      match int_div n (beta self) with
      | Raise e => (Raise e, self)
      | Ok q =>
          let alpha' := ((a + s) / (1 + q))%float in
          let beta' :=
            ((b + np_float_of_int n)
             / (alpha' + s / np_float_of_int n))%float in
          (Ok tt, {| alpha := NpFloat alpha'; beta := NpFloat beta';
                     lambda_samples := lambda_samples self |})
      end
  | Python s, PyFloat a, PyFloat b =>
      match (fs <- float_of_int s ;;
             q <- truediv (np_float_of_int n) b ;;
             truediv (a + fs) (1 + q)) with
      | Raise e => (Raise e, self)
      | Ok alpha' =>
          let self1 := {| alpha := PyFloat alpha'; beta := beta self;
                          lambda_samples := lambda_samples self |} in
          match (sn <- int_truediv s n ;;
                 truediv (b + np_float_of_int n) (alpha' + sn)) with
          | Raise e => (Raise e, self1)
          | Ok beta' =>
              (Ok tt, {| alpha := PyFloat alpha'; beta := PyFloat beta';
                         lambda_samples := lambda_samples self |})
          end
      end
  | _, _, _ => mixed_pass purchase_data self
  end.

(** [for _ in range(n_iter)]: an exception leaves the assignments made
    before it in place. *)
Fixpoint fit_loop (k : nat) (purchase_data : list Z) (n : Z)
    (sum_purchases : total) (self : t) : result unit * t :=
  match k with
  | O => (Ok tt, self)
  | S k' =>
      match fit_step purchase_data n sum_purchases self with
      | (Raise e, self') => (Raise e, self')
      | (Ok _, self') => fit_loop k' purchase_data n sum_purchases self'
      end
  end.

Section Sampling.
(** [np.random.gamma(shape, scale, size)] and [np.random.poisson(lam)]. *)
Variable world : Type.
Variable gamma : float -> float -> nat -> world -> result (list float) * world.
Variable poisson : list float -> world -> result (list Z) * world.

(** [fit] *)
Definition fit (self : t) (purchase_data : list Z) (n_iter : Z) (w : world)
    : result unit * t * world :=
  let n := len purchase_data in
  let sum_purchases := np_sum purchase_data in
  match fit_loop (Z.to_nat n_iter) purchase_data n sum_purchases self with
  | (Raise e, self1) => (Raise e, self1, w)
  | (Ok _, self1) =>
      match int_div 1 (beta self1) with
      | Raise e => (Raise e, self1, w)
      | Ok scale =>
          match gamma (value (alpha self1)) scale 10000%nat w with
          | (Raise e, w1) => (Raise e, self1, w1)
          | (Ok l, w1) =>
              (Ok tt,
               {| alpha := alpha self1; beta := beta self1;
                  lambda_samples := l |}, w1)
          end
      end
  end.

(** [predict_demand] *)
Definition predict_demand (self : t) (n_samples : nat) (w : world)
    : result (list Z) * world :=
  match int_div 1 (beta self) with
  | Raise e => (Raise e, w)
  | Ok scale =>
      match gamma (value (alpha self)) scale n_samples w with
      | (Raise e, w1) => (Raise e, w1)
      | (Ok lambda_vals, w1) => poisson lambda_vals w1
      end
  end.
End Sampling.
End Fit.

(** The dictionary that [get_distribution_params] returns. *)
Record params : Type := mk_params {
  params_alpha : float;
  params_beta : float;
  params_mean : float;
  params_variance : float
}.

Section Params.
(** The [pow] of the C library, which Python's [**] calls on two floats,
    and the power of NumPy's [float64] scalars. *)
Variable pow : float -> float -> float.
Variable np_power : float -> float -> float.

(** [x ** 2] on a Python float: CPython answers the special values itself
    and turns an infinite result of [pow] on a finite base into
    [OverflowError]. *)
Definition float_square (x : float) : result float :=
  if is_nan x then Ok x
  else if is_infinity x then Ok (abs x)
  else if (x =? 0)%float then Ok 0%float
  else if (abs x =? 1)%float then Ok 1%float
  else
    let ix := pow (abs x) 2 in
    if is_infinity ix then Raise OverflowError else Ok ix.

(** [x ** 2] on a parameter. *)
Definition square (x : num) : result num :=
  match x with
  | PyInt i => Ok (PyInt (i * i))
  | PyFloat x => y <- float_square x ;; Ok (PyFloat y)
  | NpFloat x => Ok (NpFloat (np_power x 2))
  end.

(** [a / b] when one operand is a Python integer: the arithmetic of the
    interpreter on integers of any size, which [__init__], given floats,
    never meets. *)
Variable int_true_divide : num -> num -> result num.

(** [a / b] on two parameters: NumPy's division as soon as one operand is
    a NumPy scalar, Python's on two floats. *)
Definition div (a b : num) : result num :=
  match a, b with
  | NpFloat x, NpFloat y | NpFloat x, PyFloat y | PyFloat x, NpFloat y =>
      Ok (NpFloat (x / y))
  | PyFloat x, PyFloat y => q <- truediv x y ;; Ok (PyFloat q)
  | _, _ => int_true_divide a b
  end.

(** [float(x)] on a parameter. *)
Definition float_of_num (x : num) : result float :=
  match x with
  | PyInt i => float_of_int i
  | PyFloat x => Ok x
  | NpFloat x => Ok x
  end.

(** [get_distribution_params]: the four entries are evaluated in the order
    of the dictionary display. *)
Definition get_distribution_params (self : t) : result params :=
  a <- float_of_num (alpha self) ;;
  b <- float_of_num (beta self) ;;
  q <- div (alpha self) (beta self) ;;
  mean <- float_of_num q ;;
  beta2 <- square (beta self) ;;
  v <- div (alpha self) beta2 ;;
  variance <- float_of_num v ;;
  Ok {| params_alpha := a;
        params_beta := b;
        params_mean := mean;
        params_variance := variance |}.
End Params.

End GammaPoissonMixture.

(** ** [class PriceElasticityModel] *)

Module PriceElasticityModel.

Import Py.

(** [calculate_elasticity] stores a NumPy [float64] under both
    dictionaries. *)
Record t : Type := mk {
  elasticity_coefficients : Dict.t float;
  base_demand : Dict.t float
}.

Definition init : t := {| elasticity_coefficients := []; base_demand := [] |}.

Section Power.
(** [x ** y] on a Python float and a NumPy scalar is NumPy's [power]. *)
Variable np_power : float -> float -> float.

(** [predict_demand]: [current_price] is a Python float; [new_price] is a
    Python float for a caller outside the class and a NumPy scalar when the
    search of [get_optimal_price] supplies it. *)
Definition predict_demand (self : t) (current_price : float) (new_price : num)
    (product_id : string) : result num :=
  if negb (Dict.mem (elasticity_coefficients self) product_id) then
    Ok (match Dict.get (base_demand self) product_id with
        | Some d => NpFloat d
        | None => PyInt 0
        end)
  else
    elasticity <- Dict.item (elasticity_coefficients self) product_id ;;
    price_change_ratio <- num_truediv new_price current_price ;;
    let demand_change := np_power price_change_ratio elasticity in
    base <- Dict.item (base_demand self) product_id ;;
    Ok (NpFloat (base * demand_change)%float).

(** [(price - cost) * demand]: a Python float times the predicted demand. *)
Definition revenue (price cost : float) (demand : num) : float :=
  match demand with
  | PyInt i => ((price - cost) * np_float_of_int i)%float
  | PyFloat d => ((price - cost) * d)%float
  | NpFloat d => ((price - cost) * d)%float
  end.

Definition to_float (x : num) : float :=
  match x with
  | PyInt i => np_float_of_int i
  | PyFloat d => d
  | NpFloat d => d
  end.

Record optimum : Type := mk_optimum {
  optimal_price : float;
  expected_demand : float;
  expected_revenue : float;
  elasticity : float;
  demand_confidence_interval : option (float * float)
}.

Section Optimal.
(** [scipy.optimize.minimize(f, x0=[x], bounds=[range], method='L-BFGS-B')],
    reduced to [result.x[0]]; an exception of the objective, or of SciPy on
    a range it refuses, propagates. *)
Variable minimize :
  (float -> result float) -> float -> float * float -> result float.

(** [get_optimal_price] *)
Definition get_optimal_price (self : t) (product_id : string)
    (cost current_price : float) (price_range : float * float)
    : result optimum :=
  let revenue_objective (price : float) : result float :=
    demand <- predict_demand self current_price (NpFloat price) product_id ;;
    Ok (- revenue price cost demand)%float in
  optimal_price <- minimize revenue_objective current_price price_range ;;
  optimal_demand <-
    predict_demand self current_price (NpFloat optimal_price) product_id ;;
  let optimal_revenue := revenue optimal_price cost optimal_demand in
  Ok {| optimal_price := optimal_price;
        expected_demand := to_float optimal_demand;
        expected_revenue := optimal_revenue;
        elasticity :=
          match Dict.get (elasticity_coefficients self) product_id with
          | Some e => e
          | None => 0%float
          end;
        demand_confidence_interval := None |}.
End Optimal.
End Power.

Section Fit.
(** [np.log] on one element, [np.polyfit(x, y, deg)] with its coefficients
    from the highest degree down, and [np.mean]. *)
Variable np_log : float -> float.
Variable np_polyfit : list float -> list float -> Z -> result (list float).
Variable np_mean : list float -> float.

(** [calculate_elasticity]: both dictionaries are assigned after the fit,
    so an exception of [np.polyfit] stores nothing. *)
Definition calculate_elasticity (self : t) (prices quantities : list float)
    (product_id : string) : result float * t :=
  let log_prices := map (fun p => np_log (p + 1e-10)%float) prices in
  let log_quantities := map (fun q => np_log (q + 1e-10)%float) quantities in
  match
    (coefficients <- np_polyfit log_prices log_quantities 1 ;;
     Np.row coefficients 0)
  with
  | Raise e => (Raise e, self)
  | Ok elasticity =>
      (Ok elasticity,
       {| elasticity_coefficients :=
            Dict.set (elasticity_coefficients self) product_id elasticity;
          base_demand :=
            Dict.set (base_demand self) product_id (np_mean quantities) |})
  end.
End Fit.

End PriceElasticityModel.

(** ** [class BayesianABTest] *)

Module BayesianABTest.

Import Py.

Record variant : Type := mk_variant {
  alpha : float;
  beta : float;
  mean : float;
  conversions : Z;
  trials : Z
}.

Record t : Type := mk {
  prior_alpha : float;
  prior_beta : float;
  results : Dict.t variant
}.

(** [__init__], with [1.0] and [1.0] by default. *)
Definition init (prior_alpha prior_beta : float) : t :=
  {| prior_alpha := prior_alpha; prior_beta := prior_beta; results := [] |}.

Definition default : t := init 1 1.

(** [update_variant]: the two counts are Python integers, the priors and
    the posterior are Python floats.  The record is assigned last, so an
    exception leaves [self.results] as it was. *)
Definition update_variant (self : t) (variant_name : string)
    (conversions trials : Z) : result unit * t :=
  let r :=
    c <- float_of_int conversions ;;
    let posterior_alpha := (prior_alpha self + c)%float in
    n <- float_of_int trials ;;
    let posterior_beta := (prior_beta self + n - c)%float in
    m <- truediv posterior_alpha (posterior_alpha + posterior_beta)%float ;;
    Ok {| alpha := posterior_alpha; beta := posterior_beta; mean := m;
          conversions := conversions; trials := trials |} in
  match r with
  | Raise e => (Raise e, self)
  | Ok v =>
      (Ok tt,
       {| prior_alpha := prior_alpha self; prior_beta := prior_beta self;
          results := Dict.set (results self) variant_name v |})
  end.

(** [[samples[v][i] for v in samples.keys()]] *)
Fixpoint column (samples : Dict.t (list float)) (i : nat)
    : result (list float) :=
  match samples with
  | [] => Ok []
  | (_, a) :: r =>
      x <- Np.row a i ;;
      xs <- column r i ;;
      Ok (x :: xs)
  end.

(** The generator of lines 123-124 for one variant: for every [i] in
    [range(n_samples)] the boolean array [samples[variant] == max(...)],
    which compares the whole array of the variant with the maximum of
    draw [i]. *)
Fixpoint best_terms (samples : Dict.t (list float)) (a : list float)
    (draws : list nat) : result (list (list bool)) :=
  match draws with
  | [] => Ok []
  | i :: r =>
      col <- column samples i ;;
      m <- max_list col ;;
      let term := map (fun x => (x =? m)%float) a in
      rest <- best_terms samples a r ;;
      Ok (term :: rest)
  end.

(** [sum(...)] of the builtin starts from the integer [0] and adds the
    boolean arrays element by element. *)
Definition add_bools (acc : list Z) (term : list bool) : list Z :=
  map (fun p => fst p + Z.b2z (snd p)) (combine acc term).

Definition best_count (terms : list (list bool)) : list Z + Z :=
  match terms with
  | [] => inr 0
  | t0 :: ts => inl (fold_left add_bools ts (map Z.b2z t0))
  end.

(** [best_count / n_samples]: an array divided element by element, or the
    integer [0] of an empty [range] divided by [n_samples]. *)
Definition probability (count : list Z + Z) (n_samples : Z)
    : result Np.ndarray :=
  match count with
  | inl cs =>
      Ok (Np.Vector
            (map (fun c => (np_float_of_int c / np_float_of_int n_samples)%float)
                 cs))
  | inr _ => q <- zero_truediv n_samples ;; Ok (Np.Scalar q)
  end.

(** The second loop of [get_probability_best], over [samples.keys()];
    [todo] lists the keys not yet visited. *)
Fixpoint probabilities_of (samples : Dict.t (list float)) (todo : list string)
    (n_samples : Z) (acc : Dict.t Np.ndarray) : result (Dict.t Np.ndarray) :=
  match todo with
  | [] => Ok acc
  | variant :: r =>
      a <- Dict.item samples variant ;;
      terms <- best_terms samples a (seq 0 (Z.to_nat n_samples)) ;;
      p <- probability (best_count terms) n_samples ;;
      probabilities_of samples r n_samples (Dict.set acc variant p)
  end.

(** [np.maximum.reduce] over the rows of a 2-d array; rows of different
    lengths do not make an array. *)
Definition maximum_reduce (rows : list (list float)) : result (list float) :=
  match rows with
  | [] => Raise ValueError
  | a :: r =>
      if forallb (fun b => Nat.eqb (List.length b) (List.length a)) r then
        Ok (fold_left Np.maximum_arrays r a)
      else Raise ValueError
  end.

Section Sampling.
(** [np.random.beta(a, b, size)] on the ambient random stream. *)
Variable world : Type.
Variable np_random_beta :
  float -> float -> Z -> world -> result (list float) * world.
Variable np_mean : list float -> float.

(** The sampling loop over [self.results.items()]. *)
Fixpoint draw_samples (rs : Dict.t variant) (n_samples : Z)
    (acc : Dict.t (list float)) (w : world)
    : result (Dict.t (list float)) * world :=
  match rs with
  | [] => (Ok acc, w)
  | (name, params) :: r =>
      match np_random_beta (alpha params) (beta params) n_samples w with
      | (Raise e, w1) => (Raise e, w1)
      | (Ok a, w1) => draw_samples r n_samples (Dict.set acc name a) w1
      end
  end.

(** [get_probability_best] *)
Definition get_probability_best (self : t) (n_samples : Z) (w : world)
    : result (Dict.t Np.ndarray) * world :=
  if len (results self) <? 2 then (Ok [], w)
  else
    match draw_samples (results self) n_samples [] w with
    | (Raise e, w1) => (Raise e, w1)
    | (Ok samples, w1) =>
        (probabilities_of samples (Dict.keys samples) n_samples [], w1)
    end.

(** [calculate_expected_loss] *)
Definition calculate_expected_loss (self : t) (variant : string)
    (n_samples : Z) (w : world) : result float * world :=
  if negb (Dict.mem (results self) variant) then (Ok 0%float, w)
  else
    match draw_samples (results self) n_samples [] w with
    | (Raise e, w1) => (Raise e, w1)
    | (Ok samples, w1) =>
        (max_samples <- maximum_reduce (Dict.values samples) ;;
         mine <- Dict.item samples variant ;;
         let loss :=
           np_mean
             (map (fun p => (fst p - snd p)%float) (combine max_samples mine)) in
         Ok loss, w1)
    end.
End Sampling.

End BayesianABTest.

(** ** [class DynamicPricingEngine]

    Only the fields that [optimize_price] reads or writes are kept. *)

Module DynamicPricingEngine.

Import Py.

Record history_entry : Type := mk_entry {
  timestamp : string;
  product_id : string;
  recommended_price : float;
  current_price : float;
  inventory_level : Z
}.

Record t : Type := mk {
  gamma_poisson_models : Dict.t GammaPoissonMixture.t;
  elasticity_model : PriceElasticityModel.t;
  pricing_history : list history_entry
}.

Definition init : t :=
  {| gamma_poisson_models := []; elasticity_model := PriceElasticityModel.init;
     pricing_history := [] |}.

(** Lines 235-236: the builtin [min] and [max] of a non-empty list, a band
    around the current price for an empty one. *)
Definition min_competitor_price (current_price : float)
    (competitor_prices : list float) : result float :=
  match competitor_prices with
  | [] => Ok (current_price * 0.8)%float
  | _ => min_list competitor_prices
  end.

Definition max_competitor_price (current_price : float)
    (competitor_prices : list float) : result float :=
  match competitor_prices with
  | [] => Ok (current_price * 1.2)%float
  | _ => max_list competitor_prices
  end.

(** Lines 238-242: both inventories are Python integers, so each product
    converts [target_inventory] to a float and each comparison is between
    an integer and a float. *)
Definition inventory_factor (inventory_level target_inventory : Z)
    : result float :=
  target <- float_of_int target_inventory ;;
  if int_gt_float inventory_level (target * 1.2)%float then Ok 0.95%float
  else if int_lt_float inventory_level (target * 0.8)%float then Ok 1.05%float
  else Ok 1%float.

(** Lines 244-247 *)
Definition price_range (current_price cost : float)
    (competitor_prices : list float) (inventory_level target_inventory : Z)
    : result (float * float) :=
  lo <- min_competitor_price current_price competitor_prices ;;
  hi <- max_competitor_price current_price competitor_prices ;;
  factor <- inventory_factor inventory_level target_inventory ;;
  Ok (max2 (cost * 1.1) (lo * 0.95 * factor),
      min2 (current_price * 1.5) (hi * 1.05 * factor))%float.

Section Externals.
Variable world : Type.
Variable np_power : float -> float -> float.
Variable minimize :
  (float -> result float) -> float -> float * float -> result float.
Variable gamma : float -> float -> nat -> world -> result (list float) * world.
Variable poisson : list float -> world -> result (list Z) * world.
Variable np_percentile : list Z -> float -> float.
(** [datetime.now().isoformat()] *)
Variable now : world -> string * world.

(** Lines 253-258 *)
Definition attach_interval (self : t) (product_id : string)
    (optimal_result : PriceElasticityModel.optimum) (w : world)
    : result PriceElasticityModel.optimum * world :=
  match Dict.get (gamma_poisson_models self) product_id with
  | None => (Ok optimal_result, w)
  | Some model =>
      match GammaPoissonMixture.predict_demand world gamma poisson model
              1000%nat w with
      | (Raise e, w1) => (Raise e, w1)
      | (Ok demand_prediction, w1) =>
          (Ok {| PriceElasticityModel.optimal_price :=
                   PriceElasticityModel.optimal_price optimal_result;
                 PriceElasticityModel.expected_demand :=
                   PriceElasticityModel.expected_demand optimal_result;
                 PriceElasticityModel.expected_revenue :=
                   PriceElasticityModel.expected_revenue optimal_result;
                 PriceElasticityModel.elasticity :=
                   PriceElasticityModel.elasticity optimal_result;
                 PriceElasticityModel.demand_confidence_interval :=
                   Some (np_percentile demand_prediction 5,
                         np_percentile demand_prediction 95) |}, w1)
      end
  end.

(** Lines 260-268 *)
Definition record_price (self : t) (product_id : string)
    (current_price : float) (inventory_level : Z)
    (optimal_result : PriceElasticityModel.optimum) (w : world)
    : result PriceElasticityModel.optimum * t * world :=
  let (stamp, w1) := now w in
  (Ok optimal_result,
   {| gamma_poisson_models := gamma_poisson_models self;
      elasticity_model := elasticity_model self;
      pricing_history :=
        pricing_history self ++
        [{| timestamp := stamp; product_id := product_id;
            recommended_price :=
              PriceElasticityModel.optimal_price optimal_result;
            current_price := current_price;
            inventory_level := inventory_level |}] |}, w1).

(** Lines 249-268: the search in [price_range] and what follows it. *)
Definition optimize_in_range (self : t) (product_id : string)
    (current_price cost : float) (inventory_level : Z)
    (price_range : float * float) (w : world)
    : result PriceElasticityModel.optimum * t * world :=
  match PriceElasticityModel.get_optimal_price np_power minimize
          (elasticity_model self) product_id cost current_price price_range with
  | Raise e => (Raise e, self, w)
  | Ok optimal_result =>
      match attach_interval self product_id optimal_result w with
      | (Raise e, w1) => (Raise e, self, w1)
      | (Ok optimal_result', w1) =>
          record_price self product_id current_price inventory_level
            optimal_result' w1
      end
  end.

(** [optimize_price] *)
Definition optimize_price (self : t) (product_id : string)
    (current_price cost : float) (competitor_prices : list float)
    (inventory_level target_inventory : Z) (w : world)
    : result PriceElasticityModel.optimum * t * world :=
  match price_range current_price cost competitor_prices
          inventory_level target_inventory with
  | Raise e => (Raise e, self, w)
  | Ok range =>
      optimize_in_range self product_id current_price cost inventory_level
        range w
  end.
End Externals.

(** *** The other methods of the engine *)

Section Training.
Variable world : Type.
Variable pow np_power : float -> float -> float.
Variable int_true_divide : Py.num -> Py.num -> result Py.num.
Variable np_sum_wide : list Z -> GammaPoissonMixture.total.
Variable mixed_pass :
  list Z -> GammaPoissonMixture.t -> result unit * GammaPoissonMixture.t.
Variable gamma : float -> float -> nat -> world -> result (list float) * world.
Variable np_log : float -> float.
Variable np_polyfit : list float -> list float -> Z -> result (list float).
Variable np_mean : list float -> float.
Variable now : world -> string * world.

(** [train_demand_model]: a fresh model is fitted, with the default 1000
    passes, to [np.array(purchase_history)], registered, and asked for its
    parameters. *)
Definition train_demand_model (self : t) (product_id : string)
    (purchase_history : list Z) (w : world)
    : result GammaPoissonMixture.params * t * world :=
  let model := GammaPoissonMixture.default in
  match GammaPoissonMixture.fit np_sum_wide mixed_pass world gamma model
          purchase_history 1000 w with
  | (Raise e, _, w1) => (Raise e, self, w1)
  | (Ok _, model1, w1) =>
      (GammaPoissonMixture.get_distribution_params pow np_power
         int_true_divide model1,
       {| gamma_poisson_models :=
            Dict.set (gamma_poisson_models self) product_id model1;
          elasticity_model := elasticity_model self;
          pricing_history := pricing_history self |}, w1)
  end.

(** [train_elasticity]: the frame is a dictionary of columns; a missing
    column raises [KeyError]. *)
Definition train_elasticity (self : t) (product_id : string)
    (historical_data : Dict.t (list float)) : result float * t :=
  match
    (prices <- Dict.item historical_data "price" ;;
     quantities <- Dict.item historical_data "quantity" ;;
     Ok (prices, quantities))
  with
  | Raise e => (Raise e, self)
  | Ok (prices, quantities) =>
      let (elasticity, model) :=
        PriceElasticityModel.calculate_elasticity np_log np_polyfit np_mean
          (elasticity_model self) prices quantities product_id in
      (elasticity,
       {| gamma_poisson_models := gamma_poisson_models self;
          elasticity_model := model;
          pricing_history := pricing_history self |})
  end.

(** One entry of [report['products']]: each key is present or not. *)
Record product_info : Type := mk_info {
  demand_model : option GammaPoissonMixture.params;
  elasticity : option float
}.

Record report : Type := mk_report {
  report_timestamp : string;
  products : Dict.t product_info;
  total_products : Z;
  avg_elasticity : float;
  optimization_history_length : Z
}.

(** The loop of [generate_pricing_report] (lines 293-303): the entries of
    the report and the list [elasticities], both built in the order of
    [product_ids]. *)
Fixpoint report_products (self : t) (product_ids : list string)
    (acc : Dict.t product_info) (elasticities : list float)
    : result (Dict.t product_info * list float) :=
  match product_ids with
  | [] => Ok (acc, elasticities)
  | pid :: r =>
      dm <- match Dict.get (gamma_poisson_models self) pid with
            | Some model =>
                p <- GammaPoissonMixture.get_distribution_params pow
                       np_power int_true_divide model ;;
                Ok (Some p)
            | None => Ok None
            end ;;
      let e := Dict.get (PriceElasticityModel.elasticity_coefficients
                           (elasticity_model self)) pid in
      let elasticities' :=
        match e with
        | Some x => elasticities ++ [x]
        | None => elasticities
        end in
      report_products self r
        (Dict.set acc pid {| demand_model := dm; elasticity := e |})
        elasticities'
  end.

(** [generate_pricing_report] *)
Definition generate_pricing_report (self : t) (product_ids : list string)
    (w : world) : result report * world :=
  let (stamp, w1) := now w in
  (pe <- report_products self product_ids [] [] ;;
   let (products, elasticities) := pe in
   Ok {| report_timestamp := stamp;
         products := products;
         total_products := len product_ids;
         avg_elasticity :=
           match elasticities with
           | [] => 0%float
           | _ => np_mean elasticities
           end;
         optimization_history_length := len (pricing_history self) |}, w1).
End Training.

Section ABTest.
Variable world : Type.
Variable np_random_beta :
  float -> float -> Z -> world -> result (list float) * world.
Variable np_mean : list float -> float.




End ABTest.

Section Optimization.
Variable np_mean np_std : list float -> float.
Variable norm_cdf norm_pdf : float -> float.
Variable world : Type.
Variable uniform : float -> float -> world -> result float * world.
Variable uniform_rows :
  list float -> list float -> nat -> world ->
  result (list (list float)) * world.
(** The caller's objective, which may raise. *)
Variable objective_function : list float -> result float.

(** The loop of [run_bayesian_optimization], on [self.optimizer]: an
    exception leaves the observations made before it. *)
Fixpoint optimization_loop (k : nat) (optimizer : BayesianOptimizer.t)
    (w : world) : result unit * BayesianOptimizer.t * world :=
  match k with
  | O => (Ok tt, optimizer, w)
  | S k' =>
      match BayesianOptimizer.propose_location np_mean np_std norm_cdf
              norm_pdf world uniform uniform_rows optimizer w with
      | (Raise e, w1) => (Raise e, optimizer, w1)
      | (Ok X_next, w1) =>
          match objective_function X_next with
          | Raise e => (Raise e, optimizer, w1)
          | Ok y_next =>
              optimization_loop k'
                (BayesianOptimizer.update optimizer X_next y_next) w1
          end
      end
  end.

(** [run_bayesian_optimization]: a new optimizer, with the default
    [n_initial = 5], replaces [self.optimizer]. *)
Definition run_bayesian_optimization (bounds : list (float * float))
    (n_iterations : Z) (w : world)
    : result BayesianOptimizer.best * BayesianOptimizer.t * world :=
  let optimizer := BayesianOptimizer.init bounds 5 in
  match optimization_loop (Z.to_nat n_iterations) optimizer w with
  | (Raise e, optimizer1, w1) => (Raise e, optimizer1, w1)
  | (Ok _, optimizer1, w1) =>
      (Ok (BayesianOptimizer.get_best_params optimizer1), optimizer1, w1)
  end.
End Optimization.

End DynamicPricingEngine.

(** ** The statements of the specification *)

Module Spec.

Import Py.

(** The search interval, from the two competitor prices and the inventory
    factor. *)
Definition search_interval (cost current_price min_competitor max_competitor
    inventory_factor : float) : float * float :=
  (max2 (cost * 1.1) (min_competitor * 0.95 * inventory_factor),
   min2 (current_price * 1.5) (max_competitor * 1.05 * inventory_factor))%float.

(** The inventory factor: [0.95] above [1.2] times the target, [1.05] below
    [0.8] times the target, [1.0] otherwise. *)
Definition inventory_factor (inventory target : Z) : result float :=
  t <- float_of_int target ;;
  Ok (if int_gt_float inventory (1.2 * t)%float then 0.95%float
      else if int_lt_float inventory (0.8 * t)%float then 1.05%float
      else 1%float).

(** The cross-variant maximum of draw [i]: [np.maximum] over the [i]-th
    sample of every variant, in the order of the dictionary. *)
Definition draw_maximum (samples : Dict.t (list float)) (i : nat) : float :=
  match Dict.values samples with
  | [] => 0%float
  | a :: rows =>
      fold_left Np.maximum (map (fun r => nth i r 0%float) rows)
        (nth i a 0%float)
  end.

(** The loss of draw [i] for the variant whose samples are [mine], and the
    losses of the draws [0 .. n_draws - 1]. *)
Definition draw_loss (samples : Dict.t (list float)) (mine : list float)
    (i : nat) : float :=
  (draw_maximum samples i - nth i mine 0)%float.

Definition draw_losses (samples : Dict.t (list float)) (mine : list float)
    (n_draws : nat) : list float :=
  map (draw_loss samples mine) (seq 0 n_draws).

(** The record of a variant after an update, from the float images [c] and
    [n] of the two counts. *)
Definition posterior (self : BayesianABTest.t) (conversions trials : Z)
    (c n : float) : BayesianABTest.variant :=
  let a := (BayesianABTest.prior_alpha self + c)%float in
  let b := (BayesianABTest.prior_beta self + n - c)%float in
  {| BayesianABTest.alpha := a;
     BayesianABTest.beta := b;
     BayesianABTest.mean := (a / (a + b))%float;
     BayesianABTest.conversions := conversions;
     BayesianABTest.trials := trials |}.

(** The analyzer after the record [v] was assigned to [name]. *)
Definition stored (self : BayesianABTest.t) (name : string)
    (v : BayesianABTest.variant) : BayesianABTest.t :=
  {| BayesianABTest.prior_alpha := BayesianABTest.prior_alpha self;
     BayesianABTest.prior_beta := BayesianABTest.prior_beta self;
     BayesianABTest.results :=
       Dict.set (BayesianABTest.results self) name v |}.

End Spec.

(** ** Rounding to binary64, on the integers *)

Module Rounding.

(** The location of a remainder [r] in a step of [2 ^ k]. *)
Definition loc_of_rem (r k : Z) : location :=
  if r =? 0 then loc_Exact else loc_Inexact (2 * r ?= 2 ^ k).

(** One right shift halves the mantissa and moves the location by the bit
    that falls off. *)
Definition loc_shift (odd : bool) (l : location) : location :=
  match odd, l with
  | false, loc_Exact => loc_Exact
  | false, _ => loc_Inexact Lt
  | true, loc_Exact => loc_Inexact Eq
  | true, _ => loc_Inexact Gt
  end.

(** The mantissa that rounding to nearest, ties to even, makes of [M] when
    its [n] low bits are dropped. *)
Definition rounded (M n : Z) : Z :=
  round_nearest_even (M / 2 ^ n) (loc_of_rem (M mod 2 ^ n) n).

(** The result of [binary_round_aux] on a positive mantissa whose exponent
    is not above the canonical one. *)
Definition round_result (s : bool) (M e : Z) : spec_float :=
  let E := fexp prec emax (Zdigits2 M + e) in
  let q := rounded M (E - e) in
  if q <? 2 ^ 53 then
    if E <=? 971 then S754_finite s (Z.to_pos q) E
    else S754_infinity s
  else
    if E + 1 <=? 971 then S754_finite s (Z.to_pos (2 ^ 52)) (E + 1)
    else S754_infinity s.

(** Rounding on the integers: [V] counts units of [2 ^ -1074], the least
    positive binary64 number, so that every finite binary64 number is an
    integer [V]; [rne V] drops the bits below the 53 leading ones and rounds
    to nearest, ties to even. *)
Definition nshift (V : Z) : Z := Z.max (Z.log2 V + 1 - 53) 0.

Definition rne (V : Z) : Z := rounded V (nshift V) * 2 ^ nshift V.

(** The sign classes of the operands of an update. *)
Definition is_pos (x : spec_float) : bool :=
  match x with
  | S754_infinity false | S754_finite false _ _ => true
  | _ => false
  end.

Definition is_nonneg (x : spec_float) : bool :=
  match x with
  | S754_zero _ | S754_infinity false | S754_finite false _ _ => true
  | _ => false
  end.

End Rounding.

(** The step of the builtins [min] and [max]: [pick] keeps its first argument
    unless the second is strictly before it in the order [before]. *)

Module Extremum.
End Extremum.

(** ** Instances of the library functions, for running the model *)

Module Sample.

(** A random stream that answers from the shape parameter: two draws for
    every variant, higher for the variant of shape [2.0]. *)
Definition beta_by_shape (a b : float) (n : Z) (w : unit)
    : result (list float) * unit :=
  if n =? 2 then
    (Ok (if (a =? 2)%float then [0.75; 0.5] else [0.25; 0.625])%float, w)
  else (Raise ValueError, w).

(** A random stream whose single draw is [0.5] for every variant. *)
Definition beta_tied (a b : float) (n : Z) (w : unit)
    : result (list float) * unit :=
  if n =? 1 then (Ok [0.5%float], w) else (Raise ValueError, w).

(** The mean by a sum from left to right. *)
Definition mean_in_order (l : list float) : float :=
  (fold_left PrimFloat.add l 0 / Py.np_float_of_int (Py.len l))%float.

(** Two variants: [a] with 1 conversion in 2 trials, [b] with none in 2. *)
Definition two_variants : BayesianABTest.t :=
  snd (BayesianABTest.update_variant
         (snd (BayesianABTest.update_variant BayesianABTest.default "a" 1 2))
         "b" 0 2).

(** A uniform stream that returns the lower bounds. *)
Definition uniform_low (lo hi : float) (w : unit) : result float * unit :=
  (Ok lo, w).

Definition uniform_rows_low (lows highs : list float) (n : nat) (w : unit)
    : result (list (list float)) * unit :=
  (Ok (repeat lows n), w).

(** An optimizer over one dimension that has seen one observation. *)
Definition observed : BayesianOptimizer.t :=
  BayesianOptimizer.updates
    (BayesianOptimizer.init [(20%float, 50%float)] 1)
    [([30%float], 75%float)].

(** The exact cases of [pow]: base one, exponents zero and one; a NaN
    elsewhere. *)
Definition power_exact_cases (x y : float) : float :=
  if (x =? 1)%float then 1%float
  else if (y =? 0)%float then 1%float
  else if (y =? 1)%float then x
  else nan.

(** An elasticity model with one product. *)
Definition one_product : PriceElasticityModel.t :=
  {| PriceElasticityModel.elasticity_coefficients :=
       [("product_001"%string, (-1.5)%float)];
     PriceElasticityModel.base_demand :=
       [("product_001"%string, 1000%float)] |}.

(** A search that stops where it starts, clipped to the range. *)
Definition minimize_at_start (f : float -> result float) (x0 : float)
    (range : float * float) : result float :=
  _ <- f x0 ;;
  Ok (Py.max2 (fst range) (Py.min2 x0 (snd range))).

Definition gamma_fixed (shape scale : float) (n : nat) (w : unit)
    : result (list float) * unit :=
  (Ok (repeat shape n), w).

Definition poisson_fixed (lam : list float) (w : unit)
    : result (list Z) * unit :=
  (Ok (map (fun _ => 15) lam), w).

Definition percentile_fixed (l : list Z) (q : float) : float := 15%float.

Definition now_fixed (w : unit) : string * unit :=
  ("2024-01-01T00:00:00"%string, w).

End Sample.

(** ** Notions used to state the behaviour of the methods *)

Module Derived.

Import Py.

(** A rate that a Python division refuses: a zero that is not a NumPy
    scalar. *)
Definition python_zero (x : num) : bool :=
  match x with
  | NpFloat _ => false
  | _ => (GammaPoissonMixture.value x =? 0)%float
  end.

(** The parameters that [get_distribution_params] reports for a model
    whose shape and rate are NumPy scalars. *)
Definition fitted_params (np_power : float -> float -> float)
    (model : GammaPoissonMixture.t) : GammaPoissonMixture.params :=
  let a := GammaPoissonMixture.value (GammaPoissonMixture.alpha model) in
  let b := GammaPoissonMixture.value (GammaPoissonMixture.beta model) in
  {| GammaPoissonMixture.params_alpha := a;
     GammaPoissonMixture.params_beta := b;
     GammaPoissonMixture.params_mean := (a / b)%float;
     GammaPoissonMixture.params_variance := (a / np_power b 2)%float |}.

(** A model as [fit] leaves it on an array of numbers: both parameters
    are NumPy scalars. *)
Definition fitted (model : GammaPoissonMixture.t) : Prop :=
  exists a b,
    GammaPoissonMixture.alpha model = NpFloat a /\
    GammaPoissonMixture.beta model = NpFloat b.

(** A model as [fit] leaves it on an array of Python objects, when it
    returns: both parameters are still Python floats, and the rate, which
    [fit] divided by, is not zero. *)
Definition python_fitted (model : GammaPoissonMixture.t) : Prop :=
  exists a b,
    GammaPoissonMixture.alpha model = PyFloat a /\
    GammaPoissonMixture.beta model = PyFloat b /\
    (b =? 0)%float = false.

(** A parameter that is a float, of Python or of NumPy. *)
Definition is_float (x : num) : bool :=
  match x with
  | PyInt _ => false
  | _ => true
  end.

(** The purchase histories whose counts all fit a 64-bit integer. *)
Definition int64_counts (purchase_history : list Z) : Prop :=
  forall x, In x purchase_history -> - 2 ^ 63 <= x < 2 ^ 63.

(** The two dictionaries of the elasticity model hold the same products. *)
Definition keys_agree (m : PriceElasticityModel.t) : Prop :=
  forall k,
    Dict.mem (PriceElasticityModel.elasticity_coefficients m) k
    = Dict.mem (PriceElasticityModel.base_demand m) k.

(** The demand that [predict_demand] finds for a product at the new price
    [x]: zero for a product without a record. *)
Definition demand_at (np_power : float -> float -> float)
    (m : PriceElasticityModel.t) (current_price : float)
    (product_id : string) (x : float) : float :=
  match Dict.get (PriceElasticityModel.elasticity_coefficients m) product_id,
        Dict.get (PriceElasticityModel.base_demand m) product_id with
  | Some e, Some b => (b * np_power (x / current_price) e)%float
  | _, _ => 0%float
  end.

(** The objective that [get_optimal_price] hands to the search (lines
    76-79). *)
Definition revenue_objective (np_power : float -> float -> float)
    (m : PriceElasticityModel.t) (product_id : string)
    (cost current_price : float) (price : float) : result float :=
  demand <- PriceElasticityModel.predict_demand np_power m current_price
              (NpFloat price) product_id ;;
  Ok (- PriceElasticityModel.revenue price cost demand)%float.

Section Calls.
Variable np_log : float -> float.
Variable np_polyfit : list float -> list float -> Z -> result (list float).
Variable np_mean : list float -> float.

(** The elasticity model after a run of [calculate_elasticity] calls,
    whatever each returned or raised. *)
Definition after_calls (calls : list (list float * list float * string))
    (m : PriceElasticityModel.t) : PriceElasticityModel.t :=
  fold_left
    (fun m c =>
       snd (PriceElasticityModel.calculate_elasticity np_log np_polyfit
              np_mean m (fst (fst c)) (snd (fst c)) (snd c)))
    calls m.
End Calls.

(** The largest sample of draw [i] over the variants, as the builtin [max]
    of line 123 finds it. *)
Definition builtin_draw_maximum (samples : Dict.t (list float)) (i : nat)
    : float :=
  match map (fun r => nth i r 0%float) (Dict.values samples) with
  | [] => 0%float
  | x :: r => fold_left max2 r x
  end.

(** How many of the [n] draws have a maximum equal to [x]. *)
Definition draws_won (samples : Dict.t (list float)) (n : nat) (x : float)
    : Z :=
  fold_left Z.add
    (map (fun i => Z.b2z (x =? builtin_draw_maximum samples i)%float)
       (seq 0 n)) 0.

(** What [get_probability_best] stores for a variant whose samples are
    [a]: one entry for each sample, the share of the draws whose maximum
    that sample equals. *)
Definition credited (samples : Dict.t (list float)) (n : nat)
    (a : list float) : Np.ndarray :=
  Np.Vector
    (map (fun x => (np_float_of_int (draws_won samples n x)
                    / np_float_of_int (Z.of_nat n))%float) a).

(** The engine with a demand model registered for a product. *)
Definition registered (self : DynamicPricingEngine.t) (product_id : string)
    (model : GammaPoissonMixture.t) : DynamicPricingEngine.t :=
  {| DynamicPricingEngine.gamma_poisson_models :=
       Dict.set (DynamicPricingEngine.gamma_poisson_models self) product_id
         model;
     DynamicPricingEngine.elasticity_model :=
       DynamicPricingEngine.elasticity_model self;
     DynamicPricingEngine.pricing_history :=
       DynamicPricingEngine.pricing_history self |}.

(** The entry of the pricing report for a product, and the elasticities
    that the report averages: one for every listed product that has one,
    in the order of the list, a product listed twice counted twice. *)
Definition report_entry (np_power : float -> float -> float)
    (self : DynamicPricingEngine.t) (pid : string)
    : DynamicPricingEngine.product_info :=
  {| DynamicPricingEngine.demand_model :=
       option_map (fitted_params np_power)
         (Dict.get (DynamicPricingEngine.gamma_poisson_models self) pid);
     DynamicPricingEngine.elasticity :=
       Dict.get (PriceElasticityModel.elasticity_coefficients
                   (DynamicPricingEngine.elasticity_model self)) pid |}.

Definition listed_elasticities (self : DynamicPricingEngine.t)
    (product_ids : list string) : list float :=
  flat_map
    (fun pid =>
       match Dict.get (PriceElasticityModel.elasticity_coefficients
                         (DynamicPricingEngine.elasticity_model self)) pid with
       | Some e => [e]
       | None => []
       end)
    product_ids.

Section Reach.
Variable world : Type.
Variable np_power pow : float -> float -> float.
Variable int_true_divide : num -> num -> result num.
Variable np_sum_wide : list Z -> GammaPoissonMixture.total.
Variable mixed_pass :
  list Z -> GammaPoissonMixture.t -> result unit * GammaPoissonMixture.t.
Variable minimize :
  (float -> result float) -> float -> float * float -> result float.
Variable gamma : float -> float -> nat -> world -> result (list float) * world.
Variable poisson : list float -> world -> result (list Z) * world.
Variable np_percentile : list Z -> float -> float.
Variable np_log : float -> float.
Variable np_polyfit : list float -> list float -> Z -> result (list float).
Variable np_mean : list float -> float.
Variable now : world -> string * world.

(** The states that an engine reaches from [__init__] through its training
    and pricing methods, whether a call returns or raises. *)
Inductive reachable : DynamicPricingEngine.t -> Prop :=
| reach_init : reachable DynamicPricingEngine.init
| reach_train_demand_model self product_id purchase_history w :
    reachable self ->
    reachable
      (snd (fst (DynamicPricingEngine.train_demand_model world pow np_power
                   int_true_divide np_sum_wide mixed_pass gamma self
                   product_id purchase_history w)))
| reach_train_elasticity self product_id historical_data :
    reachable self ->
    reachable
      (snd (DynamicPricingEngine.train_elasticity np_log np_polyfit np_mean
              self product_id historical_data))
| reach_optimize_price self product_id current_price cost competitor_prices
    inventory_level target_inventory w :
    reachable self ->
    reachable
      (snd (fst (DynamicPricingEngine.optimize_price world np_power minimize
                   gamma poisson np_percentile now self product_id
                   current_price cost competitor_prices inventory_level
                   target_inventory w))).
End Reach.

End Derived.

(** * Properties *)

(** ** Binary64 arithmetic *)

Module FloatFacts.

Lemma SFltb_trans (a b c : spec_float) :
  SFltb a b = true -> SFltb b c = true -> SFltb a c = true.
Proof.
  unfold SFltb.
  destruct a as [sa|sa| |sa ma ea], b as [sb|sb| |sb mb eb],
           c as [sc|sc| |sc mc ec]; simpl;
    try destruct sa; try destruct sb; try destruct sc; simpl;
    try discriminate; try reflexivity;
    rewrite ?Pos.compare_cont_spec; simpl;
    destruct (Z.compare_spec ea eb), (Z.compare_spec eb ec),
             (Z.compare_spec ea ec); simpl; try discriminate; try reflexivity;
    try lia; subst;
    destruct (Pos.compare_spec ma mb), (Pos.compare_spec mb mc),
             (Pos.compare_spec ma mc); simpl; try discriminate;
    try reflexivity; try lia.
Qed.

Lemma SFltb_leb_trans (a b c : spec_float) :
  SFltb a b = true -> SFleb b c = true -> SFltb a c = true.
Proof.
  unfold SFltb, SFleb.
  destruct a as [sa|sa| |sa ma ea], b as [sb|sb| |sb mb eb],
           c as [sc|sc| |sc mc ec]; simpl;
    try destruct sa; try destruct sb; try destruct sc; simpl;
    try discriminate; try reflexivity;
    rewrite ?Pos.compare_cont_spec; simpl;
    destruct (Z.compare_spec ea eb), (Z.compare_spec eb ec),
             (Z.compare_spec ea ec); simpl; try discriminate; try reflexivity;
    try lia; subst;
    destruct (Pos.compare_spec ma mb), (Pos.compare_spec mb mc),
             (Pos.compare_spec ma mc); simpl; try discriminate;
    try reflexivity; try lia.
Qed.

Lemma SFltb_irrefl (a : spec_float) : SFltb a a = false.
Proof.
  unfold SFltb.
  destruct a as [s|s| |s m e]; simpl; try destruct s; simpl; try reflexivity;
    rewrite Z.compare_refl, Pos.compare_cont_spec, Pos.compare_refl;
    reflexivity.
Qed.

Lemma ltb_trans (a b c : float) :
  (a <? b)%float = true -> (b <? c)%float = true -> (a <? c)%float = true.
Proof. rewrite !ltb_spec. apply SFltb_trans. Qed.

Lemma ltb_leb_trans (a b c : float) :
  (a <? b)%float = true -> (b <=? c)%float = true -> (a <? c)%float = true.
Proof. rewrite !ltb_spec, leb_spec. apply SFltb_leb_trans. Qed.

Lemma ltb_irrefl (a : float) : (a <? a)%float = false.
Proof. rewrite ltb_spec. apply SFltb_irrefl. Qed.

Lemma Prim2SF_zero : Prim2SF 0 = S754_zero false.
Proof. reflexivity. Qed.

Lemma Prim2SF_one : Prim2SF 1 = S754_finite false 4503599627370496 (-52).
Proof. reflexivity. Qed.

(** Adding [+0.0] changes no float but [-0.0]; subtracting it changes
    none. *)
Lemma add_zero_r (x : float) : x <> neg_zero -> (x + 0)%float = x.
Proof.
  intros Hx. apply Prim2SF_inj. rewrite add_spec, Prim2SF_zero.
  destruct (Prim2SF x) as [[|]| | |] eqn:E; try reflexivity.
  exfalso. apply Hx. apply Prim2SF_inj. rewrite E. reflexivity.
Qed.

Lemma positive_not_neg_zero (x : float) :
  (0 <? x)%float = true -> x <> neg_zero.
Proof. intros H ->. discriminate H. Qed.

Lemma sub_zero_r (x : float) : (x - 0)%float = x.
Proof.
  apply Prim2SF_inj. rewrite sub_spec, Prim2SF_zero.
  destruct (Prim2SF x) as [[|]| | |]; reflexivity.
Qed.

Lemma SFmul_comm (x y : spec_float) : SF64mul x y = SF64mul y x.
Proof.
  unfold SF64mul.
  destruct x as [sx|sx| |sx mx ex], y as [sy|sy| |sy my ey]; simpl;
    rewrite ?(xorb_comm sx sy); try reflexivity.
  now rewrite (Pos.mul_comm mx my), (Z.add_comm ex ey).
Qed.

Lemma mul_comm (x y : float) : (x * y)%float = (y * x)%float.
Proof. apply Prim2SF_inj. rewrite !mul_spec. apply SFmul_comm. Qed.

(** A float strictly between zero and infinity is a positive finite
    number. *)
Lemma positive_finite (p : float) :
  (0 <? p)%float = true -> (p <? infinity)%float = true ->
  exists m e, Prim2SF p = S754_finite false m e.
Proof.
  rewrite !ltb_spec. change (Prim2SF 0) with (S754_zero false).
  change (Prim2SF infinity) with (S754_infinity false).
  destruct (Prim2SF p) as [s|s| |s m e]; try destruct s; try discriminate.
  intros _ _. now exists m, e.
Qed.

(** The quotient of a finite positive float by itself is exactly one: the
    shifted mantissa divides without remainder. *)
Lemma SFdiv_self (m : positive) (e : Z) :
  SF64div (S754_finite false m e) (S754_finite false m e)
  = S754_finite false 4503599627370496 (-52).
Proof.
  unfold SF64div, SFdiv, SFdiv_core_binary.
  rewrite !Z.sub_diag.
  change (Z.min (fexp prec emax 0) 0) with (-53).
  change (0 - -53) with 53.
  cbv beta iota zeta.
  assert (Hdiv : Z.div_eucl (Z.shiftl (Z.pos m) 53) (Z.pos m) = (2 ^ 53, 0)).
  { rewrite Z.shiftl_mul_pow2 by lia.
    pose proof (Z.div_eucl_eq (Z.pos m * 2 ^ 53) (Z.pos m) ltac:(lia)) as Heq.
    pose proof (Z.mod_pos_bound (Z.pos m * 2 ^ 53) (Z.pos m) ltac:(lia)) as Hb.
    unfold Z.modulo in Hb.
    destruct (Z.div_eucl (Z.pos m * 2 ^ 53) (Z.pos m)) as [q r].
    assert (q = 2 ^ 53) by nia. subst q. f_equal. lia. }
  rewrite Hdiv.
  assert (Hloc : new_location (Z.pos m) 0 = loc_Exact).
  { unfold new_location, new_location_even, new_location_odd.
    destruct (Z.even (Z.pos m)); reflexivity. }
  rewrite Hloc. reflexivity.
Qed.

Lemma div_self (p : float) :
  (0 <? p)%float = true -> (p <? infinity)%float = true ->
  (p / p)%float = 1%float.
Proof.
  intros H0 Hinf. destruct (positive_finite p H0 Hinf) as (m & e & Hp).
  apply Prim2SF_inj. rewrite div_spec, Hp, Prim2SF_one. apply SFdiv_self.
Qed.

Lemma digits2_pos_shift (m : positive) (k : positive) :
  Z.pos (digits2_pos (Pos.iter xO m k)) = Z.pos (digits2_pos m) + Z.pos k.
Proof.
  induction k as [|k IH] using Pos.peano_ind.
  - simpl. lia.
  - rewrite Pos.iter_succ. simpl. lia.
Qed.

(** The product of a valid finite float by one is the float: the mantissa
    comes back through the 52 shifts without a rounding bit. *)
Lemma SFmul_one_finite (s : bool) (m : positive) (e : Z) :
  valid_binary (S754_finite s m e) = true ->
  SF64mul (S754_finite s m e) (S754_finite false 4503599627370496 (-52))
  = S754_finite s m e.
Proof.
  unfold valid_binary, bounded, canonical_mantissa.
  intros Hv. apply andb_prop in Hv. destruct Hv as [Hc Hb].
  apply Z.eqb_eq in Hc. apply Z.leb_le in Hb.
  unfold SF64mul, SFmul. rewrite xorb_false_r.
  replace (m * 4503599627370496)%positive with (Pos.iter xO m 52)
    by (rewrite Pos.mul_comm; reflexivity).
  unfold binary_round_aux, shr_fexp at 1.
  unfold Zdigits2 at 1. rewrite digits2_pos_shift.
  replace (Z.pos (digits2_pos m) + 52 + (e + -52))
    with (Z.pos (digits2_pos m) + e) by lia.
  rewrite Hc. replace (e - (e + -52)) with 52 by lia.
  unfold shr.
  change (iter_pos shr_1 52
            (shr_record_of_loc (Z.pos (Pos.iter xO m 52)) loc_Exact))
    with {| shr_m := Z.pos m; shr_r := false; shr_s := false |}.
  cbn [shr_m loc_of_shr_record round_nearest_even].
  unfold shr_fexp, Zdigits2. replace (e + -52 + 52) with e by lia.
  rewrite Hc, Z.sub_diag. cbn [shr shr_record_of_loc shr_m].
  apply Z.leb_le in Hb. rewrite Hb. reflexivity.
Qed.

Lemma mul_one_r (d : float) : (d * 1)%float = d.
Proof.
  apply Prim2SF_inj. rewrite mul_spec, Prim2SF_one.
  pose proof (Prim2SF_valid d) as Hv.
  destruct (Prim2SF d) as [s|s| |s m e].
  - unfold SF64mul. simpl. now rewrite xorb_false_r.
  - unfold SF64mul. simpl. now rewrite xorb_false_r.
  - reflexivity.
  - now apply SFmul_one_finite.
Qed.

End FloatFacts.

(** ** Rounding: what [binary_round] computes *)

Module FloatRound.
Import Rounding.


Lemma fexp_eq (x : Z) : fexp prec emax x = Z.max (x - 53) (-1074).
Proof. reflexivity. Qed.

Lemma digits2_size (p : positive) : digits2_pos p = Pos.size p.
Proof. induction p; simpl; congruence. Qed.

Lemma digits2_log2 (p : positive) :
  Z.pos (digits2_pos p) = Z.log2 (Z.pos p) + 1.
Proof.
  destruct p as [p|p|]; simpl; rewrite ?digits2_size; lia.
Qed.

Lemma digits2_bounds (p : positive) :
  2 ^ (Z.pos (digits2_pos p) - 1) <= Z.pos p < 2 ^ Z.pos (digits2_pos p).
Proof.
  rewrite digits2_log2.
  pose proof (Z.log2_spec (Z.pos p) ltac:(lia)) as H.
  replace (Z.log2 (Z.pos p) + 1 - 1) with (Z.log2 (Z.pos p)) by lia.
  replace (Z.log2 (Z.pos p) + 1) with (Z.succ (Z.log2 (Z.pos p))) by lia.
  exact H.
Qed.

Lemma iter_pos_nat {A : Type} (f : A -> A) (p : positive) (x : A) :
  iter_pos f p x = Nat.iter (Pos.to_nat p) f x.
Proof.
  revert x. induction p as [p IH|p IH|]; intros x.
  - rewrite Pos2Nat.inj_xI. cbn [iter_pos]. rewrite !IH.
    replace (S (2 * Pos.to_nat p))%nat
      with (Pos.to_nat p + (Pos.to_nat p + 1))%nat by lia.
    rewrite !Nat.iter_add. reflexivity.
  - rewrite Pos2Nat.inj_xO. cbn [iter_pos]. rewrite !IH.
    replace (2 * Pos.to_nat p)%nat with (Pos.to_nat p + Pos.to_nat p)%nat by lia.
    rewrite Nat.iter_add. reflexivity.
  - reflexivity.
Qed.

Lemma div2_xI (p : positive) : Z.pos p~1 / 2 = Z.pos p.
Proof. symmetry. apply (Z.div_unique_pos _ 2 _ 1); lia. Qed.

Lemma div2_xO (p : positive) : Z.pos p~0 / 2 = Z.pos p.
Proof. symmetry. apply (Z.div_unique_pos _ 2 _ 0); lia. Qed.

Lemma mod2_xI (p : positive) : Z.pos p~1 mod 2 = 1.
Proof. symmetry. apply (Z.mod_unique_pos _ 2 (Z.pos p)); lia. Qed.

Lemma mod2_xO (p : positive) : Z.pos p~0 mod 2 = 0.
Proof. symmetry. apply (Z.mod_unique_pos _ 2 (Z.pos p)); lia. Qed.

Lemma shr_1_step (mrs : shr_record) :
  0 <= shr_m mrs ->
  shr_m (shr_1 mrs) = shr_m mrs / 2 /\
  loc_of_shr_record (shr_1 mrs)
  = loc_shift (shr_m mrs mod 2 =? 1) (loc_of_shr_record mrs).
Proof.
  destruct mrs as [m rb sb]. simpl shr_m. intros Hm.
  destruct m as [|p|p]; [| |lia].
  - destruct rb, sb; split; reflexivity.
  - destruct p as [p|p|].
    + rewrite div2_xI, mod2_xI. destruct rb, sb; split; reflexivity.
    + rewrite div2_xO, mod2_xO. destruct rb, sb; split; reflexivity.
    + destruct rb, sb; split; reflexivity.
Qed.

Lemma loc_of_rem_step (q r k : Z) :
  0 <= k -> 0 <= q -> 0 <= r < 2 ^ k ->
  loc_shift (q mod 2 =? 1) (loc_of_rem r k)
  = loc_of_rem ((q mod 2) * 2 ^ k + r) (k + 1).
Proof.
  intros Hk Hq Hr.
  assert (Hpow1 : 2 ^ (k + 1) = 2 * 2 ^ k) by (rewrite Z.pow_add_r by lia; lia).
  pose proof (Z.mod_pos_bound q 2 ltac:(lia)) as Hb.
  unfold loc_of_rem. rewrite Hpow1.
  generalize dependent (2 ^ k). intros P Hr Hpow1.
  generalize dependent (q mod 2). intros b Hb.
  assert (b = 0 \/ b = 1) as [-> | ->] by lia.
  - change (0 =? 1) with false. rewrite Z.mul_0_l, Z.add_0_l.
    destruct (Z.eqb_spec r 0); [reflexivity|]. cbn [loc_shift].
    f_equal. symmetry. apply Z.compare_lt_iff. lia.
  - change (1 =? 1) with true. rewrite Z.mul_1_l.
    destruct (Z.eqb_spec (P + r) 0); [lia|].
    destruct (Z.eqb_spec r 0); cbn [loc_shift]; f_equal; symmetry.
    + apply Z.compare_eq_iff. lia.
    + apply Z.compare_gt_iff. lia.
Qed.

Lemma divmod_step (M k : Z) :
  0 <= M -> 0 <= k ->
  M / 2 ^ (k + 1) = M / 2 ^ k / 2 /\
  M mod 2 ^ (k + 1) = ((M / 2 ^ k) mod 2) * 2 ^ k + M mod 2 ^ k.
Proof.
  intros HM Hk.
  assert (Hpow : 0 < 2 ^ k) by (apply Z.pow_pos_nonneg; lia).
  assert (Hpow1 : 2 ^ (k + 1) = 2 ^ k * 2) by (rewrite Z.pow_add_r by lia; lia).
  rewrite Hpow1. split.
  - now rewrite Z.div_div by lia.
  - rewrite Z.rem_mul_r by lia. lia.
Qed.

Lemma shr_1_spec (mrs : shr_record) (M k : Z) :
  0 <= M -> 0 <= k ->
  shr_m mrs = M / 2 ^ k ->
  loc_of_shr_record mrs = loc_of_rem (M mod 2 ^ k) k ->
  shr_m (shr_1 mrs) = M / 2 ^ (k + 1) /\
  loc_of_shr_record (shr_1 mrs) = loc_of_rem (M mod 2 ^ (k + 1)) (k + 1).
Proof.
  intros HM Hk Hm Hl.
  assert (Hpow : 0 < 2 ^ k) by (apply Z.pow_pos_nonneg; lia).
  assert (Hq0 : 0 <= M / 2 ^ k) by (apply Z.div_pos; lia).
  destruct (divmod_step M k HM Hk) as [Hd Hr].
  destruct (shr_1_step mrs) as [H1 H2]; [rewrite Hm; exact Hq0|].
  rewrite H1, H2, Hm, Hl, Hd, Hr. split; [reflexivity|].
  apply loc_of_rem_step; [lia | lia | apply Z.mod_pos_bound; lia].
Qed.

Lemma shr_iter_spec (M : Z) (k : nat) :
  0 <= M ->
  let mrs := Nat.iter k shr_1 {| shr_m := M; shr_r := false; shr_s := false |} in
  shr_m mrs = M / 2 ^ Z.of_nat k /\
  loc_of_shr_record mrs = loc_of_rem (M mod 2 ^ Z.of_nat k) (Z.of_nat k).
Proof.
  intros HM. induction k as [|k IH].
  - simpl. rewrite Z.div_1_r, Z.mod_1_r. split; reflexivity.
  - cbv zeta in IH |- *. rewrite Nat2Z.inj_succ, <- Z.add_1_r.
    simpl Nat.iter. destruct IH as [IH1 IH2].
    apply shr_1_spec; [lia | lia | exact IH1 | exact IH2].
Qed.

Lemma Zdigits2_log2 (z : Z) : 0 < z -> Zdigits2 z = Z.log2 z + 1.
Proof. destruct z as [|p|p]; try lia. intros _. apply digits2_log2. Qed.

Lemma shr_spec (M e n : Z) :
  0 <= M -> 0 <= n ->
  exists mrs,
    shr {| shr_m := M; shr_r := false; shr_s := false |} e n = (mrs, e + n) /\
    shr_m mrs = M / 2 ^ n /\
    loc_of_shr_record mrs = loc_of_rem (M mod 2 ^ n) n.
Proof.
  intros HM Hn. destruct n as [|p|p]; [| |lia].
  - eexists. split; [simpl; rewrite Z.add_0_r; reflexivity|].
    simpl shr_m. rewrite Z.div_1_r, Z.mod_1_r. split; reflexivity.
  - eexists. split; [reflexivity|].
    rewrite iter_pos_nat.
    pose proof (shr_iter_spec M (Pos.to_nat p) HM) as H. cbv zeta in H.
    rewrite positive_nat_Z in H. exact H.
Qed.

Lemma rounded_bounds (M n : Z) :
  0 <= M -> 0 <= n -> M / 2 ^ n <= rounded M n <= M / 2 ^ n + 1.
Proof.
  intros HM Hn. unfold rounded, round_nearest_even, loc_of_rem.
  destruct (M mod 2 ^ n =? 0); [lia|].
  destruct (2 * (M mod 2 ^ n) ?= 2 ^ n); try lia.
  destruct (Z.even (M / 2 ^ n)); lia.
Qed.

Lemma rounded_0 (M : Z) : rounded M 0 = M.
Proof.
  unfold rounded, loc_of_rem. rewrite Z.div_1_r, Z.mod_1_r. reflexivity.
Qed.

Lemma binary_round_aux_spec (s : bool) (M : positive) (e : Z) :
  -1074 <= e -> e <= fexp prec emax (Zdigits2 (Z.pos M) + e) ->
  binary_round_aux prec emax s (Z.pos M) e loc_Exact
  = round_result s (Z.pos M) e /\
  let E := fexp prec emax (Zdigits2 (Z.pos M) + e) in
  let q := rounded (Z.pos M) (E - e) in
  0 < q <= 2 ^ 53 /\ (q < 2 ^ 53 -> fexp prec emax (Zdigits2 q + E) = E).
Proof.
  intros He HE. cbv zeta.
  set (E := fexp prec emax (Zdigits2 (Z.pos M) + e)) in *.
  set (q := rounded (Z.pos M) (E - e)).
  pose proof (digits2_bounds M) as HdM.
  assert (HEeq : E = Z.max (Z.pos (digits2_pos M) + e - 53) (-1074)).
  { unfold E. rewrite fexp_eq. reflexivity. }
  pose proof (rounded_bounds (Z.pos M) (E - e) ltac:(lia) ltac:(lia)) as Hq.
  fold q in Hq.
  assert (Hqfacts : 0 < q <= 2 ^ 53 /\
                    (q < 2 ^ 53 -> fexp prec emax (Zdigits2 q + E) = E)).
  { destruct (Z.eq_dec E e) as [Heq|Hne].
    - assert (Hq' : q = Z.pos M).
      { unfold q. rewrite Heq, Z.sub_diag. apply rounded_0. }
      rewrite Hq'. 
      assert (Hd53 : Z.pos (digits2_pos M) <= 53) by lia.
      assert (Z.pos M < 2 ^ 53).
      { eapply Z.lt_le_trans; [apply HdM|]. apply Z.pow_le_mono_r; lia. }
      split; [lia|]. intros _. simpl Zdigits2. rewrite fexp_eq. lia.
    - assert (HEd : E = Z.pos (digits2_pos M) + e - 53) by lia.
      assert (Hn : E - e = Z.pos (digits2_pos M) - 53) by lia.
      assert (Hnpos : 0 < E - e) by lia.
      assert (Hm1 : 2 ^ 52 <= Z.pos M / 2 ^ (E - e) < 2 ^ 53).
      { rewrite Hn. 
        assert (Hsplit1 : 2 ^ (Z.pos (digits2_pos M) - 1)
                          = 2 ^ 52 * 2 ^ (Z.pos (digits2_pos M) - 53)).
        { rewrite <- Z.pow_add_r by lia. f_equal. lia. }
        assert (Hsplit2 : 2 ^ Z.pos (digits2_pos M)
                          = 2 ^ 53 * 2 ^ (Z.pos (digits2_pos M) - 53)).
        { rewrite <- Z.pow_add_r by lia. f_equal. lia. }
        assert (Hp : 0 < 2 ^ (Z.pos (digits2_pos M) - 53))
          by (apply Z.pow_pos_nonneg; lia).
        split.
        - apply Z.div_le_lower_bound; [exact Hp|]. lia.
        - apply Z.div_lt_upper_bound; [exact Hp|]. lia. }
      split; [lia|]. intros Hlt.
      assert (Hlog : Z.log2 q = 52).
      { apply Z.log2_unique; [lia|]. change (2 ^ (52 + 1)) with (2 ^ 53). lia. }
      rewrite Zdigits2_log2 by lia. rewrite Hlog, fexp_eq. lia. }
  split; [|exact Hqfacts]. destruct Hqfacts as [Hqpos Hqcanon].
  unfold binary_round_aux, round_result. fold E. fold q.
  unfold shr_fexp at 1. cbn [shr_record_of_loc]. fold E.
  destruct (shr_spec (Z.pos M) e (E - e) ltac:(lia) ltac:(lia))
    as (mrs & Hshr & Hm & Hl).
  rewrite Hshr. replace (e + (E - e)) with E by lia.
  rewrite Hm, Hl. fold (rounded (Z.pos M) (E - e)). fold q.
  unfold shr_fexp. cbn [shr_record_of_loc].
  destruct (Z.ltb_spec q (2 ^ 53)) as [Hlt|Hge].
  - rewrite (Hqcanon Hlt), Z.sub_diag. cbn [shr shr_m].
    destruct q as [|p|p]; try lia. reflexivity.
  - assert (Hq53 : q = 2 ^ 53) by lia. rewrite Hq53.
    change (Zdigits2 (2 ^ 53)) with 54. rewrite fexp_eq.
    replace (Z.max (54 + E - 53) (-1074) - E) with 1 by lia.
    cbn. reflexivity.
Qed.

Lemma iter_xO_pow (m k : positive) :
  Z.pos (Pos.iter xO m k) = Z.pos m * 2 ^ Z.pos k.
Proof.
  induction k as [|k IH] using Pos.peano_ind.
  - simpl. lia.
  - rewrite Pos.iter_succ, Pos2Z.inj_xO, IH, Pos2Z.inj_succ.
    rewrite Z.pow_succ_r by lia. lia.
Qed.

Lemma log2_shift (M s : Z) :
  0 < M -> 0 <= s -> Z.log2 (M * 2 ^ s) = Z.log2 M + s.
Proof. intros HM Hs. rewrite Z.log2_mul_pow2 by lia. lia. Qed.

Lemma compare_mul_r (a b c : Z) : 0 < c -> (a * c ?= b * c) = (a ?= b).
Proof.
  intros Hc. destruct (Z.compare_spec a b).
  - apply Z.compare_eq_iff. nia.
  - apply Z.compare_lt_iff. nia.
  - apply Z.compare_gt_iff. nia.
Qed.

Lemma rounded_shift (M n s : Z) :
  0 <= M -> 0 <= n -> 0 <= s ->
  rounded (M * 2 ^ s) (n + s) = rounded M n.
Proof.
  intros HM Hn Hs.
  assert (Hps : 0 < 2 ^ s) by (apply Z.pow_pos_nonneg; lia).
  assert (Hpn : 0 < 2 ^ n) by (apply Z.pow_pos_nonneg; lia).
  unfold rounded, loc_of_rem.
  rewrite Z.pow_add_r by lia.
  rewrite Z.div_mul_cancel_r by lia.
  rewrite Z.mul_mod_distr_r by lia.
  pose proof (Z.mod_pos_bound M (2 ^ n) Hpn) as Hr.
  set (r := M mod 2 ^ n) in *.
  destruct (Z.eqb_spec r 0) as [->|Hr0].
  - rewrite Z.mul_0_l. reflexivity.
  - destruct (Z.eqb_spec (r * 2 ^ s) 0) as [H0|_]; [nia|].
    replace (2 * (r * 2 ^ s)) with (2 * r * 2 ^ s) by ring.
    rewrite compare_mul_r by lia. reflexivity.
Qed.

Lemma rne_scaled (M e : Z) :
  0 < M -> -1074 <= e -> e <= fexp prec emax (Zdigits2 M + e) ->
  nshift (M * 2 ^ (e + 1074)) = fexp prec emax (Zdigits2 M + e) + 1074 /\
  rne (M * 2 ^ (e + 1074))
  = rounded M (fexp prec emax (Zdigits2 M + e) - e)
    * 2 ^ (fexp prec emax (Zdigits2 M + e) + 1074).
Proof.
  intros HM He HE.
  assert (Hn : nshift (M * 2 ^ (e + 1074))
               = fexp prec emax (Zdigits2 M + e) + 1074).
  { unfold nshift. rewrite log2_shift by lia.
    rewrite Zdigits2_log2 by lia. rewrite fexp_eq. lia. }
  split; [exact Hn|]. unfold rne. rewrite Hn.
  set (E := fexp prec emax (Zdigits2 M + e)) in *.
  replace (E + 1074) with ((E - e) + (e + 1074)) at 1 by lia.
  rewrite rounded_shift by lia. reflexivity.
Qed.

Lemma round_result_value (s : bool) (M : positive) (e : Z) :
  -1074 <= e -> e <= fexp prec emax (Zdigits2 (Z.pos M) + e) ->
  round_result s (Z.pos M) e = S754_infinity s \/
  exists m' e',
    round_result s (Z.pos M) e = S754_finite s m' e' /\
    valid_binary (S754_finite s m' e') = true /\
    -1074 <= e' /\
    Z.pos m' * 2 ^ (e' + 1074) = rne (Z.pos M * 2 ^ (e + 1074)).
Proof.
  intros He HE.
  destruct (binary_round_aux_spec s M e He HE) as [_ Hq]. cbv zeta in Hq.
  destruct (rne_scaled (Z.pos M) e ltac:(lia) He HE) as [_ Hrne].
  rewrite Hrne. unfold round_result.
  set (E := fexp prec emax (Zdigits2 (Z.pos M) + e)) in *.
  set (q := rounded (Z.pos M) (E - e)) in *.
  destruct Hq as [[Hq0 Hq53] Hcanon].
  assert (HE' : -1074 <= E) by lia.
  destruct (Z.ltb_spec q (2 ^ 53)) as [Hlt|Hge].
  - destruct (Z.leb_spec E 971) as [Hle|Hgt]; [right | now left].
    exists (Z.to_pos q), E. split; [reflexivity|].
    specialize (Hcanon Hlt).
    assert (Hqp : Z.pos (Z.to_pos q) = q) by (apply Z2Pos.id; lia).
    split; [|split; [exact HE' | now rewrite Hqp]].
    unfold valid_binary, bounded, canonical_mantissa.
    apply andb_true_intro. split.
    + apply Z.eqb_eq.
      change (Z.pos (digits2_pos (Z.to_pos q))) with (Zdigits2 (Z.pos (Z.to_pos q))).
      rewrite Hqp. exact Hcanon.
    + apply Z.leb_le. exact Hle.
  - destruct (Z.leb_spec (E + 1) 971) as [Hle|Hgt]; [right | now left].
    exists (Z.to_pos (2 ^ 52)), (E + 1). split; [reflexivity|].
    assert (Hq' : q = 2 ^ 53) by lia.
    split; [|split; [lia|]].
    + unfold valid_binary, bounded, canonical_mantissa.
      apply andb_true_intro. split.
      * apply Z.eqb_eq. change (Z.pos (digits2_pos (Z.to_pos (2 ^ 52)))) with 53.
        rewrite fexp_eq. lia.
      * apply Z.leb_le. exact Hle.
    + rewrite Hq'. change (Z.pos (Z.to_pos (2 ^ 52))) with (2 ^ 52).
      replace (E + 1 + 1074) with (1 + (E + 1074)) by lia.
      rewrite (Z.pow_add_r 2 1) by lia. change (2 ^ 53) with (2 ^ 52 * 2 ^ 1).
      ring.
Qed.

(** [binary_round] on a positive mantissa: an infinity, or a valid positive
    float whose integer is [rne] of the integer of the argument. *)
Lemma binary_round_value (s : bool) (M : positive) (e : Z) :
  -1074 <= e ->
  binary_round prec emax s M e = S754_infinity s \/
  exists m' e',
    binary_round prec emax s M e = S754_finite s m' e' /\
    valid_binary (S754_finite s m' e') = true /\
    -1074 <= e' /\
    Z.pos m' * 2 ^ (e' + 1074) = rne (Z.pos M * 2 ^ (e + 1074)).
Proof.
  intros He. unfold binary_round, shl_align.
  set (E := fexp prec emax (Z.pos (digits2_pos M) + e)).
  assert (HEeq : E = Z.max (Z.pos (digits2_pos M) + e - 53) (-1074))
    by (unfold E; now rewrite fexp_eq).
  destruct (E - e) as [|k|k] eqn:Hk.
  - assert (HE : e <= fexp prec emax (Zdigits2 (Z.pos M) + e))
      by (simpl Zdigits2; fold E; lia).
    rewrite (proj1 (binary_round_aux_spec s M e He HE)).
    apply round_result_value; assumption.
  - assert (HE : e <= fexp prec emax (Zdigits2 (Z.pos M) + e))
      by (simpl Zdigits2; fold E; lia).
    rewrite (proj1 (binary_round_aux_spec s M e He HE)).
    apply round_result_value; assumption.
  - assert (Hshift : e = E + Z.pos k) by lia.
    assert (Hd : Z.pos (digits2_pos (Pos.iter xO M k))
                 = Z.pos (digits2_pos M) + Z.pos k).
    { rewrite !digits2_log2, iter_xO_pow, log2_shift by lia. lia. }
    assert (HE' : E <= fexp prec emax (Zdigits2 (Z.pos (Pos.iter xO M k)) + E)).
    { simpl Zdigits2. rewrite Hd, fexp_eq. lia. }
    rewrite (proj1 (binary_round_aux_spec s (Pos.iter xO M k) E ltac:(lia) HE')).
    replace (Z.pos M * 2 ^ (e + 1074))
      with (Z.pos (Pos.iter xO M k) * 2 ^ (E + 1074)).
    + apply round_result_value; [lia | exact HE'].
    + rewrite iter_xO_pow, Hshift.
      replace (E + Z.pos k + 1074) with (Z.pos k + (E + 1074)) by lia.
      rewrite (Z.pow_add_r 2 (Z.pos k)) by lia. ring.
Qed.

Lemma valid_canonical (s : bool) (m : positive) (e : Z) :
  valid_binary (S754_finite s m e) = true ->
  fexp prec emax (Zdigits2 (Z.pos m) + e) = e /\ -1074 <= e <= 971.
Proof.
  unfold valid_binary, bounded, canonical_mantissa. intros H.
  apply andb_prop in H. destruct H as [Hc Hb].
  apply Z.eqb_eq in Hc. apply Z.leb_le in Hb.
  split; [exact Hc|]. rewrite fexp_eq in Hc. change (emax - prec) with 971 in Hb.
  lia.
Qed.

(** A representable number rounds to itself. *)
Lemma rne_id (m : positive) (e : Z) :
  valid_binary (S754_finite false m e) = true ->
  rne (Z.pos m * 2 ^ (e + 1074)) = Z.pos m * 2 ^ (e + 1074).
Proof.
  intros Hv. destruct (valid_canonical _ _ _ Hv) as [Hc He].
  destruct (rne_scaled (Z.pos m) e ltac:(lia) ltac:(lia) ltac:(lia)) as [_ H].
  rewrite H, Hc, Z.sub_diag, rounded_0. reflexivity.
Qed.

Lemma nshift_le_log2 (V : Z) : 0 < V -> 0 <= nshift V <= Z.log2 V.
Proof.
  intros HV. unfold nshift. pose proof (Z.log2_nonneg V). lia.
Qed.

Lemma rne_lower (V : Z) :
  0 < V -> 2 ^ Z.log2 V <= rne V.
Proof.
  intros HV. unfold rne.
  pose proof (nshift_le_log2 V HV) as Hn.
  pose proof (Z.log2_spec V HV) as [Hlo _].
  pose proof (rounded_bounds V (nshift V) ltac:(lia) ltac:(lia)) as [Hq _].
  set (n := nshift V) in *.
  assert (Hpn : 0 < 2 ^ n) by (apply Z.pow_pos_nonneg; lia).
  assert (Hsplit : 2 ^ Z.log2 V = 2 ^ (Z.log2 V - n) * 2 ^ n).
  { rewrite <- Z.pow_add_r by lia. f_equal. lia. }
  assert (Hdiv : 2 ^ (Z.log2 V - n) <= V / 2 ^ n).
  { apply Z.div_le_lower_bound; [exact Hpn|]. lia. }
  rewrite Hsplit. apply Z.mul_le_mono_nonneg_r; lia.
Qed.

Lemma rne_upper (V : Z) :
  0 < V -> rne V <= 2 ^ (Z.log2 V + 1).
Proof.
  intros HV. unfold rne.
  pose proof (nshift_le_log2 V HV) as Hn.
  pose proof (Z.log2_spec V HV) as [_ Hhi].
  pose proof (rounded_bounds V (nshift V) ltac:(lia) ltac:(lia)) as [_ Hq].
  set (n := nshift V) in *.
  assert (Hpn : 0 < 2 ^ n) by (apply Z.pow_pos_nonneg; lia).
  assert (Hsplit : 2 ^ (Z.log2 V + 1) = 2 ^ (Z.log2 V + 1 - n) * 2 ^ n).
  { rewrite <- Z.pow_add_r by lia. f_equal. lia. }
  replace (Z.succ (Z.log2 V)) with (Z.log2 V + 1) in Hhi by lia.
  assert (Hdiv : V / 2 ^ n < 2 ^ (Z.log2 V + 1 - n)).
  { apply Z.div_lt_upper_bound; [exact Hpn|]. lia. }
  rewrite Hsplit. apply Z.mul_le_mono_nonneg_r; lia.
Qed.

Lemma rounded_mono_rem (V1 V2 n : Z) :
  0 <= V1 <= V2 -> 0 <= n -> V1 / 2 ^ n = V2 / 2 ^ n ->
  rounded V1 n <= rounded V2 n.
Proof.
  intros HV Hn Hq.
  assert (Hpn : 0 < 2 ^ n) by (apply Z.pow_pos_nonneg; lia).
  pose proof (Z.div_mod V1 (2 ^ n) ltac:(lia)) as H1.
  pose proof (Z.div_mod V2 (2 ^ n) ltac:(lia)) as H2.
  pose proof (Z.mod_pos_bound V1 (2 ^ n) Hpn) as Hr1.
  pose proof (Z.mod_pos_bound V2 (2 ^ n) Hpn) as Hr2.
  unfold rounded, loc_of_rem, round_nearest_even. rewrite <- Hq.
  rewrite <- Hq in H2.
  set (q := V1 / 2 ^ n) in *. set (r1 := V1 mod 2 ^ n) in *.
  set (r2 := V2 mod 2 ^ n) in *.
  assert (Hr : r1 <= r2) by lia.
  destruct (Z.eqb_spec r1 0), (Z.eqb_spec r2 0);
    destruct (Z.compare_spec (2 * r1) (2 ^ n)),
             (Z.compare_spec (2 * r2) (2 ^ n));
    destruct (Z.even q); lia.
Qed.

(** Rounding to nearest is monotone. *)
Lemma rne_mono (V1 V2 : Z) : 0 < V1 <= V2 -> rne V1 <= rne V2.
Proof.
  intros [H1 H12].
  pose proof (Z.log2_le_mono V1 V2 H12) as Hlog.
  pose proof (nshift_le_log2 V1 H1) as Hn1.
  pose proof (nshift_le_log2 V2 ltac:(lia)) as Hn2.
  destruct (Z.eq_dec (nshift V1) (nshift V2)) as [Heq|Hne].
  - unfold rne. rewrite <- Heq. set (n := nshift V1) in *.
    assert (Hpn : 0 < 2 ^ n) by (apply Z.pow_pos_nonneg; lia).
    pose proof (Z.div_le_mono V1 V2 (2 ^ n) Hpn H12) as Hq.
    apply Z.mul_le_mono_nonneg_r; [lia|].
    destruct (Z.eq_dec (V1 / 2 ^ n) (V2 / 2 ^ n)) as [Hqe|Hqn].
    + apply rounded_mono_rem; [lia | lia | exact Hqe].
    + pose proof (rounded_bounds V1 n ltac:(lia) ltac:(lia)).
      pose proof (rounded_bounds V2 n ltac:(lia) ltac:(lia)). lia.
  - assert (Hlt : Z.log2 V1 + 1 <= Z.log2 V2) by (unfold nshift in *; lia).
    pose proof (rne_upper V1 H1) as Hu.
    pose proof (rne_lower V2 ltac:(lia)) as Hl.
    assert (2 ^ (Z.log2 V1 + 1) <= 2 ^ Z.log2 V2)
      by (apply Z.pow_le_mono_r; lia).
    lia.
Qed.

Lemma round_result_finite (s : bool) (M e : Z) :
  fexp prec emax (Zdigits2 M + e) < 971 ->
  round_result s M e <> S754_infinity s.
Proof.
  intros H. unfold round_result.
  set (E := fexp prec emax (Zdigits2 M + e)) in *.
  destruct (_ <? _).
  - destruct (Z.leb_spec E 971); [discriminate | lia].
  - destruct (Z.leb_spec (E + 1) 971); [discriminate | lia].
Qed.

(** Below the exponent range of binary64 nothing rounds to an infinity. *)
Lemma binary_round_finite (s : bool) (M : positive) (e : Z) :
  -1074 <= e ->
  fexp prec emax (Z.pos (digits2_pos M) + e) < 971 ->
  binary_round prec emax s M e <> S754_infinity s.
Proof.
  intros He Hfin. unfold binary_round, shl_align.
  set (E := fexp prec emax (Z.pos (digits2_pos M) + e)) in *.
  assert (HEeq : E = Z.max (Z.pos (digits2_pos M) + e - 53) (-1074))
    by (unfold E; now rewrite fexp_eq).
  destruct (E - e) as [|k|k] eqn:Hk.
  - assert (HE : e <= fexp prec emax (Zdigits2 (Z.pos M) + e))
      by (simpl Zdigits2; fold E; lia).
    rewrite (proj1 (binary_round_aux_spec s M e He HE)).
    apply round_result_finite. exact Hfin.
  - assert (HE : e <= fexp prec emax (Zdigits2 (Z.pos M) + e))
      by (simpl Zdigits2; fold E; lia).
    rewrite (proj1 (binary_round_aux_spec s M e He HE)).
    apply round_result_finite. exact Hfin.
  - assert (Hd : Z.pos (digits2_pos (Pos.iter xO M k))
                 = Z.pos (digits2_pos M) + Z.pos k).
    { rewrite !digits2_log2, iter_xO_pow, log2_shift by lia. lia. }
    assert (HE' : E <= fexp prec emax (Zdigits2 (Z.pos (Pos.iter xO M k)) + E)).
    { simpl Zdigits2. rewrite Hd, fexp_eq. lia. }
    rewrite (proj1 (binary_round_aux_spec s (Pos.iter xO M k) E ltac:(lia) HE')).
    apply round_result_finite. simpl Zdigits2. rewrite Hd, fexp_eq. lia.
Qed.

Lemma shl_align_value (m : positive) (e ez : Z) :
  ez <= e ->
  Z.pos (fst (shl_align m e ez)) = Z.pos m * 2 ^ (e - ez).
Proof.
  intros H. unfold shl_align. destruct (ez - e) as [|k|k] eqn:Hk; simpl fst.
  - replace (e - ez) with 0 by lia. lia.
  - lia.
  - rewrite iter_xO_pow. f_equal. f_equal. lia.
Qed.


End FloatRound.

(** ** Signs of sums and differences *)

Module FloatSign.
Import Rounding FloatRound.


Lemma pow_scale_pos (e : Z) : -1074 <= e -> 0 < 2 ^ (e + 1074).
Proof. intros H. apply Z.pow_pos_nonneg; lia. Qed.

Lemma align_scaled (m : positive) (e ez : Z) :
  -1074 <= ez -> ez <= e ->
  Z.pos (fst (shl_align m e ez)) * 2 ^ (ez + 1074) = Z.pos m * 2 ^ (e + 1074).
Proof.
  intros H1 H2. rewrite shl_align_value by exact H2.
  rewrite <- Z.mul_assoc, <- Z.pow_add_r by lia. f_equal. f_equal. lia.
Qed.

(** The sum of two valid positive floats: an infinity, or the valid
    positive float of the rounded sum of their integers. *)
Lemma SFadd_finite_value (mx : positive) (ex : Z) (my : positive) (ey : Z) :
  valid_binary (S754_finite false mx ex) = true ->
  valid_binary (S754_finite false my ey) = true ->
  SF64add (S754_finite false mx ex) (S754_finite false my ey)
  = S754_infinity false \/
  exists m e,
    SF64add (S754_finite false mx ex) (S754_finite false my ey)
    = S754_finite false m e /\
    valid_binary (S754_finite false m e) = true /\
    Z.pos m * 2 ^ (e + 1074)
    = rne (Z.pos mx * 2 ^ (ex + 1074) + Z.pos my * 2 ^ (ey + 1074)).
Proof.
  intros Hx Hy.
  destruct (valid_canonical _ _ _ Hx) as [_ Hex].
  destruct (valid_canonical _ _ _ Hy) as [_ Hey].
  unfold SF64add, SFadd. cbn [cond_Zopp].
  set (ez := Z.min ex ey).
  set (a := fst (shl_align mx ex ez)). set (b := fst (shl_align my ey ez)).
  change (Z.pos a + Z.pos b) with (Z.pos (a + b)).
  cbn [binary_normalize].
  assert (Hez : -1074 <= ez) by (unfold ez; lia).
  assert (Hval : Z.pos (a + b) * 2 ^ (ez + 1074)
                 = Z.pos mx * 2 ^ (ex + 1074) + Z.pos my * 2 ^ (ey + 1074)).
  { rewrite Pos2Z.inj_add, Z.mul_add_distr_r. unfold a, b.
    rewrite !align_scaled by (unfold ez; lia). reflexivity. }
  destruct (binary_round_value false (a + b) ez Hez)
    as [Hinf | (m & e & Hr & Hv & _ & Hval')]; [now left | right].
  exists m, e. rewrite <- Hval. auto.
Qed.

Lemma SFadd_pos (x y : spec_float) :
  valid_binary x = true -> valid_binary y = true ->
  is_pos x = true -> is_nonneg y = true ->
  is_pos (SF64add x y) = true.
Proof.
  intros Hx Hy Hpx Hny.
  destruct x as [sx|[|]| |[|] mx ex]; try discriminate;
    destruct y as [sy|[|]| |[|] my ey]; try discriminate; try reflexivity.
  destruct (SFadd_finite_value mx ex my ey Hx Hy)
    as [-> | (m & e & -> & _)]; reflexivity.
Qed.

(** The difference of two valid positive floats, the first not below the
    second, is not negative. *)
Lemma SFsub_finite_nonneg (mx : positive) (ex : Z) (my : positive) (ey : Z) :
  valid_binary (S754_finite false mx ex) = true ->
  valid_binary (S754_finite false my ey) = true ->
  Z.pos my * 2 ^ (ey + 1074) <= Z.pos mx * 2 ^ (ex + 1074) ->
  is_nonneg (SF64sub (S754_finite false mx ex) (S754_finite false my ey))
  = true.
Proof.
  intros Hx Hy Hle.
  destruct (valid_canonical _ _ _ Hx) as [_ Hex].
  destruct (valid_canonical _ _ _ Hy) as [_ Hey].
  unfold SF64sub, SFsub. cbn [cond_Zopp].
  set (ez := Z.min ex ey).
  set (a := fst (shl_align mx ex ez)). set (b := fst (shl_align my ey ez)).
  assert (Hez : -1074 <= ez) by (unfold ez; lia).
  assert (Ha : Z.pos a * 2 ^ (ez + 1074) = Z.pos mx * 2 ^ (ex + 1074))
    by (apply align_scaled; unfold ez; lia).
  assert (Hb : Z.pos b * 2 ^ (ez + 1074) = Z.pos my * 2 ^ (ey + 1074))
    by (apply align_scaled; unfold ez; lia).
  pose proof (pow_scale_pos ez Hez) as Hp.
  assert (Hd : 0 <= Z.pos a - Z.pos b) by nia.
  destruct (Z.pos a - Z.pos b) as [|d|d]; [reflexivity | | lia].
  cbn [binary_normalize].
  destruct (binary_round_value false d ez Hez)
    as [-> | (m & e & -> & _)]; reflexivity.
Qed.

Lemma ltb_zero_pos (x : float) :
  (0 <? x)%float = true -> is_pos (Prim2SF x) = true.
Proof.
  rewrite ltb_spec. change (Prim2SF 0) with (S754_zero false).
  destruct (Prim2SF x) as [s|[|]| |[|] m e]; try discriminate; reflexivity.
Qed.

Lemma pos_not_zero (x : float) :
  is_pos (Prim2SF x) = true -> (x =? 0)%float = false.
Proof.
  rewrite eqb_spec. change (Prim2SF 0) with (S754_zero false).
  destruct (Prim2SF x) as [s|[|]| |[|] m e]; try discriminate; reflexivity.
Qed.

(** [float(i)] for a count [i >= 0]: zero, or the valid positive float of
    the rounded integer. *)
Lemma float_of_int_nonneg (i : Z) (f : float) :
  0 <= i -> Py.float_of_int i = Ok f ->
  (i = 0 /\ Prim2SF f = S754_zero false) \/
  (0 < i /\
   exists m e, Prim2SF f = S754_finite false m e /\
               Z.pos m * 2 ^ (e + 1074) = rne (i * 2 ^ 1074)).
Proof.
  intros Hi. unfold Py.float_of_int.
  destruct i as [|p|p]; [| |lia].
  - simpl. intros [= <-]. now left.
  - cbn [binary_normalize].
    destruct (binary_round_value false p 0 ltac:(lia))
      as [-> | (m & e & -> & Hv & _ & Hval)].
    + simpl. discriminate.
    + destruct (is_infinity _); [discriminate|]. intros [= <-].
      right. split; [lia|]. exists m, e.
      split; [exact (Prim2SF_SF2Prim _ Hv) | exact Hval].
Qed.

(** Counts below [2 ^ 1023] convert without overflow. *)
Lemma float_of_int_total (i : Z) :
  0 <= i < 2 ^ 1023 -> exists f, Py.float_of_int i = Ok f.
Proof.
  intros Hi. unfold Py.float_of_int.
  destruct i as [|p|p]; [| |lia].
  - now exists 0%float.
  - cbn [binary_normalize].
    assert (Hfin : binary_round prec emax false p 0 <> S754_infinity false).
    { apply binary_round_finite; [lia|].
      rewrite fexp_eq.
      assert (Z.pos (digits2_pos p) <= 1023).
      { rewrite digits2_log2.
        assert (Z.log2 (Z.pos p) < 1023) by (apply Z.log2_lt_pow2; lia). lia. }
      lia. }
    destruct (binary_round_value false p 0 ltac:(lia))
      as [Hinf | (m & e & Hr & Hv & _)]; [contradiction|].
    rewrite Hr.
    assert (Hni : is_infinity (SF2Prim (S754_finite false m e)) = false).
    { pose proof (Prim2SF_SF2Prim _ Hv) as H.
      unfold Prim2SF in H.
      destruct (is_nan _); [discriminate|]. destruct (is_zero _); [discriminate|].
      destruct (is_infinity _); [discriminate | reflexivity]. }
    rewrite Hni. eexists. reflexivity.
Qed.

(** With positive priors and counts [0 <= conversions <= trials], the two
    posterior parameters do not add up to zero. *)
Lemma posterior_sum_nonzero (pa pb c n : float) (conversions trials : Z) :
  (0 <? pa)%float = true -> (0 <? pb)%float = true ->
  0 <= conversions <= trials ->
  Py.float_of_int conversions = Ok c ->
  Py.float_of_int trials = Ok n ->
  ((pa + c) + (pb + n - c) =? 0)%float = false.
Proof.
  intros Hpa Hpb Hct Hc Hn.
  apply pos_not_zero. rewrite add_spec.
  apply ltb_zero_pos in Hpa, Hpb.
  pose proof (Prim2SF_valid c) as Hvc. pose proof (Prim2SF_valid n) as Hvn.
  pose proof (Prim2SF_valid pb) as Hvpb.
  assert (Hnc : is_nonneg (Prim2SF c) = true).
  { destruct (float_of_int_nonneg _ _ (proj1 Hct) Hc)
      as [[_ ->] | (_ & m & e & -> & _)]; reflexivity. }
  assert (Hnn : is_nonneg (Prim2SF n) = true).
  { destruct (float_of_int_nonneg trials n ltac:(lia) Hn)
      as [[_ ->] | (_ & m & e & -> & _)]; reflexivity. }
  apply SFadd_pos; try apply Prim2SF_valid.
  - rewrite add_spec. apply SFadd_pos; try apply Prim2SF_valid; assumption.
  - rewrite sub_spec.
    pose proof (Prim2SF_valid (pb + n)) as Hvu.
    assert (Hpu : is_pos (Prim2SF (pb + n)) = true).
    { rewrite add_spec. apply SFadd_pos; try apply Prim2SF_valid; assumption. }
    destruct (float_of_int_nonneg _ _ (proj1 Hct) Hc)
      as [[_ Ec] | (Hcpos & mc & ec & Ec & Hvalc)].
    { rewrite Ec. destruct (Prim2SF (pb + n)) as [s|[|]| |[|] m e];
        try discriminate; reflexivity. }
    destruct (float_of_int_nonneg trials n ltac:(lia) Hn)
      as [[Hn0 _] | (Hnpos & mn & en & En & Hvaln)]; [lia|].
    rewrite Ec in Hvc |- *. rewrite En in Hvn.
    assert (Hcn : Z.pos mc * 2 ^ (ec + 1074) <= Z.pos mn * 2 ^ (en + 1074)).
    { rewrite Hvalc, Hvaln. apply rne_mono.
      assert (0 < 2 ^ 1074) by (apply Z.pow_pos_nonneg; lia). nia. }
    rewrite add_spec in Hvu, Hpu |- *. rewrite En in Hvu, Hpu |- *.
    destruct (Prim2SF pb) as [s|[|]| |[|] mb eb]; try discriminate.
    + reflexivity.
    + destruct (SFadd_finite_value mb eb mn en Hvpb Hvn)
        as [-> | (m & e & Hr & Hv & Hval)]; [reflexivity|].
      rewrite Hr. apply SFsub_finite_nonneg; [exact Hv | exact Hvc |].
      rewrite Hval.
      rewrite <- (rne_id mn en Hvn) in Hcn.
      eapply Z.le_trans; [exact Hcn|]. apply rne_mono.
      destruct (valid_canonical _ _ _ Hvpb) as [_ Heb].
      destruct (valid_canonical _ _ _ Hvn) as [_ Hen].
      pose proof (pow_scale_pos eb ltac:(lia)).
      pose proof (pow_scale_pos en ltac:(lia)). nia.
Qed.


End FloatSign.

(** ** Dictionaries and lists *)

Module DictFacts.
Section Facts.
Context {V : Type}.
Implicit Types (d : Dict.t V) (k : string) (v : V).

Lemma get_set_same d k v : Dict.get (Dict.set d k v) k = Some v.
Proof.
  induction d as [|[k' v'] d IH]; simpl.
  - now rewrite String.eqb_refl.
  - destruct (String.eqb k k') eqn:E; simpl.
    + now rewrite String.eqb_refl.
    + now rewrite E.
Qed.

Lemma get_set_other d k k' v :
  k' <> k -> Dict.get (Dict.set d k v) k' = Dict.get d k'.
Proof.
  intros Hne. induction d as [|[k0 v0] d IH]; simpl.
  - destruct (String.eqb_spec k' k); [contradiction | reflexivity].
  - destruct (String.eqb_spec k k0) as [->|Hk]; simpl.
    + destruct (String.eqb_spec k' k0); [contradiction | reflexivity].
    + destruct (String.eqb_spec k' k0); [reflexivity | exact IH].
Qed.

(** Assigning to a key that is present keeps the keys and their order. *)
Lemma keys_set_present d k v :
  Dict.mem d k = true -> Dict.keys (Dict.set d k v) = Dict.keys d.
Proof.
  unfold Dict.mem, Dict.keys.
  induction d as [|[k0 v0] d IH]; simpl; [discriminate|].
  destruct (String.eqb_spec k k0) as [->|Hk]; simpl; [reflexivity|].
  intros H. now rewrite IH.
Qed.

Lemma mem_set d k k' v :
  Dict.mem (Dict.set d k v) k' = String.eqb k' k || Dict.mem d k'.
Proof.
  unfold Dict.mem. destruct (String.eqb_spec k' k) as [->|Hne].
  - now rewrite get_set_same.
  - now rewrite get_set_other.
Qed.

Lemma values_set d k v x :
  In x (Dict.values (Dict.set d k v)) -> x = v \/ In x (Dict.values d).
Proof.
  unfold Dict.values. induction d as [|[k0 v0] d IH]; simpl.
  - intros [<-|[]]. now left.
  - destruct (String.eqb k k0); simpl.
    + intros [<-|H]; auto.
    + intros [<-|H]; auto. destruct (IH H); auto.
Qed.

Lemma get_in_values d k v : Dict.get d k = Some v -> In v (Dict.values d).
Proof.
  unfold Dict.values. induction d as [|[k0 v0] d IH]; simpl; [discriminate|].
  destruct (String.eqb k k0); [intros [= ->]; now left|].
  intros H. right. now apply IH.
Qed.
End Facts.
End DictFacts.

Module ListFacts.

Lemma map_nth_seq {A : Type} (d : A) (l : list A) :
  map (fun i => nth i l d) (seq 0 (List.length l)) = l.
Proof.
  induction l as [|x l IH]; simpl; [reflexivity|].
  f_equal. rewrite <- seq_shift, map_map. exact IH.
Qed.

Lemma combine_map_same {A B C : Type} (f : A -> B) (g : A -> C) (l : list A) :
  combine (map f l) (map g l) = map (fun x => (f x, g x)) l.
Proof. induction l as [|x l IH]; simpl; [reflexivity | now rewrite IH]. Qed.

End ListFacts.

(** ** The builtins [min] and [max] *)

Module ExtremumFacts.
Import FloatFacts Extremum.

Section Pick.
Variable before : float -> float -> bool.
Hypothesis before_trans :
  forall a b c, before a b = true -> before b c = true -> before a c = true.
Hypothesis before_irrefl : forall a, before a a = false.



End Pick.



End ExtremumFacts.

(** ** The order of binary64 numbers and the sign of a difference *)

Module FloatOrder.
Import Rounding FloatRound FloatSign FloatFacts.

Ltac order_cases :=
  simpl; try discriminate; try reflexivity; try congruence;
  rewrite ?Pos.compare_cont_spec; simpl;
  repeat match goal with
         | |- context [Z.compare ?a ?b] =>
             destruct (Z.compare_spec a b); simpl; try lia; subst
         | H : context [Z.compare ?a ?b] |- _ =>
             destruct (Z.compare_spec a b); simpl in H; try lia; subst
         end;
  repeat match goal with
         | |- context [Pos.compare ?a ?b] =>
             destruct (Pos.compare_spec a b); simpl; try lia; subst
         | H : context [Pos.compare ?a ?b] |- _ =>
             destruct (Pos.compare_spec a b); simpl in H; try lia; subst
         end;
  try discriminate; try reflexivity; try congruence; try lia.

Lemma SFleb_refl (a : spec_float) : a <> S754_nan -> SFleb a a = true.
Proof.
  unfold SFleb. destruct a as [s|s| |s m e]; intros H; try destruct s;
    order_cases.
Qed.

Lemma SFleb_total (a b : spec_float) :
  a <> S754_nan -> b <> S754_nan -> SFleb b a = false -> SFleb a b = true.
Proof.
  unfold SFleb.
  destruct a as [sa|sa| |sa ma ea], b as [sb|sb| |sb mb eb]; intros Ha Hb;
    try destruct sa; try destruct sb; order_cases.
Qed.

Lemma SFleb_trans (a b c : spec_float) :
  SFleb a b = true -> SFleb b c = true -> SFleb a c = true.
Proof.
  unfold SFleb.
  destruct a as [sa|sa| |sa ma ea], b as [sb|sb| |sb mb eb],
           c as [sc|sc| |sc mc ec];
    try destruct sa; try destruct sb; try destruct sc; order_cases.
Qed.

Lemma is_nan_spec (x : float) :
  is_nan x = true <-> Prim2SF x = S754_nan.
Proof.
  unfold is_nan. rewrite eqb_spec. unfold SFeqb.
  destruct (Prim2SF x) as [s|s| |s m e]; try destruct s; simpl;
    rewrite ?Z.compare_refl, ?Pos.compare_cont_spec, ?Pos.compare_refl;
    simpl; split; congruence.
Qed.

Lemma not_nan_spec (x : float) :
  is_nan x = false <-> Prim2SF x <> S754_nan.
Proof.
  rewrite <- is_nan_spec. destruct (is_nan x); split; congruence.
Qed.

Lemma leb_refl (x : float) : is_nan x = false -> (x <=? x)%float = true.
Proof. rewrite leb_spec, not_nan_spec. apply SFleb_refl. Qed.

Lemma leb_total (a b : float) :
  is_nan a = false -> is_nan b = false ->
  (b <=? a)%float = false -> (a <=? b)%float = true.
Proof. rewrite !leb_spec, !not_nan_spec. apply SFleb_total. Qed.

Lemma leb_trans (a b c : float) :
  (a <=? b)%float = true -> (b <=? c)%float = true -> (a <=? c)%float = true.
Proof. rewrite !leb_spec. apply SFleb_trans. Qed.

Lemma leb_not_nan (a b : float) :
  (a <=? b)%float = true -> is_nan a = false /\ is_nan b = false.
Proof.
  rewrite leb_spec, !not_nan_spec. unfold SFleb.
  destruct (Prim2SF a), (Prim2SF b); simpl; try discriminate;
    split; discriminate.
Qed.

(** Of two valid floats, the one with the smaller exponent, or with the
    same exponent and the smaller mantissa, has the smaller magnitude. *)
Lemma magnitude_le (s1 : bool) (m1 : positive) (e1 : Z)
    (s2 : bool) (m2 : positive) (e2 : Z) :
  valid_binary (S754_finite s1 m1 e1) = true ->
  valid_binary (S754_finite s2 m2 e2) = true ->
  e1 < e2 \/ (e1 = e2 /\ (m1 <= m2)%positive) ->
  Z.pos m1 * 2 ^ (e1 + 1074) <= Z.pos m2 * 2 ^ (e2 + 1074).
Proof.
  intros H1 H2 [Hlt | [-> Hle]].
  - destruct (valid_canonical _ _ _ H1) as [Hc1 Hb1].
    destruct (valid_canonical _ _ _ H2) as [Hc2 Hb2].
    rewrite fexp_eq in Hc1, Hc2.
    change (Zdigits2 (Z.pos m1)) with (Z.pos (digits2_pos m1)) in Hc1.
    change (Zdigits2 (Z.pos m2)) with (Z.pos (digits2_pos m2)) in Hc2.
    pose proof (digits2_bounds m1) as [_ Hm1].
    pose proof (digits2_bounds m2) as [Hm2 _].
    assert (Hd2 : Z.pos (digits2_pos m2) = 53) by lia.
    assert (Hd1 : Z.pos (digits2_pos m1) <= 53) by lia.
    rewrite Hd2 in Hm2. change (2 ^ (53 - 1)) with 4503599627370496 in Hm2.
    assert (Hm1' : Z.pos m1 < 9007199254740992).
    { eapply Z.lt_le_trans; [exact Hm1|].
      change 9007199254740992 with (2 ^ 53).
      apply Z.pow_le_mono_r; lia. }
    pose proof (pow_scale_pos e1 ltac:(lia)) as HP.
    assert (HQ : 2 * 2 ^ (e1 + 1074) <= 2 ^ (e2 + 1074)).
    { replace (e2 + 1074) with ((e2 - e1 - 1) + (1 + (e1 + 1074))) by lia.
      rewrite (Z.pow_add_r 2 (e2 - e1 - 1) (1 + (e1 + 1074))) by lia.
      rewrite (Z.pow_add_r 2 1 (e1 + 1074)) by lia.
      change (2 ^ 1) with 2.
      assert (0 < 2 ^ (e2 - e1 - 1)) by (apply Z.pow_pos_nonneg; lia).
      nia. }
    nia.
  - apply Z.mul_le_mono_nonneg_r; [|lia].
    destruct (valid_canonical _ _ _ H1) as [_ Hb1].
    pose proof (pow_scale_pos e2 ltac:(lia)). lia.
Qed.

(** The order of two valid finite floats is the order of their values. *)
Lemma SFleb_finite (s1 : bool) (m1 : positive) (e1 : Z)
    (s2 : bool) (m2 : positive) (e2 : Z) :
  valid_binary (S754_finite s1 m1 e1) = true ->
  valid_binary (S754_finite s2 m2 e2) = true ->
  SFleb (S754_finite s1 m1 e1) (S754_finite s2 m2 e2) = true ->
  cond_Zopp s1 (Z.pos m1) * 2 ^ (e1 + 1074)
  <= cond_Zopp s2 (Z.pos m2) * 2 ^ (e2 + 1074).
Proof.
  intros H1 H2.
  destruct (valid_canonical _ _ _ H1) as [_ Hb1].
  destruct (valid_canonical _ _ _ H2) as [_ Hb2].
  pose proof (pow_scale_pos e1 ltac:(lia)) as HP1.
  pose proof (pow_scale_pos e2 ltac:(lia)) as HP2.
  unfold SFleb. intros H.
  destruct s1, s2; cbn [cond_Zopp]; simpl in H;
    rewrite ?Pos.compare_cont_spec in H; simpl in H.
  - assert (Hc : e2 < e1 \/ (e2 = e1 /\ (m2 <= m1)%positive)).
    { destruct (Z.compare_spec e1 e2); simpl in H; try discriminate;
        [right; split; [lia|] | left; lia].
      destruct (Pos.compare_spec m1 m2); simpl in H; try discriminate; lia. }
    pose proof (magnitude_le true m2 e2 true m1 e1 H2 H1 Hc). lia.
  - pose proof (Pos2Z.is_pos m1). pose proof (Pos2Z.is_pos m2). nia.
  - discriminate.
  - assert (Hc : e1 < e2 \/ (e1 = e2 /\ (m1 <= m2)%positive)).
    { destruct (Z.compare_spec e1 e2); simpl in H; try discriminate;
        [right; split; [lia|] | left; lia].
      destruct (Pos.compare_spec m1 m2); simpl in H; try discriminate; lia. }
    exact (magnitude_le false m1 e1 false m2 e2 H1 H2 Hc).
Qed.

(** The difference of two valid finite floats, the first not below the
    second, is not negative, whatever their signs. *)
Lemma SFsub_finite_order (sx : bool) (mx : positive) (ex : Z)
    (sy : bool) (my : positive) (ey : Z) :
  valid_binary (S754_finite sx mx ex) = true ->
  valid_binary (S754_finite sy my ey) = true ->
  cond_Zopp sy (Z.pos my) * 2 ^ (ey + 1074)
  <= cond_Zopp sx (Z.pos mx) * 2 ^ (ex + 1074) ->
  is_nonneg (SF64sub (S754_finite sx mx ex) (S754_finite sy my ey)) = true.
Proof.
  intros Hx Hy Hle.
  destruct (valid_canonical _ _ _ Hx) as [_ Hex].
  destruct (valid_canonical _ _ _ Hy) as [_ Hey].
  unfold SF64sub, SFsub.
  set (ez := Z.min ex ey).
  set (a := fst (shl_align mx ex ez)). set (b := fst (shl_align my ey ez)).
  assert (Hez : -1074 <= ez) by (unfold ez; lia).
  assert (Ha : Z.pos a * 2 ^ (ez + 1074) = Z.pos mx * 2 ^ (ex + 1074))
    by (apply align_scaled; unfold ez; lia).
  assert (Hb : Z.pos b * 2 ^ (ez + 1074) = Z.pos my * 2 ^ (ey + 1074))
    by (apply align_scaled; unfold ez; lia).
  pose proof (pow_scale_pos ez Hez) as Hp.
  assert (Hd : 0 <= cond_Zopp sx (Z.pos a) - cond_Zopp sy (Z.pos b)).
  { destruct sx, sy; cbn [cond_Zopp] in *; nia. }
  destruct (cond_Zopp sx (Z.pos a) - cond_Zopp sy (Z.pos b)) as [|d|d];
    [reflexivity | | lia].
  cbn [binary_normalize].
  destruct (binary_round_value false d ez Hez)
    as [-> | (m & e & -> & _)]; reflexivity.
Qed.

Lemma nonneg_not_below_zero (r : spec_float) :
  is_nonneg r = true -> SFltb r (S754_zero false) = false.
Proof. destruct r as [s|[|]| |[|] m e]; try discriminate; reflexivity. Qed.

Lemma SFsub_order (x m : spec_float) :
  valid_binary x = true -> valid_binary m = true ->
  SFleb x m = true ->
  SFltb (SF64sub m x) (S754_zero false) = false.
Proof.
  intros Hx Hm Hle.
  destruct x as [sx|sx| |sx mx ex], m as [sm|sm| |sm mm em];
    try discriminate Hle;
    try (destruct sx, sm; try discriminate Hle; reflexivity);
    try (destruct sx; try discriminate Hle; reflexivity);
    try (destruct sm; try discriminate Hle; reflexivity).
  apply nonneg_not_below_zero, SFsub_finite_order; try assumption.
  now apply SFleb_finite.
Qed.

(** [m - x] is not negative when [x <= m]. *)
Lemma sub_order (x m : float) :
  (x <=? m)%float = true -> (m - x <? 0)%float = false.
Proof.
  rewrite leb_spec, ltb_spec, sub_spec.
  change (Prim2SF 0) with (S754_zero false).
  apply SFsub_order; apply Prim2SF_valid.
Qed.

(** Nor is it when [m] is a NaN. *)
Lemma sub_nan (x m : float) :
  is_nan m = true -> (m - x <? 0)%float = false.
Proof.
  rewrite is_nan_spec, ltb_spec, sub_spec. intros ->.
  destruct (Prim2SF x); reflexivity.
Qed.

(** A number that is not below another one is at least as large. *)
Lemma SFltb_total (a b : spec_float) :
  a <> S754_nan -> b <> S754_nan -> SFltb b a = false -> SFleb a b = true.
Proof.
  unfold SFltb, SFleb.
  destruct a as [sa|sa| |sa ma ea], b as [sb|sb| |sb mb eb]; intros Ha Hb;
    try destruct sa; try destruct sb; order_cases.
Qed.

Lemma SFltb_leb (a b : spec_float) : SFltb b a = true -> SFleb b a = true.
Proof.
  unfold SFltb, SFleb. destruct (SFcompare b a) as [[| |]|];
    try discriminate; reflexivity.
Qed.

(** [np.maximum] keeps a NaN and otherwise bounds both arguments. *)
Lemma maximum_bound (a b : float) :
  is_nan (Np.maximum a b) = true \/
  ((a <=? Np.maximum a b)%float = true /\
   (b <=? Np.maximum a b)%float = true).
Proof.
  unfold Np.maximum. destruct (is_nan a) eqn:Ha; [now left|].
  destruct (b <? a)%float eqn:Hba.
  - right. split; [now apply leb_refl|].
    rewrite leb_spec. apply SFltb_leb. now rewrite <- ltb_spec.
  - destruct (is_nan b) eqn:Hb; [now left|]. right.
    split; [|now apply leb_refl].
    rewrite leb_spec. apply SFltb_total.
    + now apply not_nan_spec.
    + now apply not_nan_spec.
    + now rewrite <- ltb_spec.
Qed.

Lemma fold_maximum_nan (col : list float) (a : float) :
  is_nan a = true -> is_nan (fold_left Np.maximum col a) = true.
Proof.
  revert a. induction col as [|b col IH]; intros a Ha; simpl; [exact Ha|].
  apply IH. unfold Np.maximum. now rewrite Ha.
Qed.

Lemma fold_maximum_bound (col : list float) :
  forall a,
    is_nan (fold_left Np.maximum col a) = true \/
    Forall (fun x => (x <=? fold_left Np.maximum col a)%float = true)
      (a :: col).
Proof.
  induction col as [|b col IH]; intros a; simpl.
  - destruct (is_nan a) eqn:Ha; [now left | right].
    constructor; [now apply leb_refl | constructor].
  - destruct (IH (Np.maximum a b)) as [Hnan | Hall]; [now left|].
    destruct (maximum_bound a b) as [Hnan | [Ha Hb]].
    + left. now apply fold_maximum_nan.
    + right. inversion Hall as [|? ? Hm Hcol]; subst.
      constructor; [eapply leb_trans; eassumption|].
      constructor; [eapply leb_trans; eassumption | exact Hcol].
Qed.

(** The maximum of a column, less one of its elements, is not negative. *)
Lemma column_shortfall (col : list float) (a x : float) :
  In x (a :: col) ->
  (fold_left Np.maximum col a - x <? 0)%float = false.
Proof.
  intros Hin. destruct (fold_maximum_bound col a) as [Hnan | Hall].
  - now apply sub_nan.
  - apply sub_order. rewrite Forall_forall in Hall. now apply Hall.
Qed.

End FloatOrder.

(** ** [BayesianOptimizer] *)

Module BayesianOptimizerFacts.
Import BayesianOptimizer FloatFacts.

Lemma updates_snoc (s : t) obs o :
  updates s (obs ++ [o]) = update (updates s obs) (fst o) (snd o).
Proof. unfold updates. now rewrite fold_left_app. Qed.

Lemma update_samples (s : t) X y :
  X_sample (update s X y) = X_sample s ++ [X] /\
  y_sample (update s X y) = y_sample s ++ [y].
Proof. unfold update. destruct (best_value s <? y)%float; simpl; auto. Qed.

(** One step: the best moves to the new observation exactly when it
    strictly exceeds the current best. *)
Lemma update_best (s : t) X y :
  (best_value (update s X y), best_params (update s X y)) =
  if (best_value s <? y)%float then (y, Some X)
  else (best_value s, best_params s).
Proof. unfold update. destruct (best_value s <? y)%float; reflexivity. Qed.

Lemma updates_samples (s : t) obs :
  X_sample (updates s obs) = X_sample s ++ map fst obs /\
  y_sample (updates s obs) = y_sample s ++ map snd obs.
Proof.
  induction obs as [|o obs IH] using rev_ind.
  - simpl. now rewrite !app_nil_r.
  - rewrite updates_snoc, !map_app. simpl.
    destruct (update_samples (updates s obs) (fst o) (snd o)) as (HX & Hy).
    destruct IH as [IHX IHy].
    rewrite HX, Hy, IHX, IHy, <- !app_assoc. auto.
Qed.

(** The invariant of a run: nothing observed exceeds the best value, and
    the best is the sentinel or an observation that every earlier one
    stays strictly below. *)
Lemma best_of_updates bounds n0 (obs : list (list float * float)) :
  let s := updates (init bounds n0) obs in
  Forall (fun o => (best_value s <? snd o)%float = false) obs /\
  match best_params s with
  | None => best_value s = neg_infinity
  | Some x =>
      exists pre post,
        obs = pre ++ (x, best_value s) :: post /\
        Forall (fun o => (best_value s <=? snd o)%float = false) pre
  end.
Proof.
  induction obs as [|[X y] obs IH] using rev_ind.
  - split; [constructor | reflexivity].
  - cbv zeta in IH |- *. rewrite updates_snoc.
    set (s := updates (init bounds n0) obs) in *.
    destruct IH as [Hub Hat]. cbn [fst snd].
    pose proof (update_best s X y) as Hb.
    destruct (best_value s <? y)%float eqn:Hlt;
      injection Hb as Hv Hp; rewrite Hv, Hp.
    + split.
      * apply Forall_app. split.
        -- eapply Forall_impl; [|exact Hub]. simpl. intros o Ho.
           destruct (y <? snd o)%float eqn:Hyo; [|reflexivity].
           rewrite (ltb_trans _ _ _ Hlt Hyo) in Ho. discriminate.
        -- constructor; [apply ltb_irrefl | constructor].
      * exists obs, []. split; [reflexivity|].
        eapply Forall_impl; [|exact Hub]. simpl. intros o Ho.
        destruct (y <=? snd o)%float eqn:Hyo; [|reflexivity].
        rewrite (ltb_leb_trans _ _ _ Hlt Hyo) in Ho. discriminate.
    + split.
      * apply Forall_app. split; [exact Hub|].
        constructor; [exact Hlt | constructor].
      * destruct (best_params s) as [x|]; [|exact Hat].
        destruct Hat as (pre & post & Hobs & Hpre).
        exists pre, (post ++ [(X, y)]). split; [|exact Hpre].
        rewrite Hobs at 1. now rewrite <- app_assoc.
Qed.

(** C7: after any run of [update] calls on a fresh optimizer, the count
    reported by [get_best_params] is the number of calls; no observed value
    exceeds the reported best value; the best is the negative-infinity
    sentinel with an empty parameter vector when nothing was selected, and
    otherwise the value and vector of one observation, the first to reach
    it; a call replaces the best exactly when its value is strictly
    greater; and the run (x1,5.0),(x2,3.0),(x3,9.0) ends with 9.0 at x3. *)
Theorem update_keeps_running_maximum :
  forall bounds n0 (obs : list (list float * float)),
    let s := updates (init bounds n0) obs in
    let out := get_best_params s in
    n_iterations out = Z.of_nat (List.length obs) /\
    Forall (fun o => (best_value_out out <? snd o)%float = false) obs /\
    (match best_params s with
     | None => best_value_out out = neg_infinity /\ parameters out = []
     | Some x =>
         parameters out = x /\
         exists pre post,
           obs = pre ++ (x, best_value_out out) :: post /\
           Forall (fun o => (best_value_out out <=? snd o)%float = false) pre
     end) /\
    get_best_params (init bounds n0)
    = {| parameters := []; best_value_out := neg_infinity;
         n_iterations := 0 |} /\
    (forall X y,
        (best_value (update s X y), best_params (update s X y)) =
        if (best_value s <? y)%float then (y, Some X)
        else (best_value s, best_params s)) /\
    (forall x1 x2 x3,
        get_best_params
          (updates (init bounds n0)
             [(x1, 5%float); (x2, 3%float); (x3, 9%float)])
        = {| parameters := x3; best_value_out := 9%float;
             n_iterations := 3 |}).
Proof.
  intros bounds n0 obs s out.
  destruct (best_of_updates bounds n0 obs) as [Hub Hat]. fold s in Hub, Hat.
  split; [|split; [exact Hub | split; [|split; [reflexivity | split]]]].
  - unfold out, get_best_params, Py.len. simpl.
    destruct (updates_samples (init bounds n0) obs) as [HX _]. fold s in HX.
    rewrite HX. simpl. now rewrite length_map.
  - unfold out, get_best_params. simpl.
    destruct (best_params s) as [x|];
      [split; [reflexivity | exact Hat] | now split].
  - intros X y. apply update_best.
  - intros x1 x2 x3. reflexivity.
Qed.

Lemma argmax_scan_zeros (idx i n : nat) :
  Np.argmax_scan 0%float idx i (Np.zeros n) = idx.
Proof.
  revert i. induction n as [|n IH]; intros i; simpl; [reflexivity|].
  change (0 <=? 0)%float with true. cbv iota. apply IH.
Qed.

Lemma argmax_zeros (n : nat) :
  Np.argmax (Np.Vector (Np.zeros (S n))) = Ok 0%nat.
Proof.
  simpl. change (is_nan 0) with false. cbv iota.
  now rewrite argmax_scan_zeros.
Qed.

Section Acquisition.
Variable np_mean np_std : list float -> float.
Variable norm_cdf norm_pdf : float -> float.

Lemma acquisition_no_observation (self : t) X xi :
  y_sample self = [] ->
  acquisition_function np_mean np_std norm_cdf norm_pdf self X xi
  = Ok (Np.Vector (Np.zeros (List.length X))).
Proof. intros H. unfold acquisition_function. now rewrite H. Qed.

(** [np.max] returns one of the values, and one that none of them
    exceeds, unless it is a NaN. *)
Lemma fold_maximum_in (col : list float) :
  forall a, In (fold_left Np.maximum col a) (a :: col).
Proof.
  induction col as [|b col IH]; intros a; [now left|].
  cbn [fold_left]. destruct (IH (Np.maximum a b)) as [H|H].
  - rewrite <- H. unfold Np.maximum.
    destruct (is_nan a); [now left|].
    destruct (b <? a)%float; [now left | right; now left].
  - right. now right.
Qed.

Lemma acquisition_scalar (self : t) X xi :
  y_sample self <> [] ->
  exists best_f,
    In best_f (y_sample self) /\
    (is_nan best_f = true \/
     Forall (fun y => (y <=? best_f)%float = true) (y_sample self)) /\
    acquisition_function np_mean np_std norm_cdf norm_pdf self X xi
    = Ok (Np.Scalar
            (expected_improvement norm_cdf norm_pdf
               (np_mean (y_sample self)) (np_std (y_sample self)) best_f xi)).
Proof.
  intros H. unfold acquisition_function.
  destruct (y_sample self) as [|y ys] eqn:E; [congruence|].
  exists (fold_left Np.maximum ys y).
  split; [apply fold_maximum_in|].
  split; [apply FloatOrder.fold_maximum_bound|].
  unfold Py.len. simpl List.length.
  destruct (Z.eqb_spec (Z.of_nat (S (List.length ys))) 0) as [H0|_]; [lia|].
  reflexivity.
Qed.

(** With an observation the score does not read the candidates. *)
Lemma acquisition_candidates (self : t) X X' xi :
  y_sample self <> [] ->
  acquisition_function np_mean np_std norm_cdf norm_pdf self X' xi
  = acquisition_function np_mean np_std norm_cdf norm_pdf self X xi.
Proof.
  intros H. unfold acquisition_function.
  destruct (Z.eqb_spec (Py.len (y_sample self)) 0) as [H0|_]; [|reflexivity].
  destruct (y_sample self); [congruence | discriminate H0].
Qed.

(** Whatever was observed, the arg-max of the scores of a non-empty pool is
    its first index. *)
Lemma argmax_acquisition (self : t) X xi :
  X <> [] ->
  (ei_values <- acquisition_function np_mean np_std norm_cdf norm_pdf self X xi ;;
   Np.argmax ei_values) = Ok 0%nat.
Proof.
  intros HX. destruct (y_sample self) as [|y ys] eqn:E.
  - rewrite acquisition_no_observation by exact E. simpl.
    destruct X as [|x X]; [congruence|]. apply argmax_zeros.
  - destruct (acquisition_scalar self X xi) as (b & _ & _ & ->);
      [congruence|].
    reflexivity.
Qed.

Section Propose.
Variable world : Type.
Variable uniform : float -> float -> world -> result float * world.
Variable uniform_rows :
  list float -> list float -> nat -> world -> result (list (list float)) * world.

(** C1: [acquisition_function] returns the zero vector, one entry per
    candidate, when no observation was recorded.  With an observation it
    returns one scalar, the Expected Improvement
    [(mu - best - xi) * cdf(Z) + sigma * pdf(Z)] with
    [Z = (mu - best - xi) / sigma], where [mu] is the mean of the past
    values, [sigma] their standard deviation plus [1e-6] and [best] their
    maximum: one of the past values, which none of them exceeds (a NaN if
    one of them is a NaN); the scalar is the same for every candidate
    array.  And once [n_initial] observations exist, [propose_location]
    returns the first of the 1000 rows drawn. *)
Theorem acquisition_is_constant_so_first_candidate_wins :
  forall (self : t) (X X' : list (list float)) (xi : float)
         (w w' : world) (X_random : list (list float)),
    uniform_rows (map fst (bounds self)) (map snd (bounds self)) 1000%nat w
      = (Ok X_random, w') ->
    List.length X_random = 1000%nat ->
    (y_sample self = [] ->
     acquisition_function np_mean np_std norm_cdf norm_pdf self X xi
     = Ok (Np.Vector (Np.zeros (List.length X)))) /\
    (y_sample self <> [] ->
     exists best_f,
       In best_f (y_sample self) /\
       (is_nan best_f = true \/
        Forall (fun y => (y <=? best_f)%float = true) (y_sample self)) /\
       (let mu := np_mean (y_sample self) in
        let sigma := (np_std (y_sample self) + 1e-6)%float in
        let Z := ((mu - best_f - xi) / sigma)%float in
        acquisition_function np_mean np_std norm_cdf norm_pdf self X xi
        = Ok (Np.Scalar
                ((mu - best_f - xi) * norm_cdf Z + sigma * norm_pdf Z)%float)) /\
       acquisition_function np_mean np_std norm_cdf norm_pdf self X' xi
       = acquisition_function np_mean np_std norm_cdf norm_pdf self X xi) /\
    (n_initial self <= Py.len (X_sample self) ->
     exists first rest,
       X_random = first :: rest /\
       propose_location np_mean np_std norm_cdf norm_pdf world uniform
         uniform_rows self w = (Ok first, w')).
Proof.
  intros self X X' xi w w' X_random Hdraw Hlen. repeat split.
  - apply acquisition_no_observation.
  - intros Hne.
    destruct (acquisition_scalar self X xi Hne) as (b & Hin & Hb & HX).
    exists b. split; [exact Hin|]. split; [exact Hb|].
    split; [exact HX|]. now apply acquisition_candidates.
  - intros Hwarm. destruct X_random as [|first rest]; [discriminate|].
    exists first, rest. split; [reflexivity|].
    unfold propose_location.
    destruct (Z.ltb_spec (Py.len (X_sample self)) (n_initial self)) as [H|_];
      [lia|].
    rewrite Hdraw.
    pose proof (argmax_acquisition self (first :: rest) 0.01%float) as Harg.
    destruct (acquisition_function np_mean np_std norm_cdf norm_pdf self
                (first :: rest) 0.01%float) as [ei|e]; simpl in Harg |- *.
    + rewrite Harg by discriminate. reflexivity.
    + specialize (Harg ltac:(discriminate)). discriminate.
Qed.
End Propose.
End Acquisition.

(** The proposal of an optimizer past its warm-up, on a stream whose rows
    are the lower bounds, and its score with a mean of [75], a standard
    deviation of [0] and the values [0.5] and [0.4] for the two normal
    functions. *)
Lemma first_candidate_wins_on_sample :
  propose_location (fun _ => 75%float) (fun _ => 0%float)
    (fun _ => 0.5%float) (fun _ => 0.4%float) unit Sample.uniform_low
    Sample.uniform_rows_low Sample.observed tt
  = (Ok [20%float], tt) /\
  exists best_f,
    In best_f (y_sample Sample.observed) /\
    acquisition_function (fun _ => 75%float) (fun _ => 0%float)
      (fun _ => 0.5%float) (fun _ => 0.4%float) Sample.observed [] 0.01
    = Ok (Np.Scalar ((75 - best_f - 0.01) * 0.5 + (0 + 1e-6) * 0.4)%float).
Proof.
  destruct (acquisition_is_constant_so_first_candidate_wins
              (fun _ => 75%float) (fun _ => 0%float)
              (fun _ => 0.5%float) (fun _ => 0.4%float) unit
              Sample.uniform_low Sample.uniform_rows_low Sample.observed
              [] [] 0.01%float tt tt (repeat [20%float] 1000)
              eq_refl (repeat_length [20%float] 1000))
    as (_ & Hscore & H).
  split.
  - destruct (H ltac:(vm_compute; discriminate))
      as (first & rest & Hpool & ->).
    injection Hpool as <- _. reflexivity.
  - destruct (Hscore ltac:(vm_compute; discriminate))
      as (best_f & Hin & _ & Hvalue & _).
    exists best_f. split; [exact Hin | exact Hvalue].
Defined.

End BayesianOptimizerFacts.

(** ** [BayesianABTest] *)

Module BayesianABTestFacts.
Import BayesianABTest DictFacts ListFacts FloatFacts FloatSign.

(** The call makes no check on the counts: it returns as soon as both
    convert to a float and the posterior parameters do not add up to
    zero. *)
Lemma update_variant_returns (self : t) name conversions trials c n :
  Py.float_of_int conversions = Ok c ->
  Py.float_of_int trials = Ok n ->
  (alpha (Spec.posterior self conversions trials c n)
   + beta (Spec.posterior self conversions trials c n) =? 0)%float = false ->
  update_variant self name conversions trials
  = (Ok tt, Spec.stored self name (Spec.posterior self conversions trials c n)).
Proof.
  intros Hc Hn Hz. unfold update_variant. rewrite Hc, Hn. simpl.
  unfold Py.truediv. simpl in Hz. rewrite Hz. reflexivity.
Qed.

(** The only exceptions are those of the conversions and of the division,
    and they leave the analyzer as it was. *)
Lemma update_variant_raises (self : t) name conversions trials e self' :
  update_variant self name conversions trials = (Raise e, self') ->
  self' = self /\ (e = OverflowError \/ e = ZeroDivisionError).
Proof.
  unfold update_variant, Py.float_of_int, Py.truediv.
  destruct (is_infinity _); simpl; [intros [= <- <-]; auto|].
  destruct (is_infinity _); simpl; [intros [= <- <-]; auto|].
  destruct (_ =? 0)%float; simpl; [intros [= <- <-]; auto | discriminate].
Qed.

(** C5: with a valid prior (both parameters positive) and counts
    [0 <= conversions <= trials] that a float can hold, the call
    [update_variant(name, conversions, trials)] returns and stores under
    [name] the record with alpha = prior alpha + conversions, beta = prior
    beta + trials - conversions and mean = alpha / (alpha + beta); the
    records of the other names stay, a record already under [name] is
    replaced in place, and with both counts zero the posterior is the
    prior. *)
Theorem update_variant_posterior :
  forall (self : t) (name : string) (conversions trials : Z),
    0 <= conversions <= trials ->
    trials < 2 ^ 1023 ->
    (0 <? prior_alpha self)%float = true ->
    (0 <? prior_beta self)%float = true ->
    exists (c n : float) (self' : t),
      Py.float_of_int conversions = Ok c /\
      Py.float_of_int trials = Ok n /\
      update_variant self name conversions trials = (Ok tt, self') /\
      Dict.get (results self') name
      = Some {| alpha := (prior_alpha self + c)%float;
                beta := (prior_beta self + n - c)%float;
                mean := ((prior_alpha self + c)
                         / ((prior_alpha self + c)
                            + (prior_beta self + n - c)))%float;
                conversions := conversions; trials := trials |} /\
      (forall other, other <> name ->
         Dict.get (results self') other = Dict.get (results self) other) /\
      (Dict.mem (results self) name = true ->
         Dict.keys (results self') = Dict.keys (results self)) /\
      prior_alpha self' = prior_alpha self /\
      prior_beta self' = prior_beta self /\
      (conversions = 0 -> trials = 0 ->
       (prior_alpha self + c)%float = prior_alpha self /\
       (prior_beta self + n - c)%float = prior_beta self).
Proof.
  intros self name conversions trials Hct Hbound Hpa Hpb.
  destruct (float_of_int_total conversions ltac:(lia)) as [c Hc].
  destruct (float_of_int_total trials ltac:(lia)) as [n Hn].
  pose proof (posterior_sum_nonzero _ _ _ _ _ _ Hpa Hpb Hct Hc Hn) as Hz.
  exists c, n,
    (Spec.stored self name (Spec.posterior self conversions trials c n)).
  split; [exact Hc|]. split; [exact Hn|].
  split; [now apply update_variant_returns|].
  simpl. repeat split.
  - apply get_set_same.
  - intros other Hne. now apply get_set_other.
  - apply keys_set_present.
  - subst. injection Hc as <-. apply add_zero_r.
    now apply positive_not_neg_zero.
  - subst. injection Hc as <-. injection Hn as <-.
    rewrite add_zero_r by now apply positive_not_neg_zero.
    apply sub_zero_r.
Qed.

(** The control variant of the demonstration: 180 conversions in 5000
    trials on the uniform prior. *)
Lemma update_variant_posterior_on_control :
  exists self',
    update_variant default "control" 180 5000 = (Ok tt, self') /\
    Dict.get (results self') "control"
    = Some {| alpha := 181; beta := 4821; mean := (181 / 5002)%float;
              conversions := 180; trials := 5000 |}.
Proof.
  destruct (update_variant_posterior default "control" 180 5000)
    as (c & n & self' & Hc & Hn & Hrun & Hget & _).
  - split; discriminate.
  - reflexivity.
  - reflexivity.
  - reflexivity.
  - injection Hc as <-. injection Hn as <-.
    exists self'. split; [exact Hrun | exact Hget].
Defined.

(** C8, amended: a call with [conversions > trials] is not refused.  When
    both counts convert to a float and the posterior parameters do not add
    up to zero it returns and stores the record with alpha = prior alpha +
    conversions and beta = prior beta + trials - conversions.  Otherwise it
    raises and leaves the stored records unchanged: [ZeroDivisionError]
    when the posterior parameters add up to zero, [OverflowError] when a
    count does not convert to a float; and these are the only exceptions
    it can raise. *)
Theorem update_variant_does_not_validate :
  forall (self : t) (name : string) (conversions trials : Z),
    trials < conversions ->
    (forall c n,
        Py.float_of_int conversions = Ok c ->
        Py.float_of_int trials = Ok n ->
        ((prior_alpha self + c) + (prior_beta self + n - c) =? 0)%float
        = false ->
        exists self',
          update_variant self name conversions trials = (Ok tt, self') /\
          Dict.get (results self') name
          = Some {| alpha := (prior_alpha self + c)%float;
                    beta := (prior_beta self + n - c)%float;
                    mean := ((prior_alpha self + c)
                             / ((prior_alpha self + c)
                                + (prior_beta self + n - c)))%float;
                    conversions := conversions; trials := trials |}) /\
    (forall c n,
        Py.float_of_int conversions = Ok c ->
        Py.float_of_int trials = Ok n ->
        ((prior_alpha self + c) + (prior_beta self + n - c) =? 0)%float
        = true ->
        update_variant self name conversions trials
        = (Raise ZeroDivisionError, self)) /\
    ((forall c, Py.float_of_int conversions <> Ok c) \/
     (forall n, Py.float_of_int trials <> Ok n) ->
     update_variant self name conversions trials
     = (Raise OverflowError, self)) /\
    (forall e self',
        update_variant self name conversions trials = (Raise e, self') ->
        self' = self /\ (e = OverflowError \/ e = ZeroDivisionError)).
Proof.
  intros self name conversions trials _. split; [|split; [|split]].
  - intros c n Hc Hn Hz.
    exists (Spec.stored self name (Spec.posterior self conversions trials c n)).
    split; [now apply update_variant_returns | apply get_set_same].
  - intros c n Hc Hn Hz. unfold update_variant. rewrite Hc, Hn. simpl.
    unfold Py.truediv. now rewrite Hz.
  - unfold update_variant, Py.float_of_int.
    destruct (is_infinity _); simpl; [reflexivity|].
    destruct (is_infinity _); simpl; [reflexivity|].
    intros [H|H]; now destruct (H _ eq_refl).
  - apply update_variant_raises.
Qed.

(** Five conversions in three trials are stored, with a negative beta; no
    conversion in minus two trials makes the posterior parameters [1] and
    [-1], which add up to zero; and [10^400] conversions do not convert to
    a float. *)
Lemma update_variant_stores_excess_conversions :
  (exists self',
      update_variant default "a" 5 3 = (Ok tt, self') /\
      Dict.get (results self') "a"
      = Some {| alpha := 6; beta := (-1)%float; mean := 1.2%float;
                conversions := 5; trials := 3 |}) /\
  update_variant default "a" 0 (-2) = (Raise ZeroDivisionError, default) /\
  update_variant default "a" (10 ^ 400) 3 = (Raise OverflowError, default).
Proof.
  split; [|split].
  - destruct (update_variant_does_not_validate default "a" 5 3 eq_refl)
      as [Hok _].
    exact (Hok 5%float 3%float eq_refl eq_refl eq_refl).
  - destruct (update_variant_does_not_validate default "a" 0 (-2) eq_refl)
      as (_ & Hzero & _).
    exact (Hzero 0%float (-2)%float eq_refl eq_refl eq_refl).
  - destruct (update_variant_does_not_validate default "a" (10 ^ 400) 3
                ltac:(vm_compute; reflexivity))
      as (_ & _ & Hover & _).
    apply Hover. left. intros c. vm_compute. discriminate.
Defined.

(** C8 as stated fails: with 5 conversions in 3 trials the call returns
    and the stored records change. *)
Lemma update_variant_accepts_excess_conversions :
  3 < 5 /\
  fst (update_variant default "a" 5 3) = Ok tt /\
  results (snd (update_variant default "a" 5 3)) <> results default.
Proof. repeat split. discriminate. Qed.

(** C3, on the program: with one draw that is [0.5] for both variants, each
    variant is credited with the draw, so the values add up to [2.0]; and
    with two draws every returned value is an array of two entries, not a
    probability, because the comparison of line 123 takes the whole sample
    array of the variant. *)
Theorem probability_best_counts_a_tie_twice :
  get_probability_best unit Sample.beta_tied Sample.two_variants 1 tt
  = (Ok [("a"%string, Np.Vector [1%float]);
         ("b"%string, Np.Vector [1%float])], tt) /\
  get_probability_best unit Sample.beta_by_shape Sample.two_variants 2 tt
  = (Ok [("a"%string, Np.Vector [0.5%float; 0%float]);
         ("b"%string, Np.Vector [0%float; 0.5%float])], tt).
Proof. split; vm_compute; reflexivity. Qed.

Lemma maximum_arrays_length acc b :
  List.length b = List.length acc ->
  List.length (Np.maximum_arrays acc b) = List.length acc.
Proof.
  intros H. unfold Np.maximum_arrays.
  rewrite length_map, length_combine, H. apply Nat.min_id.
Qed.

Lemma maximum_arrays_nth acc b i :
  List.length b = List.length acc -> (i < List.length acc)%nat ->
  nth i (Np.maximum_arrays acc b) 0%float
  = Np.maximum (nth i acc 0%float) (nth i b 0%float).
Proof.
  intros Hlen Hi. unfold Np.maximum_arrays.
  rewrite (nth_indep _ 0%float
             (Np.maximum (fst (0%float, 0%float)) (snd (0%float, 0%float)))).
  - rewrite (map_nth (fun p => Np.maximum (fst p) (snd p))).
    rewrite combine_nth by congruence. reflexivity.
  - now rewrite length_map, length_combine, Hlen, Nat.min_id.
Qed.

(** Reducing the rows with the element-wise maximum is reducing every
    column with the maximum. *)
Lemma fold_maximum_arrays (rows : list (list float)) (a : list float) :
  Forall (fun b => List.length b = List.length a) rows ->
  fold_left Np.maximum_arrays rows a
  = map (fun i =>
           fold_left Np.maximum (map (fun r => nth i r 0%float) rows)
             (nth i a 0%float))
        (seq 0 (List.length a)).
Proof.
  revert a. induction rows as [|b rows IH]; intros a Hrows; simpl.
  - symmetry. apply map_nth_seq.
  - inversion Hrows as [|? ? Hb Hrest]; subst.
    rewrite IH.
    + rewrite maximum_arrays_length by exact Hb.
      apply map_ext_in. intros i Hi. apply in_seq in Hi.
      rewrite maximum_arrays_nth by (try exact Hb; lia). reflexivity.
    + rewrite maximum_arrays_length by exact Hb.
      eapply Forall_impl; [|exact Hrest]. simpl. intros; congruence.
Qed.

Lemma maximum_reduce_rows (a : list float) (rows : list (list float)) :
  Forall (fun b => List.length b = List.length a) rows ->
  maximum_reduce (a :: rows) = Ok (fold_left Np.maximum_arrays rows a).
Proof.
  intros H. unfold maximum_reduce.
  replace (forallb _ rows) with true; [reflexivity|].
  symmetry. apply forallb_forall. intros b Hb.
  rewrite Forall_forall in H. apply Nat.eqb_eq. now apply H.
Qed.

Section Sampling.
Variable world : Type.
Variable np_random_beta :
  float -> float -> Z -> world -> result (list float) * world.
Variable np_mean : list float -> float.

(** NumPy returns as many samples as it is asked for. *)
Hypothesis np_random_beta_size :
  forall a b n w l w',
    np_random_beta a b n w = (Ok l, w') -> List.length l = Z.to_nat n.

Lemma draw_samples_rows rs n acc w samples w' :
  draw_samples world np_random_beta rs n acc w = (Ok samples, w') ->
  Forall (fun r => List.length r = Z.to_nat n) (Dict.values acc) ->
  Forall (fun r => List.length r = Z.to_nat n) (Dict.values samples).
Proof.
  revert acc w. induction rs as [|[name params] rs IH]; intros acc w; simpl.
  - now intros [= <- <-].
  - destruct (np_random_beta _ _ n w) as [[l|e] w1] eqn:E; [|discriminate].
    intros Hdraw Hacc. apply (IH _ _ Hdraw).
    apply Forall_forall. intros x Hx.
    destruct (values_set _ _ _ _ Hx) as [->|Hin].
    + eapply np_random_beta_size; eassumption.
    + rewrite Forall_forall in Hacc. now apply Hacc.
Qed.

Lemma draw_samples_mem rs n acc w samples w' k :
  draw_samples world np_random_beta rs n acc w = (Ok samples, w') ->
  Dict.mem samples k = Dict.mem acc k || Dict.mem rs k.
Proof.
  revert acc w. induction rs as [|[name params] rs IH]; intros acc w; simpl.
  - intros [= <- <-]. now rewrite orb_false_r.
  - destruct (np_random_beta _ _ n w) as [[l|e] w1] eqn:E; [|discriminate].
    intros Hdraw. rewrite (IH _ _ Hdraw), mem_set.
    unfold Dict.mem. simpl.
    destruct (String.eqb k name); simpl.
    + now rewrite orb_true_r.
    + reflexivity.
Qed.

(** C9: [calculate_expected_loss] returns [0.0], drawing nothing, for a
    variant without a record; for a variant with a record it draws the
    sample matrix and returns the mean, over the draws, of the
    cross-variant maximum of the draw minus the sample of the variant in
    that draw. *)
Theorem expected_loss_is_mean_shortfall :
  forall (self : t) (variant : string) (n_samples : Z) (w : world),
    (Dict.mem (results self) variant = false ->
     calculate_expected_loss world np_random_beta np_mean self variant
       n_samples w = (Ok 0%float, w)) /\
    (Dict.mem (results self) variant = true ->
     match draw_samples world np_random_beta (results self) n_samples [] w with
     | (Raise e, w1) =>
         calculate_expected_loss world np_random_beta np_mean self variant
           n_samples w = (Raise e, w1)
     | (Ok samples, w1) =>
         exists mine,
           Dict.get samples variant = Some mine /\
           List.length mine = Z.to_nat n_samples /\
           calculate_expected_loss world np_random_beta np_mean self variant
             n_samples w
           = (Ok (np_mean
                    (Spec.draw_losses samples mine (Z.to_nat n_samples))), w1)
     end).
Proof.
  intros self variant n_samples w. unfold calculate_expected_loss. split.
  - intros ->. reflexivity.
  - intros Hmem. rewrite Hmem. simpl.
    destruct (draw_samples world np_random_beta (results self) n_samples [] w)
      as [[samples|e] w1] eqn:Hdraw; [|reflexivity].
    pose proof (draw_samples_rows _ _ _ _ _ _ Hdraw (Forall_nil _)) as Hrows.
    pose proof (draw_samples_mem _ _ _ _ _ _ variant Hdraw) as Hin.
    rewrite Hmem in Hin. simpl in Hin. unfold Dict.mem in Hin.
    destruct (Dict.get samples variant) as [mine|] eqn:Hget; [|discriminate].
    assert (Hmine : List.length mine = Z.to_nat n_samples).
    { rewrite Forall_forall in Hrows. apply Hrows.
      eapply get_in_values. exact Hget. }
    exists mine. split; [reflexivity|]. split; [exact Hmine|].
    unfold Dict.item. rewrite Hget.
    unfold Spec.draw_losses, Spec.draw_loss, Spec.draw_maximum.
    destruct (Dict.values samples) as [|a rows] eqn:Hval.
    { destruct samples; [discriminate Hget | discriminate Hval]. }
    inversion Hrows as [|? ? Ha Hrest]; subst.
    assert (Hrows' : Forall (fun b => List.length b = List.length a) rows).
    { eapply Forall_impl; [|exact Hrest]. simpl. intros; congruence. }
    rewrite maximum_reduce_rows by exact Hrows'. simpl.
    rewrite fold_maximum_arrays by exact Hrows'.
    rewrite <- (map_nth_seq 0%float mine) at 1.
    rewrite Hmine, Ha, combine_map_same, map_map. reflexivity.
Qed.
End Sampling.

Lemma beta_by_shape_size :
  forall a b n w l w',
    Sample.beta_by_shape a b n w = (Ok l, w') -> List.length l = Z.to_nat n.
Proof.
  intros a b n w l w'. unfold Sample.beta_by_shape.
  destruct (Z.eqb_spec n 2) as [->|_]; [|discriminate].
  destruct (a =? 2)%float; intros [= <- <-]; reflexivity.
Qed.

(** The expected loss of variant [b] when the draws of [a] are
    [0.75, 0.5] and its own are [0.25, 0.625]: the mean of [0.5] and
    [0.0]. *)
Lemma expected_loss_on_sample :
  calculate_expected_loss unit Sample.beta_by_shape Sample.mean_in_order
    Sample.two_variants "b" 2 tt = (Ok 0.25%float, tt).
Proof.
  destruct (expected_loss_is_mean_shortfall unit Sample.beta_by_shape
              Sample.mean_in_order beta_by_shape_size Sample.two_variants
              "b" 2 tt) as [_ H].
  specialize (H eq_refl).
  change (draw_samples unit Sample.beta_by_shape
            (results Sample.two_variants) 2 [] tt)
    with (Ok [("a"%string, [0.75%float; 0.5%float]);
              ("b"%string, [0.25%float; 0.625%float])], tt) in H.
  cbv beta iota in H.
  destruct H as (mine & Hget & _ & ->). injection Hget as <-. reflexivity.
Defined.

End BayesianABTestFacts.

(** ** [PriceElasticityModel] *)

Module PriceElasticityFacts.
Import PriceElasticityModel FloatFacts.

Section Power.
Variable np_power : float -> float -> float.
(** IEEE 754 [pow]: one to any power, a NaN included, is one. *)
Hypothesis np_power_one : forall e, np_power 1 e = 1%float.

(** C6: for a product with a stored elasticity and a stored base demand and
    a price [p] that is positive and finite, [predict_demand(p, p, id)]
    returns the stored base demand, whether the new price comes as a Python
    float or as a NumPy scalar: the ratio [p / p] is exactly one, one to the
    elasticity is one, and the base demand times one is itself. *)
Theorem predict_demand_at_same_price :
  forall (self : t) (product_id : string) (p elasticity base : float),
    Dict.get (elasticity_coefficients self) product_id = Some elasticity ->
    Dict.get (base_demand self) product_id = Some base ->
    (0 <? p)%float = true ->
    (p <? infinity)%float = true ->
    predict_demand np_power self p (Py.PyFloat p) product_id
    = Ok (Py.NpFloat base) /\
    predict_demand np_power self p (Py.NpFloat p) product_id
    = Ok (Py.NpFloat base) /\
    (p / p)%float = 1%float /\
    (base * np_power (p / p) elasticity)%float = base.
Proof.
  intros self product_id p elasticity base He Hb Hpos Hfin.
  pose proof (div_self p Hpos Hfin) as Hratio.
  assert (Hp0 : (p =? 0)%float = false).
  { rewrite eqb_spec. change (Prim2SF 0) with (S754_zero false).
    destruct (positive_finite p Hpos Hfin) as (m & e & ->). reflexivity. }
  assert (Hsame : (base * np_power (p / p) elasticity)%float = base)
    by now rewrite Hratio, np_power_one, mul_one_r.
  repeat split; try assumption;
    unfold predict_demand, Dict.mem, Dict.item, Py.num_truediv, Py.truediv;
    rewrite He, Hb, ?Hp0; simpl; now rewrite Hsame.
Qed.
End Power.

Lemma power_exact_cases_one : forall e, Sample.power_exact_cases 1 e = 1%float.
Proof. reflexivity. Qed.

(** The product of the demonstration at its current price. *)
Lemma predict_demand_at_same_price_on_sample :
  predict_demand Sample.power_exact_cases Sample.one_product 35
    (Py.PyFloat 35) "product_001" = Ok (Py.NpFloat 1000).
Proof.
  exact (proj1 (predict_demand_at_same_price Sample.power_exact_cases
                  power_exact_cases_one Sample.one_product "product_001"
                  35 (-1.5) 1000 eq_refl eq_refl eq_refl eq_refl)).
Defined.

End PriceElasticityFacts.

(** ** [DynamicPricingEngine] *)

Module DynamicPricingFacts.
Import DynamicPricingEngine ExtremumFacts FloatFacts.

(** The factor of the program is the factor of the specification: the
    products [target * 1.2] and [1.2 * target] are the same float. *)
Lemma inventory_factor_spec (inventory target : Z) :
  inventory_factor inventory target = Spec.inventory_factor inventory target.
Proof.
  unfold inventory_factor, Spec.inventory_factor.
  destruct (Py.float_of_int target) as [t|e]; simpl; [|reflexivity].
  rewrite (mul_comm 1.2 t), (mul_comm 0.8 t).
  destruct (Py.int_gt_float _ _); [reflexivity|].
  destruct (Py.int_lt_float _ _); reflexivity.
Qed.

Section Externals.
Variable world : Type.
Variable np_power : float -> float -> float.
Variable minimize :
  (float -> result float) -> float -> float * float -> result float.
Variable gamma : float -> float -> nat -> world -> result (list float) * world.
Variable poisson : list float -> world -> result (list Z) * world.
Variable np_percentile : list Z -> float -> float.
Variable now : world -> string * world.


(** C10: with an empty list of competitor prices the least competitor price
    is taken to be [current_price * 0.8] and the greatest
    [current_price * 1.2], and the interval is derived from them as for a
    non-empty list. *)
Theorem optimize_price_without_competitors :
  forall (self : t) (product_id : string) (current_price cost : float)
         (inventory_level target_inventory : Z) (w : world),
    min_competitor_price current_price [] = Ok (current_price * 0.8)%float /\
    max_competitor_price current_price [] = Ok (current_price * 1.2)%float /\
    price_range current_price cost [] inventory_level target_inventory
    = (factor <- Spec.inventory_factor inventory_level target_inventory ;;
       Ok (Spec.search_interval cost current_price
             (current_price * 0.8)%float (current_price * 1.2)%float factor)) /\
    optimize_price world np_power minimize gamma poisson np_percentile now
      self product_id current_price cost [] inventory_level target_inventory w
    = match Spec.inventory_factor inventory_level target_inventory with
      | Raise e => (Raise e, self, w)
      | Ok factor =>
          optimize_in_range world np_power minimize gamma poisson
            np_percentile now self product_id current_price cost
            inventory_level
            (Spec.search_interval cost current_price
               (current_price * 0.8)%float (current_price * 1.2)%float factor) w
      end.
Proof.
  intros self product_id current_price cost inventory_level target_inventory w.
  assert (Hrange :
    price_range current_price cost [] inventory_level target_inventory
    = (factor <- Spec.inventory_factor inventory_level target_inventory ;;
       Ok (Spec.search_interval cost current_price
             (current_price * 0.8)%float (current_price * 1.2)%float factor))).
  { unfold price_range. simpl. rewrite inventory_factor_spec. reflexivity. }
  repeat split; [exact Hrange|].
  unfold optimize_price. rewrite Hrange.
  destruct (Spec.inventory_factor inventory_level target_inventory);
    reflexivity.
Qed.
End Externals.


End DynamicPricingFacts.

(** ** [GammaPoissonMixture] *)

Module GammaPoissonFacts.
Import GammaPoissonMixture.

(** C2, on the program: fitting a fresh model to an empty purchase history
    divides [0.0] by [0] in the first pass, stores a NaN into [beta], and
    after the 1000 passes both parameters are NaN; on the history [[0]] the
    rate [beta] ends at infinity. *)
Theorem fit_on_empty_history_stores_nan :
  forall (np_sum_wide : list Z -> total)
         (mixed_pass : list Z -> t -> result unit * t)
         (world : Type)
         (gamma : float -> float -> nat -> world -> result (list float) * world)
         (w : world),
    (let self' := snd (fst (fit np_sum_wide mixed_pass world gamma default
                              [] 1000 w)) in
     alpha self' = Py.NpFloat nan /\ beta self' = Py.NpFloat nan) /\
    (let self' := snd (fst (fit np_sum_wide mixed_pass world gamma default
                              [] 1 w)) in
     alpha self' = Py.NpFloat 2 /\ beta self' = Py.NpFloat nan) /\
    (let self' := snd (fst (fit np_sum_wide mixed_pass world gamma default
                              [0] 1000 w)) in
     beta self' = Py.NpFloat infinity).
Proof.
  intros np_sum_wide mixed_pass world gamma w. unfold fit.
  replace (fit_loop mixed_pass (Z.to_nat 1000) [] (Py.len [])
             (np_sum np_sum_wide []) default)
    with (Ok tt, {| alpha := Py.NpFloat nan; beta := Py.NpFloat nan;
                    lambda_samples := [] |})
    by (vm_compute; reflexivity).
  replace (fit_loop mixed_pass (Z.to_nat 1) [] (Py.len [])
             (np_sum np_sum_wide []) default)
    with (Ok tt, {| alpha := Py.NpFloat 2; beta := Py.NpFloat nan;
                    lambda_samples := [] |})
    by (vm_compute; reflexivity).
  replace (fit_loop mixed_pass (Z.to_nat 1000) [0] (Py.len [0])
             (np_sum np_sum_wide [0]) default)
    with (Ok tt, {| alpha := Py.NpFloat 0.457628228156925;
                    beta := Py.NpFloat infinity;
                    lambda_samples := [] |})
    by (vm_compute; reflexivity).
  cbv beta iota. simpl int_div. cbv beta iota.
  repeat split;
    match goal with
    | |- context [gamma ?a ?b ?n w] =>
        destruct (gamma a b n w) as [[l|e] w1]; reflexivity
    end.
Qed.

End GammaPoissonFacts.

(** ** More on dictionaries *)

Module DictMore.
Import DictFacts.
Section Facts.
Context {V : Type}.
Implicit Types (d : Dict.t V) (k : string) (v : V).

Lemma mem_get d k : Dict.mem d k = true -> exists v, Dict.get d k = Some v.
Proof. unfold Dict.mem. destruct (Dict.get d k); [eauto | discriminate]. Qed.

Lemma not_mem_get d k : Dict.mem d k = false -> Dict.get d k = None.
Proof.
  unfold Dict.mem. destruct (Dict.get d k); [discriminate | reflexivity].
Qed.

Lemma mem_keys d k : Dict.mem d k = true <-> In k (Dict.keys d).
Proof.
  unfold Dict.mem, Dict.keys. induction d as [|[k0 v0] d IH]; simpl.
  - split; [discriminate | contradiction].
  - destruct (String.eqb_spec k k0) as [->|Hne].
    + split; auto.
    + rewrite IH. split; [auto | intros [H|H]; [congruence | exact H]].
Qed.

Lemma keys_set_absent d k v :
  Dict.mem d k = false -> Dict.keys (Dict.set d k v) = Dict.keys d ++ [k].
Proof.
  unfold Dict.mem, Dict.keys. induction d as [|[k0 v0] d IH]; simpl.
  - reflexivity.
  - destruct (String.eqb_spec k k0) as [->|Hne]; [discriminate|].
    intros H. simpl. now rewrite IH.
Qed.

Lemma keys_set_nodup d k v :
  NoDup (Dict.keys d) -> NoDup (Dict.keys (Dict.set d k v)).
Proof.
  intros Hd. destruct (Dict.mem d k) eqn:Hmem.
  - now rewrite keys_set_present.
  - rewrite keys_set_absent by exact Hmem.
    apply NoDup_app; [exact Hd | repeat constructor; intros [] |].
    intros x Hx [<-|[]]. apply mem_keys in Hx. congruence.
Qed.

(** A second assignment to a key overrides the first. *)
Lemma set_set d k v1 v2 : Dict.set (Dict.set d k v1) k v2 = Dict.set d k v2.
Proof.
  induction d as [|[k0 v0] d IH]; simpl.
  - now rewrite String.eqb_refl.
  - destruct (String.eqb k k0) eqn:E; simpl.
    + now rewrite String.eqb_refl.
    + now rewrite E, IH.
Qed.

(** A run of assignments, one for each key of a list. *)
Lemma fold_set_get (f : string -> V) (todo : list string) d k :
  Dict.get (fold_left (fun acc k => Dict.set acc k (f k)) todo d) k
  = if in_dec string_dec k todo then Some (f k) else Dict.get d k.
Proof.
  revert d. induction todo as [|k0 todo IH]; intros d; simpl; [reflexivity|].
  rewrite IH. destruct (in_dec string_dec k todo) as [Hin|Hout].
  - destruct (string_dec k0 k); reflexivity.
  - destruct (string_dec k0 k) as [->|Hne].
    + apply get_set_same.
    + apply get_set_other. congruence.
Qed.

Lemma fold_set_keys (f : string -> V) (todo : list string) d :
  NoDup todo ->
  (forall k, In k todo -> Dict.mem d k = false) ->
  Dict.keys (fold_left (fun acc k => Dict.set acc k (f k)) todo d)
  = Dict.keys d ++ todo.
Proof.
  revert d. induction todo as [|k0 todo IH]; intros d Hnd Hd; simpl.
  - now rewrite app_nil_r.
  - inversion Hnd as [|? ? Hk0 Hnd']; subst.
    rewrite IH; [|exact Hnd'|].
    + rewrite keys_set_absent by (apply Hd; now left).
      now rewrite <- app_assoc.
    + intros k Hk. rewrite mem_set.
      destruct (String.eqb_spec k k0) as [->|_]; [contradiction|].
      apply Hd. now right.
Qed.
End Facts.
End DictMore.

(** ** [GammaPoissonMixture]: the loop of [fit] *)

Module GammaPoissonLoop.
Import GammaPoissonMixture Derived.

Lemma int_truediv_raises (a b : Z) (e : exn) :
  int_truediv a b = Raise e -> e = OverflowError \/ e = ZeroDivisionError.
Proof.
  unfold int_truediv, Py.zero_truediv.
  destruct (b =? 0); [intros [= <-]; now right|].
  destruct (a =? 0); [discriminate|].
  destruct (is_infinity _); [intros [= <-]; now left | discriminate].
Qed.

(** The sum of a list of counts: a NumPy scalar when they all fit 64 bits,
    the exact Python integer when one of them is outside [-2^63, 2^64). *)
Lemma np_sum_int64 (np_sum_wide : list Z -> total) (purchase_data : list Z) :
  int64_counts purchase_data ->
  exists s, np_sum np_sum_wide purchase_data = NumPy s.
Proof.
  intros H. unfold np_sum. destruct purchase_data as [|x r]; [eauto|].
  replace (forallb in_int64 (x :: r)) with true; [eauto|].
  symmetry. apply forallb_forall. intros y Hy. unfold in_int64.
  specialize (H y Hy). apply andb_true_intro. split; lia.
Qed.

Lemma np_sum_object (np_sum_wide : list Z -> total) (purchase_data : list Z) :
  (exists x, In x purchase_data /\ (x < - 2 ^ 63 \/ 2 ^ 64 <= x)) ->
  np_sum np_sum_wide purchase_data = Python (fold_left Z.add purchase_data 0).
Proof.
  intros (x & Hin & Hx). unfold np_sum.
  destruct purchase_data as [|y r]; [contradiction|].
  replace (forallb in_int64 (y :: r)) with false.
  - replace (forallb in_numeric (y :: r)) with false; [reflexivity|].
    symmetry. apply not_true_is_false. intros H.
    rewrite forallb_forall in H. specialize (H x Hin).
    unfold in_numeric in H. apply andb_prop in H. lia.
  - symmetry. apply not_true_is_false. intros H.
    rewrite forallb_forall in H. specialize (H x Hin).
    unfold in_int64 in H. apply andb_prop in H. lia.
Qed.

Section Loop.
Variable mixed_pass : list Z -> t -> result unit * t.
Variable purchase_data : list Z.

(** A pass with a NumPy sum on float parameters. *)
Lemma fit_step_numpy (n : Z) (s : float) (self : t) :
  is_float (alpha self) = true -> is_float (beta self) = true ->
  if python_zero (beta self) then
    fit_step mixed_pass purchase_data n (NumPy s) self
    = (Raise ZeroDivisionError, self)
  else
    exists a b,
      fit_step mixed_pass purchase_data n (NumPy s) self
      = (Ok tt, {| alpha := Py.NpFloat a; beta := Py.NpFloat b;
                   lambda_samples := lambda_samples self |}).
Proof.
  unfold fit_step, int_div, python_zero, Py.truediv, value.
  destruct (alpha self) as [i|x|x]; simpl; try discriminate; intros _;
    (destruct (beta self) as [j|y|y]; simpl; try discriminate; intros _;
     [destruct (_ =? 0)%float; simpl; [reflexivity | eauto] | eauto]).
Qed.

Lemma fit_loop_numpy (k : nat) (n : Z) (s : float) :
  forall self : t,
    is_float (alpha self) = true -> is_float (beta self) = true ->
    python_zero (beta self) = false ->
    exists self',
      fit_loop mixed_pass k purchase_data n (NumPy s) self = (Ok tt, self') /\
      lambda_samples self' = lambda_samples self /\
      ((0 < k)%nat -> fitted self').
Proof.
  induction k as [|k IH]; intros self Ha Hb Hz.
  - exists self. repeat split. lia.
  - cbn [fit_loop]. pose proof (fit_step_numpy n s self Ha Hb) as H.
    rewrite Hz in H. destruct H as (a & b & ->).
    destruct (IH {| alpha := Py.NpFloat a; beta := Py.NpFloat b;
                    lambda_samples := lambda_samples self |}
                eq_refl eq_refl eq_refl)
      as (self' & Hrun & Hl & Hnp).
    exists self'. split; [exact Hrun|]. split; [exact Hl|]. intros _.
    destruct k as [|k].
    + simpl in Hrun. injection Hrun as <-. exists a, b. now split.
    + apply Hnp. lia.
Qed.

(** The loop stops at the first pass that raises. *)
Lemma fit_loop_first_raise (k : nat) (n : Z) (S : total) (self self' : t) e :
  (0 < k)%nat ->
  fit_step mixed_pass purchase_data n S self = (Raise e, self') ->
  fit_loop mixed_pass k purchase_data n S self = (Raise e, self').
Proof.
  intros Hk H. destruct k as [|k]; [lia|]. cbn [fit_loop]. now rewrite H.
Qed.

(** A pass with a Python integer for the sum on Python floats. *)
Lemma fit_step_python (n s : Z) (a b : float) (l : list float) :
  exists r a' b',
    fit_step mixed_pass purchase_data n (Python s)
      {| alpha := Py.PyFloat a; beta := Py.PyFloat b; lambda_samples := l |}
    = (r, {| alpha := Py.PyFloat a'; beta := Py.PyFloat b';
             lambda_samples := l |}) /\
    forall e, r = Raise e -> e = OverflowError \/ e = ZeroDivisionError.
Proof.
  unfold fit_step. cbn [alpha beta lambda_samples].
  unfold Py.float_of_int, Py.truediv.
  destruct (is_infinity _); cbn [bind].
  { exists (Raise OverflowError), a, b. split; [reflexivity|].
    intros e [= <-]. now left. }
  destruct (b =? 0)%float; cbn [bind].
  { exists (Raise ZeroDivisionError), a, b. split; [reflexivity|].
    intros e [= <-]. now right. }
  destruct (_ =? 0)%float; cbn [bind].
  { exists (Raise ZeroDivisionError), a, b. split; [reflexivity|].
    intros e [= <-]. now right. }
  destruct (int_truediv s n) as [sn|e0] eqn:Hsn; cbn [bind].
  - destruct (_ =? 0)%float.
    + eexists (Raise ZeroDivisionError), _, b. split; [reflexivity|].
      intros e [= <-]. now right.
    + eexists (Ok tt), _, _. split; [reflexivity | discriminate].
  - eexists (Raise e0), _, b. split; [reflexivity|].
    intros e [= <-]. exact (int_truediv_raises _ _ _ Hsn).
Qed.

Lemma fit_loop_python (k : nat) (n s : Z) (l : list float) :
  forall a b : float,
  exists r a' b',
    fit_loop mixed_pass k purchase_data n (Python s)
      {| alpha := Py.PyFloat a; beta := Py.PyFloat b; lambda_samples := l |}
    = (r, {| alpha := Py.PyFloat a'; beta := Py.PyFloat b';
             lambda_samples := l |}) /\
    forall e, r = Raise e -> e = OverflowError \/ e = ZeroDivisionError.
Proof.
  induction k as [|k IH]; intros a b.
  - exists (Ok tt), a, b. split; [reflexivity | discriminate].
  - cbn [fit_loop].
    destruct (fit_step_python n s a b l) as (r & a1 & b1 & -> & Hr).
    destruct r as [[]|e].
    + apply IH.
    + exists (Raise e), a1, b1. split; [reflexivity | exact Hr].
Qed.

(** X1: the loop of [fit].  With a NumPy scalar for the sum, on a model
    whose parameters are floats, it raises exactly when it makes a pass on
    a rate that is a Python zero: [ZeroDivisionError], the model unchanged;
    otherwise every pass returns, the samples are untouched, and after the
    first pass both parameters are NumPy scalars, so that no later division
    can raise.  With a Python integer for the sum, which an array of
    objects gives, on a model whose parameters are Python floats, both
    parameters stay Python floats and the samples are untouched, whether
    the loop returns or raises; it raises nothing but [OverflowError] and
    [ZeroDivisionError]; and its first pass raises [OverflowError], the
    model unchanged, when the sum does not convert to a float, and
    [ZeroDivisionError] when the sum converts and the rate is zero. *)
Theorem fit_loop_outcome :
  forall (k : nat) (n : Z) (self : t),
    (forall s : float,
        is_float (alpha self) = true -> is_float (beta self) = true ->
        (python_zero (beta self) = true -> (0 < k)%nat ->
         fit_loop mixed_pass k purchase_data n (NumPy s) self
         = (Raise ZeroDivisionError, self)) /\
        (python_zero (beta self) = false ->
         exists self',
           fit_loop mixed_pass k purchase_data n (NumPy s) self
           = (Ok tt, self') /\
           lambda_samples self' = lambda_samples self /\
           ((0 < k)%nat ->
            exists a b,
              alpha self' = Py.NpFloat a /\ beta self' = Py.NpFloat b))) /\
    (forall (s : Z) (a b : float),
        alpha self = Py.PyFloat a -> beta self = Py.PyFloat b ->
        let run := fit_loop mixed_pass k purchase_data n (Python s) self in
        (exists a' b',
            alpha (snd run) = Py.PyFloat a' /\
            beta (snd run) = Py.PyFloat b') /\
        lambda_samples (snd run) = lambda_samples self /\
        (forall e, fst run = Raise e ->
                   e = OverflowError \/ e = ZeroDivisionError) /\
        ((0 < k)%nat -> forall e, Py.float_of_int s = Raise e ->
         run = (Raise OverflowError, self)) /\
        ((0 < k)%nat -> forall fs, Py.float_of_int s = Ok fs ->
         (b =? 0)%float = true -> run = (Raise ZeroDivisionError, self))).
Proof.
  intros k n self. split.
  - intros s Ha Hb. split.
    + intros Hz Hk. apply fit_loop_first_raise; [exact Hk|].
      pose proof (fit_step_numpy n s self Ha Hb) as H. now rewrite Hz in H.
    + now apply fit_loop_numpy.
  - intros s a b Ha Hb run. subst run.
    destruct self as [alpha0 beta0 l]. cbn [alpha beta lambda_samples] in *.
    subst alpha0 beta0.
    destruct (fit_loop_python k n s l a b) as (r & a' & b' & Hrun & Hr).
    split; [|split; [|split; [|split]]].
    + rewrite Hrun. now exists a', b'.
    + now rewrite Hrun.
    + rewrite Hrun. exact Hr.
    + intros Hk e He. apply fit_loop_first_raise; [exact Hk|].
      unfold fit_step. cbn [alpha beta lambda_samples]. rewrite He.
      cbn [bind]. unfold Py.float_of_int in He.
      destruct (is_infinity _); [now injection He as <- | discriminate].
    + intros Hk fs Hfs Hz. apply fit_loop_first_raise; [exact Hk|].
      unfold fit_step. cbn [alpha beta lambda_samples]. rewrite Hfs.
      cbn [bind]. unfold Py.truediv. now rewrite Hz.
Qed.
End Loop.

(** The sum [10^400] of the array of the one count [10^400]: the first of
    the 1000 passes on a fresh model raises. *)
Lemma fit_loop_on_sample :
  fit_loop (fun _ self => (Ok tt, self)) 1000 [10 ^ 400] 1
    (Python (10 ^ 400)) default
  = (Raise OverflowError, default).
Proof.
  destruct (fit_loop_outcome (fun _ self => (Ok tt, self)) [10 ^ 400] 1000 1
              default) as [_ H].
  destruct (H (10 ^ 400) 2%float 1%float eq_refl eq_refl)
    as (_ & _ & _ & Hover & _).
  apply (Hover ltac:(apply Nat.ltb_lt; vm_compute; reflexivity)
           OverflowError).
  vm_compute. reflexivity.
Defined.

Section Train.
Variable world : Type.
Variable pow np_power : float -> float -> float.
Variable int_true_divide : Py.num -> Py.num -> result Py.num.
Variable np_sum_wide : list Z -> total.
Variable mixed_pass : list Z -> t -> result unit * t.
Variable gamma : float -> float -> nat -> world -> result (list float) * world.

Lemma thousand_passes : (0 < 1000)%nat.
Proof. apply Nat.ltb_lt. vm_compute. reflexivity. Qed.

(** The default 1000 passes on a fresh model, for a NumPy sum. *)
Lemma fit_loop_default (purchase_history : list Z) (n : Z) (s : float) :
  exists a b : float,
    fit_loop mixed_pass 1000 purchase_history n (NumPy s) default
    = (Ok tt, {| alpha := Py.NpFloat a; beta := Py.NpFloat b;
                 lambda_samples := [] |}).
Proof.
  destruct (fit_loop_numpy mixed_pass purchase_history 1000 n s default
              eq_refl eq_refl eq_refl)
    as (self' & Hrun & Hl & Hnp).
  destruct (Hnp thousand_passes) as (a & b & Ha & Hb).
  exists a, b. rewrite Hrun. f_equal.
  destruct self' as [a' b' l']. cbn [alpha beta lambda_samples] in Ha, Hb, Hl.
  now subst.
Qed.

(** [train_demand_model] in terms of the fitted parameters. *)
Lemma train_demand_model_fitted (self : DynamicPricingEngine.t)
    (product_id : string) (purchase_history : list Z) (w : world)
    (a b : float) :
  fit_loop mixed_pass 1000 purchase_history (Py.len purchase_history)
    (np_sum np_sum_wide purchase_history) default
  = (Ok tt, {| alpha := Py.NpFloat a; beta := Py.NpFloat b;
               lambda_samples := [] |}) ->
  DynamicPricingEngine.train_demand_model world pow np_power int_true_divide
    np_sum_wide mixed_pass gamma self product_id purchase_history w
  = match gamma a (1 / b)%float 10000%nat w with
    | (Raise e, w1) => (Raise e, self, w1)
    | (Ok l, w1) =>
        (Ok {| params_alpha := a; params_beta := b;
               params_mean := (a / b)%float;
               params_variance := (a / np_power b 2)%float |},
         registered self product_id
           {| alpha := Py.NpFloat a; beta := Py.NpFloat b;
              lambda_samples := l |}, w1)
    end.
Proof.
  intros Hrun. unfold DynamicPricingEngine.train_demand_model, fit.
  change (Z.to_nat 1000) with 1000%nat. rewrite Hrun.
  cbn [alpha beta int_div value].
  change (Py.np_float_of_int 1) with 1%float.
  destruct (gamma a (1 / b)%float 10000%nat w) as [[l|e] w1]; reflexivity.
Qed.

(** [train_demand_model] when the sum is a Python integer. *)
Lemma train_demand_model_python (self : DynamicPricingEngine.t)
    (product_id : string) (purchase_history : list Z) (w : world) (s : Z) :
  np_sum np_sum_wide purchase_history = Python s ->
  let self' :=
    snd (fst (DynamicPricingEngine.train_demand_model world pow np_power
                int_true_divide np_sum_wide mixed_pass gamma self product_id
                purchase_history w)) in
  self' = self \/
  exists model,
    python_fitted model /\ self' = registered self product_id model.
Proof.
  intros Hsum. cbv zeta. unfold DynamicPricingEngine.train_demand_model, fit.
  change (Z.to_nat 1000) with 1000%nat. rewrite Hsum.
  destruct (fit_loop_python mixed_pass purchase_history 1000
              (Py.len purchase_history) s [] 2 1)
    as (r & a & b & Hrun & _).
  change default
    with {| alpha := Py.PyFloat 2; beta := Py.PyFloat 1;
            lambda_samples := [] |}.
  rewrite Hrun. destruct r as [[]|e]; [|now left].
  cbn [alpha beta int_div value]. unfold Py.truediv.
  destruct (b =? 0)%float eqn:Hb; [now left|].
  destruct (gamma a _ 10000%nat w) as [[l|e] w1]; [|now left].
  right. eexists. split; [|reflexivity]. exists a, b. now repeat split.
Qed.

(** X2: [train_demand_model] on a purchase history whose counts all fit a
    64-bit integer, the empty history included: the 1000 passes of the fit
    return, with NumPy parameters [a] and [b]; the call raises exactly when
    the draw of [np.random.gamma] raises, and then registers nothing;
    otherwise it registers the fitted model under the product, in place of
    an earlier one, and returns its parameters.  On a history with a count
    outside [-2^63, 2^64) the sum is the exact Python integer: when that
    integer does not convert to a float the call raises [OverflowError] in
    the first pass and registers nothing, and a model that the call does
    register holds Python floats, with a rate that is not zero. *)
Theorem train_demand_model_outcome :
  forall (self : DynamicPricingEngine.t) (product_id : string)
         (purchase_history : list Z) (w : world),
    (int64_counts purchase_history ->
     exists a b : float,
       fit_loop mixed_pass 1000 purchase_history (Py.len purchase_history)
         (np_sum np_sum_wide purchase_history) default
       = (Ok tt, {| alpha := Py.NpFloat a; beta := Py.NpFloat b;
                    lambda_samples := [] |}) /\
       DynamicPricingEngine.train_demand_model world pow np_power
         int_true_divide np_sum_wide mixed_pass gamma self product_id
         purchase_history w
       = match gamma a (1 / b)%float 10000%nat w with
         | (Raise e, w1) => (Raise e, self, w1)
         | (Ok l, w1) =>
             (Ok {| params_alpha := a; params_beta := b;
                    params_mean := (a / b)%float;
                    params_variance := (a / np_power b 2)%float |},
              {| DynamicPricingEngine.gamma_poisson_models :=
                   Dict.set (DynamicPricingEngine.gamma_poisson_models self)
                     product_id
                     {| alpha := Py.NpFloat a; beta := Py.NpFloat b;
                        lambda_samples := l |};
                 DynamicPricingEngine.elasticity_model :=
                   DynamicPricingEngine.elasticity_model self;
                 DynamicPricingEngine.pricing_history :=
                   DynamicPricingEngine.pricing_history self |}, w1)
         end) /\
    ((exists x, In x purchase_history /\ (x < - 2 ^ 63 \/ 2 ^ 64 <= x)) ->
     let run :=
       DynamicPricingEngine.train_demand_model world pow np_power
         int_true_divide np_sum_wide mixed_pass gamma self product_id
         purchase_history w in
     np_sum np_sum_wide purchase_history
     = Python (fold_left Z.add purchase_history 0) /\
     (forall e, Py.float_of_int (fold_left Z.add purchase_history 0) = Raise e ->
      run = (Raise OverflowError, self, w)) /\
     (snd (fst run) = self \/
      exists model a b,
        alpha model = Py.PyFloat a /\ beta model = Py.PyFloat b /\
        (b =? 0)%float = false /\
        snd (fst run)
        = {| DynamicPricingEngine.gamma_poisson_models :=
               Dict.set (DynamicPricingEngine.gamma_poisson_models self)
                 product_id model;
             DynamicPricingEngine.elasticity_model :=
               DynamicPricingEngine.elasticity_model self;
             DynamicPricingEngine.pricing_history :=
               DynamicPricingEngine.pricing_history self |})).
Proof.
  intros self product_id purchase_history w. split.
  - intros H64.
    destruct (np_sum_int64 np_sum_wide purchase_history H64) as [s Hs].
    destruct (fit_loop_default purchase_history (Py.len purchase_history) s)
      as (a & b & Hrun).
    rewrite <- Hs in Hrun. exists a, b. split; [exact Hrun|].
    now apply train_demand_model_fitted.
  - intros Hout run.
    pose proof (np_sum_object np_sum_wide purchase_history Hout) as Hsum.
    split; [exact Hsum|]. split.
    + intros e He. subst run.
      unfold DynamicPricingEngine.train_demand_model, fit.
      change (Z.to_nat 1000) with 1000%nat. rewrite Hsum.
      rewrite (fit_loop_first_raise mixed_pass purchase_history 1000
                 (Py.len purchase_history)
                 (Python (fold_left Z.add purchase_history 0)) default
                 default OverflowError thousand_passes); [reflexivity|].
      unfold fit_step. cbn [alpha beta default init]. rewrite He.
      cbn [bind]. unfold Py.float_of_int in He.
      destruct (is_infinity _); [now injection He as <- | discriminate].
    + destruct (train_demand_model_python self product_id purchase_history w
                  _ Hsum) as [H|(model & (a & b & Ha & Hb & Hz) & H)].
      * now left.
      * right. now exists model, a, b.
Qed.
End Train.

(** The demonstration's product on three counts, and on the one count
    [10^400]. *)
Lemma train_demand_model_on_sample :
  (exists a b : float,
      fst (fst (DynamicPricingEngine.train_demand_model unit
                  Sample.power_exact_cases Sample.power_exact_cases
                  (fun _ _ => Raise ValueError) (fun _ => Python 0)
                  (fun _ self => (Ok tt, self)) Sample.gamma_fixed
                  DynamicPricingEngine.init "product_001" [12; 15; 11] tt))
      = Ok {| params_alpha := a; params_beta := b;
              params_mean := (a / b)%float;
              params_variance := (a / Sample.power_exact_cases b 2)%float |}) /\
  DynamicPricingEngine.train_demand_model unit Sample.power_exact_cases
    Sample.power_exact_cases (fun _ _ => Raise ValueError) (fun _ => Python 0)
    (fun _ self => (Ok tt, self)) Sample.gamma_fixed
    DynamicPricingEngine.init "product_001" [10 ^ 400] tt
  = (Raise OverflowError, DynamicPricingEngine.init, tt).
Proof.
  split.
  - destruct (train_demand_model_outcome unit Sample.power_exact_cases
                Sample.power_exact_cases (fun _ _ => Raise ValueError)
                (fun _ => Python 0) (fun _ self => (Ok tt, self))
                Sample.gamma_fixed DynamicPricingEngine.init "product_001"
                [12; 15; 11] tt) as [H _].
    destruct H as (a & b & _ & ->).
    + intros x [<-|[<-|[<-|[]]]]; lia.
    + exists a, b. reflexivity.
  - destruct (train_demand_model_outcome unit Sample.power_exact_cases
                Sample.power_exact_cases (fun _ _ => Raise ValueError)
                (fun _ => Python 0) (fun _ self => (Ok tt, self))
                Sample.gamma_fixed DynamicPricingEngine.init "product_001"
                [10 ^ 400] tt) as [_ H].
    destruct H as (_ & Hover & _).
    + exists (10 ^ 400). split; [now left | right].
      apply Z.leb_le. vm_compute. reflexivity.
    + apply (Hover OverflowError). vm_compute. reflexivity.
Defined.

End GammaPoissonLoop.

(** ** [PriceElasticityModel]: fitting, and what the prediction can raise *)

Module PriceElasticityCalls.
Import PriceElasticityModel Derived DictFacts DictMore FloatFacts.

Section Fit.
Variable np_log : float -> float.
Variable np_polyfit : list float -> list float -> Z -> result (list float).
Variable np_mean : list float -> float.
Variable np_power : float -> float -> float.

Lemma calculate_elasticity_keys (m : t) prices quantities pid :
  keys_agree m ->
  keys_agree (snd (calculate_elasticity np_log np_polyfit np_mean m prices
                     quantities pid)).
Proof.
  intros Hm. unfold calculate_elasticity.
  destruct (bind _ _) as [e|e]; simpl; [|exact Hm].
  intros k. simpl. rewrite !mem_set. now rewrite Hm.
Qed.

Lemma after_calls_keys calls (m : t) :
  keys_agree m -> keys_agree (after_calls np_log np_polyfit np_mean calls m).
Proof.
  revert m. induction calls as [|c calls IH]; intros m Hm; simpl; [exact Hm|].
  apply IH. now apply calculate_elasticity_keys.
Qed.

Lemma init_keys : keys_agree init.
Proof. intros k. reflexivity. Qed.

(** X3: on a model built by [calculate_elasticity] calls the two
    dictionaries hold the same products, so [predict_demand] never raises
    [KeyError]: it raises only [ZeroDivisionError], for a current price of
    zero and a new price that is not a NumPy scalar, or [OverflowError],
    for an integer new price beyond the floats. *)
Theorem predict_demand_raises_only_on_division :
  forall (calls : list (list float * list float * string))
         (current_price : float) (new_price : Py.num) (product_id : string),
    let m := after_calls np_log np_polyfit np_mean calls init in
    keys_agree m /\
    forall e,
      predict_demand np_power m current_price new_price product_id = Raise e ->
      (e = ZeroDivisionError /\ (current_price =? 0)%float = true /\
       forall x, new_price <> Py.NpFloat x) \/
      (e = OverflowError /\ exists i, new_price = Py.PyInt i).
Proof.
  intros calls current_price new_price product_id m.
  assert (Hm : keys_agree m) by (apply after_calls_keys, init_keys).
  split; [exact Hm|]. intros e. unfold predict_demand.
  destruct (Dict.mem (elasticity_coefficients m) product_id) eqn:Hmem;
    simpl; [|discriminate].
  destruct (mem_get _ _ Hmem) as [el Hel].
  rewrite Hm in Hmem. destruct (mem_get _ _ Hmem) as [b Hb].
  unfold Dict.item. rewrite Hel, Hb. simpl.
  unfold Py.num_truediv, Py.truediv, Py.float_of_int.
  destruct new_price as [i|x|x]; simpl.
  - destruct (is_infinity _); simpl.
    + intros [= <-]. right. eauto.
    + destruct (current_price =? 0)%float eqn:H0; simpl; [|discriminate].
      intros [= <-]. left. repeat split. discriminate.
  - destruct (current_price =? 0)%float eqn:H0; simpl; [|discriminate].
    intros [= <-]. left. repeat split. discriminate.
  - discriminate.
Qed.

(** [predict_demand] on a NumPy price never raises. *)
Lemma predict_demand_np (m : t) current_price x pid :
  keys_agree m ->
  exists d,
    predict_demand np_power m current_price (Py.NpFloat x) pid = Ok d /\
    to_float d = demand_at np_power m current_price pid x /\
    forall price cost,
      revenue price cost d
      = ((price - cost) * demand_at np_power m current_price pid x)%float.
Proof.
  intros Hm. unfold predict_demand, demand_at.
  destruct (Dict.mem (elasticity_coefficients m) pid) eqn:Hmem; simpl.
  - destruct (mem_get _ _ Hmem) as [el Hel].
    rewrite Hm in Hmem. destruct (mem_get _ _ Hmem) as [b Hb].
    unfold Dict.item. rewrite Hel, Hb. simpl. eexists. repeat split.
  - rewrite (not_mem_get _ _ Hmem).
    rewrite Hm in Hmem. rewrite (not_mem_get _ _ Hmem).
    eexists. repeat split.
Qed.

Section Optimal.
Variable minimize :
  (float -> result float) -> float -> float * float -> result float.

(** On a model whose dictionaries agree the prediction after the search
    cannot raise either. *)
Lemma get_optimal_price_search (m : t) (product_id : string)
    (cost current_price : float) (price_range : float * float) :
  keys_agree m ->
  get_optimal_price np_power minimize m product_id cost current_price
    price_range
  = (x <- minimize
            (revenue_objective np_power m product_id cost current_price)
            current_price price_range ;;
     Ok {| optimal_price := x;
           expected_demand :=
             demand_at np_power m current_price product_id x;
           expected_revenue :=
             ((x - cost)
              * demand_at np_power m current_price product_id x)%float;
           elasticity :=
             match Dict.get (elasticity_coefficients m) product_id with
             | Some e => e
             | None => 0%float
             end;
           demand_confidence_interval := None |}).
Proof.
  intros Hm. unfold get_optimal_price.
  change (fun price : float =>
            demand <- predict_demand np_power m current_price
                        (Py.NpFloat price) product_id ;;
            Ok (- revenue price cost demand)%float)
    with (revenue_objective np_power m product_id cost current_price).
  destruct (minimize _ current_price price_range) as [x|e]; simpl;
    [|reflexivity].
  destruct (predict_demand_np m current_price x product_id Hm)
    as (d & -> & Hd & Hrev).
  simpl. now rewrite Hd, Hrev.
Qed.

(** X4: on a model whose dictionaries agree, [get_optimal_price] raises
    only what the search raises: the objective it hands over returns for
    every price, a current price of zero included, because the search
    supplies NumPy scalars; and the result is read off the price that the
    search returns. *)
Theorem get_optimal_price_raises_only_in_search :
  forall (m : t) (product_id : string) (cost current_price : float)
         (price_range : float * float),
    keys_agree m ->
    (forall price,
        revenue_objective np_power m product_id cost current_price price
        = Ok (- ((price - cost)
                 * demand_at np_power m current_price product_id price))%float)
    /\
    get_optimal_price np_power minimize m product_id cost current_price
      price_range
    = (x <- minimize
              (revenue_objective np_power m product_id cost current_price)
              current_price price_range ;;
       Ok {| optimal_price := x;
             expected_demand :=
               demand_at np_power m current_price product_id x;
             expected_revenue :=
               ((x - cost)
                * demand_at np_power m current_price product_id x)%float;
             elasticity :=
               match Dict.get (elasticity_coefficients m) product_id with
               | Some e => e
               | None => 0%float
               end;
             demand_confidence_interval := None |}).
Proof.
  intros m product_id cost current_price price_range Hm. split.
  - intros price. unfold revenue_objective.
    destruct (predict_demand_np m current_price price product_id Hm)
      as (d & -> & _ & Hrev).
    simpl. now rewrite Hrev.
  - now apply get_optimal_price_search.
Qed.
End Optimal.

(** X5: a call [calculate_elasticity(prices, quantities, id)] that raises
    stores nothing; one that returns stores the leading coefficient of the
    fit and the mean of the quantities under [id], leaves every other
    product as it was, and from then on [predict_demand(p, p, id)] is that
    mean for every positive finite price [p]. *)
Theorem calculate_elasticity_then_predict :
  forall (m : t) (prices quantities : list float) (product_id : string),
    match calculate_elasticity np_log np_polyfit np_mean m prices quantities
            product_id with
    | (Raise _, m') => m' = m
    | (Ok elasticity, m') =>
        (exists rest,
            np_polyfit (map (fun p => np_log (p + 1e-10)%float) prices)
              (map (fun q => np_log (q + 1e-10)%float) quantities) 1
            = Ok (elasticity :: rest)) /\
        Dict.get (elasticity_coefficients m') product_id = Some elasticity /\
        Dict.get (base_demand m') product_id = Some (np_mean quantities) /\
        (forall other, other <> product_id ->
           Dict.get (elasticity_coefficients m') other
           = Dict.get (elasticity_coefficients m) other /\
           Dict.get (base_demand m') other = Dict.get (base_demand m) other) /\
        ((forall e, np_power 1 e = 1%float) ->
         forall p,
           (0 <? p)%float = true -> (p <? infinity)%float = true ->
           predict_demand np_power m' p (Py.PyFloat p) product_id
           = Ok (Py.NpFloat (np_mean quantities)))
    end.
Proof.
  intros m prices quantities product_id. unfold calculate_elasticity.
  destruct (np_polyfit _ _ 1) as [[|c rest]|e]; simpl; try reflexivity.
  split; [now exists rest|].
  split; [apply get_set_same|]. split; [apply get_set_same|].
  split.
  - intros other Hne. split; now apply get_set_other.
  - intros Hone p Hpos Hfin.
    unfold predict_demand, Dict.mem, Dict.item. simpl.
    rewrite !get_set_same. simpl.
    assert (Hp0 : (p =? 0)%float = false).
    { rewrite eqb_spec. change (Prim2SF 0) with (S754_zero false).
      destruct (positive_finite p Hpos Hfin) as (mp & ep & ->). reflexivity. }
    unfold Py.truediv. rewrite Hp0. simpl.
    now rewrite (div_self p Hpos Hfin), Hone, mul_one_r.
Qed.
End Fit.

(** The model of one product, searched by a routine that stops where it
    starts. *)
Lemma get_optimal_price_on_sample :
  get_optimal_price Sample.power_exact_cases Sample.minimize_at_start
    Sample.one_product "product_001" 20 35 (30, 40)%float
  = Ok {| optimal_price := 35; expected_demand := 1000;
          expected_revenue := 15000; elasticity := (-1.5)%float;
          demand_confidence_interval := None |}.
Proof.
  rewrite (proj2 (get_optimal_price_raises_only_in_search
                    Sample.power_exact_cases Sample.minimize_at_start
                    Sample.one_product "product_001" 20 35 (30, 40)%float
                    ltac:(intros k; unfold Dict.mem; simpl;
                          destruct (String.eqb k _); reflexivity))).
  reflexivity.
Defined.

End PriceElasticityCalls.

(** ** [BayesianABTest]: repeated updates, and what [get_probability_best]
    computes *)

Module BayesianABTestSamples.
Import BayesianABTest Derived DictFacts DictMore.

Lemma column_rows (samples : Dict.t (list float)) (n i : nat) :
  Forall (fun r => List.length r = n) (Dict.values samples) ->
  (i < n)%nat ->
  column samples i = Ok (map (fun r => nth i r 0%float) (Dict.values samples)).
Proof.
  intros Hrows Hi. induction samples as [|[k a] samples IH]; simpl;
    [reflexivity|].
  inversion Hrows as [|? ? Ha Hrest]; subst.
  unfold Np.row. rewrite (nth_error_nth' a 0%float) by lia. simpl.
  rewrite IH by exact Hrest. reflexivity.
Qed.

Lemma best_terms_rows (samples : Dict.t (list float)) (n : nat)
    (a : list float) (draws : list nat) :
  samples <> [] ->
  Forall (fun r => List.length r = n) (Dict.values samples) ->
  Forall (fun i => (i < n)%nat) draws ->
  best_terms samples a draws
  = Ok (map
          (fun i =>
             map (fun x => (x =? builtin_draw_maximum samples i)%float) a)
          draws).
Proof.
  intros Hne Hrows Hdraws.
  induction draws as [|i draws IH]; simpl; [reflexivity|].
  inversion Hdraws as [|? ? Hi Hrest]; subst.
  rewrite (column_rows samples n i Hrows Hi). simpl.
  unfold builtin_draw_maximum.
  destruct samples as [|[k r] samples]; [congruence|]. simpl.
  rewrite IH by exact Hrest. reflexivity.
Qed.

Lemma add_bools_map (g : float -> Z) (f : float -> bool) (a : list float) :
  add_bools (map g a) (map f a) = map (fun x => g x + Z.b2z (f x)) a.
Proof.
  unfold add_bools. rewrite ListFacts.combine_map_same, map_map. reflexivity.
Qed.

Lemma fold_add_bools (f : nat -> float -> bool) (a : list float)
    (draws : list nat) :
  forall g : float -> Z,
    fold_left add_bools (map (fun i => map (f i) a) draws) (map g a)
    = map (fun x =>
             fold_left Z.add (map (fun i => Z.b2z (f i x)) draws) (g x)) a.
Proof.
  induction draws as [|i draws IH]; intros g; simpl; [reflexivity|].
  rewrite add_bools_map. exact (IH (fun x => g x + Z.b2z (f i x))).
Qed.

Lemma best_count_rows (samples : Dict.t (list float)) (n : nat)
    (a : list float) :
  best_count
    (map
       (fun i => map (fun x => (x =? builtin_draw_maximum samples i)%float) a)
       (seq 0 (S n)))
  = inl (map (draws_won samples (S n)) a).
Proof.
  unfold best_count. cbn [seq map]. rewrite map_map.
  rewrite (fold_add_bools
             (fun i x => (x =? builtin_draw_maximum samples i)%float)).
  reflexivity.
Qed.

Lemma probabilities_of_rows (samples : Dict.t (list float)) (n : nat)
    (todo : list string) :
  samples <> [] ->
  Forall (fun r => List.length r = S n) (Dict.values samples) ->
  (forall k, In k todo -> Dict.mem samples k = true) ->
  forall acc,
    probabilities_of samples todo (Z.of_nat (S n)) acc
    = Ok (fold_left
            (fun acc k =>
               Dict.set acc k
                 (credited samples (S n)
                    (match Dict.get samples k with
                     | Some a => a
                     | None => []
                     end)))
            todo acc).
Proof.
  intros Hne Hrows. induction todo as [|k todo IH]; intros Htodo acc;
    [reflexivity|].
  cbn [probabilities_of fold_left].
  assert (Hk : Dict.mem samples k = true) by (apply Htodo; now left).
  unfold Dict.mem in Hk. unfold Dict.item.
  destruct (Dict.get samples k) as [a|]; [|discriminate]. cbn [bind].
  rewrite Nat2Z.id.
  rewrite (best_terms_rows samples (S n) a _ Hne Hrows)
    by (apply Forall_forall; intros i Hi; apply in_seq in Hi; lia).
  cbn [bind]. rewrite best_count_rows. cbn [probability bind].
  rewrite map_map. apply IH. intros k' Hk'. apply Htodo. now right.
Qed.

(** X15: [update_variant] does not accumulate.  A later call for the same
    variant computes the posterior from the prior and its own two counts
    alone: it raises or returns as it would without the earlier call, and
    when it returns the analyzer is the one that the later call alone
    produces, the record in the same place. *)
Theorem update_variant_forgets_earlier_counts :
  forall (self : t) (name : string) (c1 t1 c2 t2 : Z),
    let both :=
      update_variant (snd (update_variant self name c1 t1)) name c2 t2 in
    let only := update_variant self name c2 t2 in
    fst both = fst only /\
    (forall u, fst only = Ok u -> snd both = snd only).
Proof.
  intros self name c1 t1 c2 t2. cbv zeta.
  assert (Hfirst :
            snd (update_variant self name c1 t1) = self \/
            exists v1,
              snd (update_variant self name c1 t1)
              = {| prior_alpha := prior_alpha self;
                   prior_beta := prior_beta self;
                   results := Dict.set (results self) name v1 |}).
  { unfold update_variant. destruct (bind _ _) as [v1|e1]; [right | now left].
    now exists v1. }
  destruct Hfirst as [-> | (v1 & ->)]; [now split|].
  unfold update_variant. cbn [prior_alpha prior_beta results].
  destruct (bind _ _) as [v2|e2]; cbn [fst snd].
  - split; [reflexivity|]. intros u _. now rewrite set_set.
  - split; [reflexivity | discriminate].
Qed.

Section Sampling.
Variable world : Type.
Variable np_random_beta :
  float -> float -> Z -> world -> result (list float) * world.

Lemma draw_samples_nodup rs n acc w samples w' :
  draw_samples world np_random_beta rs n acc w = (Ok samples, w') ->
  NoDup (Dict.keys acc) -> NoDup (Dict.keys samples).
Proof.
  revert acc w. induction rs as [|[name params] rs IH]; intros acc w; simpl.
  - now intros [= <- <-].
  - destruct (np_random_beta _ _ n w) as [[l|e] w1]; [|discriminate].
    intros Hdraw Hacc. apply (IH _ _ Hdraw). now apply keys_set_nodup.
Qed.

Lemma draw_samples_nonempty rs n w samples w' :
  2 <= Py.len rs ->
  draw_samples world np_random_beta rs n [] w = (Ok samples, w') ->
  samples <> [].
Proof.
  intros Hlen Hdraw Hs.
  destruct rs as [|[k v] rs]; [unfold Py.len in Hlen; simpl in Hlen; lia|].
  pose proof (BayesianABTestFacts.draw_samples_mem world np_random_beta
                _ _ _ _ _ _ k Hdraw) as H.
  subst samples. unfold Dict.mem in H. simpl in H.
  rewrite String.eqb_refl in H. discriminate.
Qed.

(** X6: what [get_probability_best] returns in general.  With at least two
    recorded variants and [n_samples >= 1], when the draws succeed the
    result has the keys of the sample dictionary, in order, and the value
    of a variant is not a number but an array with one entry for each of
    its [n_samples] samples: the number of draws whose maximum over the
    variants equals that sample, divided by [n_samples]. *)
Theorem probability_best_credits_whole_sample :
  forall (self : t) (n_samples : Z) (w w' : world)
         (samples : Dict.t (list float)),
    (forall a b n w l w',
        np_random_beta a b n w = (Ok l, w') -> List.length l = Z.to_nat n) ->
    2 <= Py.len (results self) ->
    1 <= n_samples ->
    draw_samples world np_random_beta (results self) n_samples [] w
    = (Ok samples, w') ->
    exists probabilities,
      get_probability_best world np_random_beta self n_samples w
      = (Ok probabilities, w') /\
      Dict.keys probabilities = Dict.keys samples /\
      (forall name, Dict.mem probabilities name
                    = Dict.mem (results self) name) /\
      forall name a,
        Dict.get samples name = Some a ->
        Py.len a = n_samples /\
        Dict.get probabilities name
        = Some (credited samples (Z.to_nat n_samples) a).
Proof.
  intros self n_samples w w' samples Hsize Hlen Hn Hdraw.
  pose proof (draw_samples_nonempty _ _ _ _ _ Hlen Hdraw) as Hne.
  pose proof (BayesianABTestFacts.draw_samples_rows world np_random_beta
                Hsize _ _ _ _ _ _ Hdraw (Forall_nil _)) as Hrows.
  pose proof (draw_samples_nodup _ _ _ _ _ _ Hdraw (NoDup_nil _)) as Hnd.
  destruct (Z.to_nat n_samples) as [|n] eqn:En; [lia|].
  assert (Hns : n_samples = Z.of_nat (S n)) by lia.
  eexists. split.
  - unfold get_probability_best.
    destruct (Z.ltb_spec (Py.len (results self)) 2) as [H|_]; [lia|].
    rewrite Hdraw. rewrite Hns at 1.
    rewrite (probabilities_of_rows samples n (Dict.keys samples) Hne Hrows)
      by (intros k Hk; now apply mem_keys).
    reflexivity.
  - split; [|split].
    + rewrite fold_set_keys; [reflexivity | exact Hnd | reflexivity].
    + intros name.
      pose proof (BayesianABTestFacts.draw_samples_mem world np_random_beta
                    _ _ _ _ _ _ name Hdraw) as Hmem.
      change (Dict.mem [] name) with false in Hmem. cbn [orb] in Hmem.
      rewrite <- Hmem. unfold Dict.mem at 1. rewrite fold_set_get.
      destruct (in_dec string_dec name (Dict.keys samples)) as [Hin|Hout].
      * symmetry. now apply mem_keys.
      * simpl. destruct (Dict.mem samples name) eqn:Hm; [|reflexivity].
        apply mem_keys in Hm. contradiction.
    + intros name a Hget.
      assert (Hin : In name (Dict.keys samples)).
      { apply mem_keys. unfold Dict.mem. now rewrite Hget. }
      split.
      * rewrite Forall_forall in Hrows.
        unfold Py.len. rewrite (Hrows a (get_in_values _ _ _ Hget)). lia.
      * rewrite fold_set_get, Hget.
        destruct (in_dec string_dec name (Dict.keys samples));
          [reflexivity | contradiction].
Qed.

(** X7: with at least two recorded variants, [get_probability_best(0)]
    raises [ZeroDivisionError] once the draws have succeeded: the sum over
    an empty range is the integer [0], which is divided by [n_samples]. *)
Theorem probability_best_of_no_draws :
  forall (self : t) (w w' : world) (samples : Dict.t (list float)),
    2 <= Py.len (results self) ->
    draw_samples world np_random_beta (results self) 0 [] w
    = (Ok samples, w') ->
    get_probability_best world np_random_beta self 0 w
    = (Raise ZeroDivisionError, w').
Proof.
  intros self w w' samples Hlen Hdraw.
  pose proof (draw_samples_nonempty _ _ _ _ _ Hlen Hdraw) as Hne.
  unfold get_probability_best.
  destruct (Z.ltb_spec (Py.len (results self)) 2) as [H|_]; [lia|].
  rewrite Hdraw. destruct samples as [|[k a] samples]; [congruence|].
  simpl. unfold Dict.item. simpl. rewrite String.eqb_refl. reflexivity.
Qed.
End Sampling.

(** Two variants with two draws each, [0.75, 0.5] for [a] and
    [0.25, 0.625] for [b]: the value of [a] is the array [[0.5, 0.0]]. *)
Lemma probability_best_on_sample :
  exists probabilities,
    get_probability_best unit Sample.beta_by_shape Sample.two_variants 2 tt
    = (Ok probabilities, tt) /\
    Dict.get probabilities "a" = Some (Np.Vector [0.5%float; 0%float]).
Proof.
  destruct (probability_best_credits_whole_sample unit Sample.beta_by_shape
              Sample.two_variants 2 tt tt
              [("a"%string, [0.75%float; 0.5%float]);
               ("b"%string, [0.25%float; 0.625%float])]
              BayesianABTestFacts.beta_by_shape_size
              ltac:(discriminate) ltac:(discriminate) eq_refl)
    as (p & Hrun & _ & _ & Hget).
  exists p. split; [exact Hrun|].
  exact (proj2 (Hget "a"%string [0.75%float; 0.5%float] eq_refl)).
Defined.

(** A stream that returns as many samples as asked for, here none. *)
Lemma probability_best_of_no_draws_on_sample :
  get_probability_best unit
    (fun _ _ n w => (Ok (repeat 0.5%float (Z.to_nat n)), w))
    Sample.two_variants 0 tt
  = (Raise ZeroDivisionError, tt).
Proof.
  exact (probability_best_of_no_draws unit
           (fun _ _ n w => (Ok (repeat 0.5%float (Z.to_nat n)), w))
           Sample.two_variants tt tt [("a"%string, []); ("b"%string, [])]
           ltac:(discriminate) eq_refl).
Defined.

End BayesianABTestSamples.

(** ** [DynamicPricingEngine]: the search interval, the history, the
    training methods, the report and the two experiment runners *)

Module DynamicPricingRuns.
Import DynamicPricingEngine Derived DictFacts DictMore FloatFacts.








Section Externals.
Variable world : Type.
Variable np_power : float -> float -> float.
Variable minimize :
  (float -> result float) -> float -> float * float -> result float.
Variable gamma : float -> float -> nat -> world -> result (list float) * world.
Variable poisson : list float -> world -> result (list Z) * world.
Variable np_percentile : list Z -> float -> float.
Variable now : world -> string * world.

Lemma get_optimal_price_no_interval (m : PriceElasticityModel.t) pid cost cur
    range r :
  PriceElasticityModel.get_optimal_price np_power minimize m pid cost cur range
  = Ok r ->
  PriceElasticityModel.demand_confidence_interval r = None.
Proof.
  unfold PriceElasticityModel.get_optimal_price.
  destruct (minimize _ _ _) as [x|e]; simpl; [|discriminate].
  destruct (PriceElasticityModel.predict_demand _ _ _ _ _) as [d|e]; simpl;
    [|discriminate].
  now intros [= <-].
Qed.

(** [optimize_price] writes to the history only. *)
Lemma optimize_price_models self pid current_price cost competitor_prices
    inventory_level target_inventory w :
  let self' :=
    snd (fst (optimize_price world np_power minimize gamma poisson
                np_percentile now self pid current_price cost
                competitor_prices inventory_level target_inventory w)) in
  gamma_poisson_models self' = gamma_poisson_models self /\
  elasticity_model self' = elasticity_model self.
Proof.
  cbv zeta. unfold optimize_price.
  destruct (price_range _ _ _ _ _) as [range|e]; [|now split].
  unfold optimize_in_range.
  destruct (PriceElasticityModel.get_optimal_price _ _ _ _ _ _ _)
    as [r0|e]; [|now split].
  destruct (attach_interval _ _ _ _ _ _ _ _) as [[r1|e] w1]; [|now split].
  unfold record_price. destruct (now w1) as [stamp w2]. now split.
Qed.

(** X9: a call of [optimize_price] that raises leaves the engine as it was,
    the pricing history included; a call that returns appends exactly one
    entry to the history, which holds the product, the recommended price of
    the result, the current price and the inventory level it was given,
    changes no model, and returns a confidence interval exactly when a
    demand model is registered for the product. *)
Theorem optimize_price_appends_one_entry :
  forall (self : t) (pid : string) (current_price cost : float)
         (competitor_prices : list float) (inventory_level target_inventory : Z)
         (w : world),
    match optimize_price world np_power minimize gamma poisson np_percentile
            now self pid current_price cost competitor_prices inventory_level
            target_inventory w with
    | (Raise _, self', _) => self' = self
    | (Ok r, self', _) =>
        gamma_poisson_models self' = gamma_poisson_models self /\
        elasticity_model self' = elasticity_model self /\
        (exists stamp,
            pricing_history self'
            = pricing_history self ++
              [{| timestamp := stamp; product_id := pid;
                  recommended_price := PriceElasticityModel.optimal_price r;
                  current_price := current_price;
                  inventory_level := inventory_level |}]) /\
        (PriceElasticityModel.demand_confidence_interval r = None <->
         Dict.get (gamma_poisson_models self) pid = None)
    end.
Proof.
  intros self pid current_price cost competitor_prices inventory_level
    target_inventory w.
  unfold optimize_price.
  destruct (price_range _ _ _ _ _) as [range|e]; simpl; [|reflexivity].
  unfold optimize_in_range.
  destruct (PriceElasticityModel.get_optimal_price _ _ _ _ _ _ _)
    as [r0|e] eqn:Hopt; [|reflexivity].
  apply get_optimal_price_no_interval in Hopt.
  unfold attach_interval.
  destruct (Dict.get (gamma_poisson_models self) pid) as [model|] eqn:Hget.
  - destruct (GammaPoissonMixture.predict_demand _ _ _ _ _ _)
      as [[d|e] w1]; [|reflexivity].
    unfold record_price. destruct (now w1) as [stamp w2]. simpl.
    repeat split; try (intros; congruence). now exists stamp.
  - unfold record_price. destruct (now w) as [stamp w2]. simpl.
    repeat split; try (intros; congruence). now exists stamp.
Qed.
End Externals.

Section Reach.
Variable world : Type.
Variable np_power pow : float -> float -> float.
Variable int_true_divide : Py.num -> Py.num -> result Py.num.
Variable np_sum_wide : list Z -> GammaPoissonMixture.total.
Variable mixed_pass :
  list Z -> GammaPoissonMixture.t -> result unit * GammaPoissonMixture.t.
Variable minimize :
  (float -> result float) -> float -> float * float -> result float.
Variable gamma : float -> float -> nat -> world -> result (list float) * world.
Variable poisson : list float -> world -> result (list Z) * world.
Variable np_percentile : list Z -> float -> float.
Variable np_log : float -> float.
Variable np_polyfit : list float -> list float -> Z -> result (list float).
Variable np_mean : list float -> float.
Variable now : world -> string * world.

(** Whatever the purchase history, a call of [train_demand_model] that
    registers a model registers one that [fit] returned. *)
Lemma train_demand_model_state self pid purchase_history w :
  let self' :=
    snd (fst (train_demand_model world pow np_power int_true_divide
                np_sum_wide mixed_pass gamma self pid purchase_history w)) in
  self' = self \/
  exists model,
    (fitted model \/ python_fitted model) /\
    self' = registered self pid model.
Proof.
  cbv zeta.
  destruct (GammaPoissonMixture.np_sum np_sum_wide purchase_history)
    as [s|s] eqn:Hsum.
  - destruct (GammaPoissonLoop.fit_loop_default mixed_pass purchase_history
                (Py.len purchase_history) s) as (a & b & Hrun).
    rewrite <- Hsum in Hrun.
    rewrite (GammaPoissonLoop.train_demand_model_fitted world pow np_power
               int_true_divide np_sum_wide mixed_pass gamma self pid
               purchase_history w a b Hrun).
    destruct (gamma a (1 / b)%float 10000%nat w) as [[l|e] w1]; simpl.
    + right. eexists. split; [|reflexivity]. left. exists a, b. now split.
    + now left.
  - destruct (GammaPoissonLoop.train_demand_model_python world pow np_power
                int_true_divide np_sum_wide mixed_pass gamma self pid
                purchase_history w s Hsum) as [H|(model & Hm & H)].
    + now left.
    + right. exists model. split; [now right | exact H].
Qed.

Lemma train_elasticity_state self pid historical_data :
  let self' :=
    snd (train_elasticity np_log np_polyfit np_mean self pid
           historical_data) in
  gamma_poisson_models self' = gamma_poisson_models self /\
  (keys_agree (elasticity_model self) -> keys_agree (elasticity_model self')).
Proof.
  cbv zeta. unfold train_elasticity.
  destruct (bind _ _) as [[prices quantities]|e]; [|now split].
  pose proof (PriceElasticityCalls.calculate_elasticity_keys np_log
                np_polyfit np_mean (elasticity_model self) prices quantities
                pid) as Hkeys.
  destruct (PriceElasticityModel.calculate_elasticity _ _ _ _ _ _ _)
    as [r m]. simpl in *. now split.
Qed.

Lemma fitted_params_returned (model : GammaPoissonMixture.t) :
  fitted model ->
  GammaPoissonMixture.get_distribution_params pow np_power int_true_divide
    model
  = Ok (fitted_params np_power model).
Proof.
  intros (a & b & Ha & Hb).
  unfold GammaPoissonMixture.get_distribution_params, fitted_params.
  rewrite Ha, Hb. reflexivity.
Qed.

(** The scale [1 / self.beta] of a model that [fit] returned. *)
Lemma returned_scale (model : GammaPoissonMixture.t) :
  fitted model \/ python_fitted model ->
  GammaPoissonMixture.int_div 1 (GammaPoissonMixture.beta model)
  = Ok (1 / GammaPoissonMixture.value (GammaPoissonMixture.beta model))%float.
Proof.
  intros [(a & b & _ & Hb)|(a & b & _ & Hb & Hz)]; rewrite Hb.
  - reflexivity.
  - simpl. unfold Py.truediv. now rewrite Hz.
Qed.

Lemma reachable_state (self : t) :
  reachable world np_power pow int_true_divide np_sum_wide mixed_pass
    minimize gamma poisson np_percentile np_log np_polyfit np_mean now self ->
  keys_agree (elasticity_model self) /\
  forall pid model,
    Dict.get (gamma_poisson_models self) pid = Some model ->
    fitted model \/ python_fitted model.
Proof.
  induction 1 as [|self pid h w _ [IHk IHm]|self pid data _ [IHk IHm]
                 |self pid cur cost comps inv target w _ [IHk IHm]].
  - split; [intros k; reflexivity | discriminate].
  - destruct (train_demand_model_state self pid h w) as [->|Hm];
      [now split|].
    destruct Hm as (model & Hfit & ->). split; [exact IHk|].
    intros pid' model'. cbn [registered gamma_poisson_models].
    destruct (string_dec pid' pid) as [->|Hne].
    + rewrite get_set_same. now intros [= <-].
    + rewrite get_set_other by exact Hne. apply IHm.
  - destruct (train_elasticity_state self pid data) as [Hg Hk].
    rewrite Hg. split; [now apply Hk | exact IHm].
  - destruct (optimize_price_models world np_power minimize gamma poisson
                np_percentile now self pid cur cost comps inv target w)
      as [Hg He].
    rewrite Hg, He. now split.
Qed.

(** X10: in every state that an engine reaches from [__init__] through
    [train_demand_model], [train_elasticity] and [optimize_price], whatever
    the purchase histories and whether the calls return or raise, the two
    dictionaries of the elasticity model hold the same products, and every
    registered demand model is one that [fit] returned: its parameters are
    two NumPy scalars, and then [get_distribution_params] returns for it,
    or two Python floats with a rate that is not zero; in both cases
    [predict_demand] cannot divide by a Python zero, so that it raises only
    what a draw raises. *)
Theorem reachable_engine_invariant :
  forall self : t,
    reachable world np_power pow int_true_divide np_sum_wide mixed_pass
      minimize gamma poisson np_percentile np_log np_polyfit np_mean now
      self ->
    keys_agree (elasticity_model self) /\
    forall pid model,
      Dict.get (gamma_poisson_models self) pid = Some model ->
      ((exists a b,
           GammaPoissonMixture.alpha model = Py.NpFloat a /\
           GammaPoissonMixture.beta model = Py.NpFloat b /\
           GammaPoissonMixture.get_distribution_params pow np_power
             int_true_divide model
           = Ok (fitted_params np_power model)) \/
       (exists a b,
           GammaPoissonMixture.alpha model = Py.PyFloat a /\
           GammaPoissonMixture.beta model = Py.PyFloat b /\
           (b =? 0)%float = false)) /\
      forall n w,
        GammaPoissonMixture.predict_demand world gamma poisson model n w
        = match gamma (GammaPoissonMixture.value
                         (GammaPoissonMixture.alpha model))
                  (1 / GammaPoissonMixture.value
                         (GammaPoissonMixture.beta model))%float n w with
          | (Raise e, w1) => (Raise e, w1)
          | (Ok lambda_vals, w1) => poisson lambda_vals w1
          end.
Proof.
  intros self Hreach. destruct (reachable_state self Hreach) as [Hk Hm].
  split; [exact Hk|]. intros pid model Hget.
  pose proof (Hm pid model Hget) as Hfit. split.
  - destruct Hfit as [Hfit|Hfit]; [left | right; exact Hfit].
    pose proof (fitted_params_returned model Hfit) as Hparams.
    destruct Hfit as (a & b & Ha & Hb). now exists a, b.
  - intros n w. unfold GammaPoissonMixture.predict_demand.
    now rewrite (returned_scale model Hfit).
Qed.

Lemma price_range_raises current_price cost competitor_prices
    inventory_level target_inventory e :
  price_range current_price cost competitor_prices inventory_level
    target_inventory = Raise e ->
  Py.float_of_int target_inventory = Raise e /\ e = OverflowError.
Proof.
  unfold price_range, min_competitor_price, max_competitor_price,
    inventory_factor.
  destruct competitor_prices as [|x r]; simpl;
    (destruct (Py.float_of_int target_inventory) as [t|e'] eqn:Ht; simpl;
     [destruct (Py.int_gt_float _ _);
      [|destruct (Py.int_lt_float _ _)]; discriminate|]);
    intros [= ->]; (split; [reflexivity|]);
    unfold Py.float_of_int in Ht; destruct (is_infinity _);
    congruence.
Qed.

(** X14: on a reachable engine [optimize_price] raises nothing of its own
    but the [OverflowError] of a target inventory beyond the floats: no
    [KeyError], no [ZeroDivisionError], no [ValueError] of an empty
    competitor list.  Every other exception is one that the search, the
    gamma draw or the Poisson draw raised; and the engine is left as it
    was. *)
Theorem optimize_price_raises_only_from_outside :
  forall (self self' : t) (pid : string) (current_price cost : float)
         (competitor_prices : list float) (inventory_level target_inventory : Z)
         (w w' : world) (e : exn),
    reachable world np_power pow int_true_divide np_sum_wide mixed_pass
      minimize gamma poisson np_percentile np_log np_polyfit np_mean now
      self ->
    optimize_price world np_power minimize gamma poisson np_percentile now
      self pid current_price cost competitor_prices inventory_level
      target_inventory w = (Raise e, self', w') ->
    self' = self /\
    ((e = OverflowError /\
      Py.float_of_int target_inventory = Raise OverflowError) \/
     (exists range,
         price_range current_price cost competitor_prices inventory_level
           target_inventory = Ok range /\
         minimize
           (revenue_objective np_power (elasticity_model self) pid cost
              current_price)
           current_price range = Raise e) \/
     (exists model,
         Dict.get (gamma_poisson_models self) pid = Some model /\
         let shape :=
           GammaPoissonMixture.value (GammaPoissonMixture.alpha model) in
         let scale :=
           (1 / GammaPoissonMixture.value (GammaPoissonMixture.beta model))%float in
         (fst (gamma shape scale 1000%nat w) = Raise e \/
          exists lambda_vals w1,
            gamma shape scale 1000%nat w = (Ok lambda_vals, w1) /\
            fst (poisson lambda_vals w1) = Raise e))).
Proof.
  intros self self' pid current_price cost competitor_prices inventory_level
    target_inventory w w' e Hreach.
  destruct (reachable_state self Hreach) as [Hk Hm].
  unfold optimize_price.
  destruct (price_range _ _ _ _ _) as [range|e0] eqn:Hrange.
  2:{ intros [= -> <- _]. split; [reflexivity|]. left.
      destruct (price_range_raises _ _ _ _ _ _ Hrange) as [H ->].
      now split. }
  unfold optimize_in_range.
  rewrite (PriceElasticityCalls.get_optimal_price_search np_power minimize
             (elasticity_model self) pid cost current_price range Hk).
  destruct (minimize _ current_price range) as [x|e0] eqn:Hmin.
  2:{ intros [= -> <- _]. split; [reflexivity|]. right. left.
      exists range. now split. }
  cbn [bind]. unfold attach_interval.
  destruct (Dict.get (gamma_poisson_models self) pid) as [model|] eqn:Hget.
  2:{ unfold record_price. destruct (now w). discriminate. }
  unfold GammaPoissonMixture.predict_demand.
  rewrite (returned_scale model (Hm pid model Hget)).
  destruct (gamma _ _ 1000%nat w) as [[l|e0] w1] eqn:Hgamma.
  - destruct (poisson l w1) as [[d|e0] w2] eqn:Hpoisson.
    + unfold record_price. destruct (now w2). discriminate.
    + intros [= -> <- _]. split; [reflexivity|]. right. right.
      exists model. split; [reflexivity|]. cbv zeta. right.
      exists l, w1. split; [exact Hgamma|]. now rewrite Hpoisson.
  - intros [= -> <- _]. split; [reflexivity|]. right. right.
    exists model. split; [reflexivity|]. cbv zeta. left.
    now rewrite Hgamma.
Qed.

Lemma report_products_fitted (self : t) (product_ids : list string) :
  (forall pid model,
      In pid product_ids ->
      Dict.get (gamma_poisson_models self) pid = Some model -> fitted model) ->
  forall acc elasticities,
    report_products pow np_power int_true_divide self product_ids acc
      elasticities
    = Ok (fold_left
            (fun acc pid => Dict.set acc pid (report_entry np_power self pid))
            product_ids acc,
          elasticities ++ listed_elasticities self product_ids).
Proof.
  induction product_ids as [|pid r IH]; intros Hm acc elasticities.
  - simpl. now rewrite app_nil_r.
  - assert (Hr : forall pid model,
               In pid r ->
               Dict.get (gamma_poisson_models self) pid = Some model ->
               fitted model)
      by (intros p m Hp; apply Hm; now right).
    cbn [report_products fold_left listed_elasticities flat_map].
    unfold report_entry at 2.
    destruct (Dict.get (gamma_poisson_models self) pid) as [model|] eqn:Hget.
    + rewrite (fitted_params_returned model
                 (Hm pid model (or_introl eq_refl) Hget)).
      cbn [bind option_map]. rewrite (IH Hr). f_equal. f_equal.
      fold (listed_elasticities self r).
      destruct (Dict.get (PriceElasticityModel.elasticity_coefficients _) pid);
        [now rewrite <- app_assoc | reflexivity].
    + cbn [bind option_map]. rewrite (IH Hr). f_equal. f_equal.
      fold (listed_elasticities self r).
      destruct (Dict.get (PriceElasticityModel.elasticity_coefficients _) pid);
        [now rewrite <- app_assoc | reflexivity].
Qed.

(** X11: [generate_pricing_report] returns when the demand models that
    are registered for the listed products hold NumPy parameters, as a
    model fitted to an array of numbers does.  The report counts the listed
    identifiers, a repeated one each time, and the recommendations made so
    far; it has an entry exactly for the listed products, which holds the
    parameters of the demand model when one is registered and the
    elasticity when one is fitted; and its average elasticity is [0.0] when
    no listed product has an elasticity, and else the mean over the listed
    products that have one, a product listed twice counted twice. *)
Theorem pricing_report_of_fitted_models :
  forall (self : t) (product_ids : list string) (w : world),
    (forall pid model,
        In pid product_ids ->
        Dict.get (gamma_poisson_models self) pid = Some model ->
        exists a b,
          GammaPoissonMixture.alpha model = Py.NpFloat a /\
          GammaPoissonMixture.beta model = Py.NpFloat b) ->
    exists r,
      generate_pricing_report world pow np_power int_true_divide np_mean now
        self product_ids w = (Ok r, snd (now w)) /\
      report_timestamp r = fst (now w) /\
      total_products r = Py.len product_ids /\
      optimization_history_length r = Py.len (pricing_history self) /\
      (forall pid,
          Dict.get (products r) pid
          = if in_dec string_dec pid product_ids
            then Some (report_entry np_power self pid) else None) /\
      avg_elasticity r
      = match listed_elasticities self product_ids with
        | [] => 0%float
        | l => np_mean l
        end.
Proof.
  intros self product_ids w Hm.
  unfold generate_pricing_report. destruct (now w) as [stamp w1].
  rewrite (report_products_fitted self product_ids Hm). cbn [bind app].
  eexists. split; [reflexivity|]. cbn.
  repeat split.
  - intros pid.
    exact (fold_set_get (report_entry np_power self) product_ids [] pid).
  - now destruct (listed_elasticities self product_ids).
Qed.

(** A fresh engine trained once, on counts of 64 bits: its one model holds
    NumPy parameters. *)
Lemma trained_once_fitted (pid : string) (purchase_history : list Z) (w : world) :
  int64_counts purchase_history ->
  forall pid' model,
    Dict.get
      (gamma_poisson_models
         (snd (fst (train_demand_model world pow np_power int_true_divide
                      np_sum_wide mixed_pass gamma init pid purchase_history
                      w))))
      pid' = Some model ->
    fitted model.
Proof.
  intros H64 pid' model.
  destruct (GammaPoissonLoop.np_sum_int64 np_sum_wide purchase_history H64)
    as [s Hs].
  destruct (GammaPoissonLoop.fit_loop_default mixed_pass purchase_history
              (Py.len purchase_history) s) as (a & b & Hrun).
  rewrite <- Hs in Hrun.
  rewrite (GammaPoissonLoop.train_demand_model_fitted world pow np_power
             int_true_divide np_sum_wide mixed_pass gamma init pid
             purchase_history w a b Hrun).
  destruct (gamma a (1 / b)%float 10000%nat w) as [[l|e] w1];
    cbn [fst snd gamma_poisson_models registered init Dict.set Dict.get];
    [|discriminate].
  destruct (String.eqb pid' pid); [|discriminate].
  intros [= <-]. exists a, b. now split.
Qed.
End Reach.

(** An engine with one demand model, asked about two products. *)
Lemma pricing_report_on_sample :
  exists r,
    generate_pricing_report unit Sample.power_exact_cases
      Sample.power_exact_cases (fun _ _ => Raise ValueError)
      Sample.mean_in_order Sample.now_fixed
      (snd (fst (train_demand_model unit Sample.power_exact_cases
                   Sample.power_exact_cases (fun _ _ => Raise ValueError)
                   (fun _ => GammaPoissonMixture.Python 0)
                   (fun _ model => (Ok tt, model))
                   Sample.gamma_fixed init "product_001" [12; 15; 11] tt)))
      ["product_001"; "product_002"]%string tt = (Ok r, tt) /\
    total_products r = 2.
Proof.
  destruct (pricing_report_of_fitted_models unit
              Sample.power_exact_cases Sample.power_exact_cases
              (fun _ _ => Raise ValueError)
              Sample.mean_in_order Sample.now_fixed
              (snd (fst (train_demand_model unit Sample.power_exact_cases
                           Sample.power_exact_cases
                           (fun _ _ => Raise ValueError)
                           (fun _ => GammaPoissonMixture.Python 0)
                           (fun _ model => (Ok tt, model))
                           Sample.gamma_fixed init "product_001"
                           [12; 15; 11] tt)))
              ["product_001"; "product_002"]%string tt)
    as (r & Hrun & _ & Htotal & _).
  - intros pid model _.
    apply (trained_once_fitted unit Sample.power_exact_cases
             Sample.power_exact_cases (fun _ _ => Raise ValueError)
             (fun _ => GammaPoissonMixture.Python 0)
             (fun _ model => (Ok tt, model)) Sample.gamma_fixed
             "product_001"%string [12; 15; 11] tt).
    intros x [<-|[<-|[<-|[]]]]; lia.
  - exists r. split; [exact Hrun | exact Htotal].
Defined.

(** A target inventory of [2^1024] on a fresh engine. *)
Lemma optimize_price_overflow_on_sample :
  Py.float_of_int (2 ^ 1024) = Raise OverflowError.
Proof.
  destruct (optimize_price_raises_only_from_outside unit
              Sample.power_exact_cases Sample.power_exact_cases
              (fun _ _ => Raise ValueError)
              (fun _ => GammaPoissonMixture.Python 0)
              (fun _ model => (Ok tt, model)) Sample.minimize_at_start
              Sample.gamma_fixed Sample.poisson_fixed Sample.percentile_fixed
              (fun x => x) (fun _ _ _ => Raise ValueError)
              Sample.mean_in_order Sample.now_fixed
              init init "product_001"%string 35 20 [] 400 (2 ^ 1024) tt tt
              OverflowError
              (reach_init _ _ _ _ _ _ _ _ _ _ _ _ _ _) eq_refl)
    as [_ [[_ H]|[(range & H & _)|(model & H & _)]]];
    [exact H | discriminate H | discriminate H].
Defined.

(** An engine trained on the one count [2^64], which makes an array of
    Python objects: the model registered for the product holds Python
    floats, with a rate that is not zero. *)
Lemma reachable_engine_invariant_on_sample :
  exists model a b,
    Dict.get
      (gamma_poisson_models
         (snd (fst (train_demand_model unit Sample.power_exact_cases
                      Sample.power_exact_cases (fun _ _ => Raise ValueError)
                      (fun _ => GammaPoissonMixture.Python 0)
                      (fun _ model => (Ok tt, model))
                      Sample.gamma_fixed init "product_001" [2 ^ 64] tt))))
      "product_001" = Some model /\
    GammaPoissonMixture.alpha model = Py.PyFloat a /\
    GammaPoissonMixture.beta model = Py.PyFloat b /\
    (b =? 0)%float = false.
Proof.
  pose (model := {| GammaPoissonMixture.alpha := Py.PyFloat 1;
                    GammaPoissonMixture.beta :=
                      Py.PyFloat 5.421010862427522e-20;
                    GammaPoissonMixture.lambda_samples :=
                      repeat 1%float 10000 |}).
  assert (Hget :
    Dict.get
      (gamma_poisson_models
         (snd (fst (train_demand_model unit Sample.power_exact_cases
                      Sample.power_exact_cases (fun _ _ => Raise ValueError)
                      (fun _ => GammaPoissonMixture.Python 0)
                      (fun _ model => (Ok tt, model))
                      Sample.gamma_fixed init "product_001" [2 ^ 64] tt))))
      "product_001" = Some model) by (vm_compute; reflexivity).
  pose proof (reachable_engine_invariant unit
                Sample.power_exact_cases Sample.power_exact_cases
                (fun _ _ => Raise ValueError)
                (fun _ => GammaPoissonMixture.Python 0)
                (fun _ model => (Ok tt, model))
                Sample.minimize_at_start
                Sample.gamma_fixed Sample.poisson_fixed
                Sample.percentile_fixed
                (fun x => x) (fun _ _ _ => Raise ValueError)
                Sample.mean_in_order Sample.now_fixed
                _
                (reach_train_demand_model _ _ _ _ _ _ _ _ _ _ _ _ _ _ _
                   "product_001"%string [2 ^ 64] tt
                   (reach_init _ _ _ _ _ _ _ _ _ _ _ _ _ _))) as H.
  pose proof (proj1 (proj2 H "product_001"%string model Hget)) as Hmodel.
  clear H. exists model.
  destruct Hmodel as [(a & b & Ha & _)|(a & b & Ha & Hb & Hz)].
  - discriminate Ha.
  - exists a, b. exact (conj Hget (conj Ha (conj Hb Hz))).
Defined.

End DynamicPricingRuns.

(** ** [DynamicPricingEngine]: the two experiment runners *)

Module ExperimentRuns.
Import DynamicPricingEngine DictFacts DictMore.


Section ABTest.
Variable world : Type.
Variable np_random_beta :
  float -> float -> Z -> world -> result (list float) * world.
Variable np_mean : list float -> float.


End ABTest.

Section Optimization.
Variable np_mean np_std : list float -> float.
Variable norm_cdf norm_pdf : float -> float.
Variable world : Type.
Variable uniform : float -> float -> world -> result float * world.
Variable uniform_rows :
  list float -> list float -> nat -> world ->
  result (list (list float)) * world.
Variable objective_function : list float -> result float.

(** The loop only ever appends evaluations of the objective. *)
Lemma optimization_loop_observations (k : nat) :
  forall (optimizer : BayesianOptimizer.t) (w : world),
  exists obs,
    snd (fst (optimization_loop np_mean np_std norm_cdf norm_pdf world
                uniform uniform_rows objective_function k optimizer w))
    = BayesianOptimizer.updates optimizer obs /\
    Forall (fun o => objective_function (fst o) = Ok (snd o)) obs /\
    match fst (fst (optimization_loop np_mean np_std norm_cdf norm_pdf world
                      uniform uniform_rows objective_function k optimizer w))
    with
    | Ok _ => List.length obs = k
    | Raise _ => (List.length obs < k)%nat
    end.
Proof.
  induction k as [|k IH]; intros optimizer w.
  - exists []. repeat split. constructor.
  - cbn [optimization_loop].
    destruct (BayesianOptimizer.propose_location _ _ _ _ _ _ _ _ _)
      as [[X|e] w1].
    2:{ exists []. repeat split; [constructor | simpl; lia]. }
    destruct (objective_function X) as [y|e] eqn:Hy.
    2:{ exists []. repeat split; [constructor | simpl; lia]. }
    destruct (IH (BayesianOptimizer.update optimizer X y) w1)
      as (obs & Hs & Hobs & Hlen).
    exists ((X, y) :: obs). split; [exact Hs|].
    split; [constructor; [exact Hy | exact Hobs]|].
    destruct (fst (fst (optimization_loop _ _ _ _ _ _ _ _ k _ w1)));
      simpl; lia.
Qed.

(** X13: [run_bayesian_optimization] starts from a fresh optimizer and only
    ever records evaluations of the objective.  A run that returns has made
    exactly [n_iterations] of them (none for a negative count), reports
    that number, and reports a best value that no recorded value exceeds;
    a run that raises keeps in the optimizer the evaluations made before
    the exception, fewer than [n_iterations]. *)
Theorem run_bayesian_optimization_records_evaluations :
  forall (bounds : list (float * float)) (n_iterations : Z) (w : world),
  exists obs : list (list float * float),
    Forall (fun o => objective_function (fst o) = Ok (snd o)) obs /\
    match run_bayesian_optimization np_mean np_std norm_cdf norm_pdf world
            uniform uniform_rows objective_function bounds n_iterations w with
    | (Ok out, optimizer, _) =>
        optimizer
        = BayesianOptimizer.updates (BayesianOptimizer.init bounds 5) obs /\
        out = BayesianOptimizer.get_best_params optimizer /\
        Py.len obs = Z.max 0 n_iterations /\
        BayesianOptimizer.n_iterations out = Z.max 0 n_iterations /\
        Forall (fun o => (BayesianOptimizer.best_value_out out <? snd o)%float
                         = false) obs
    | (Raise _, optimizer, _) =>
        optimizer
        = BayesianOptimizer.updates (BayesianOptimizer.init bounds 5) obs /\
        Py.len obs < n_iterations
    end.
Proof.
  intros bounds n_iterations w. unfold run_bayesian_optimization.
  destruct (optimization_loop_observations (Z.to_nat n_iterations)
              (BayesianOptimizer.init bounds 5) w)
    as (obs & Hs & Hobs & Hlen).
  exists obs. split; [exact Hobs|].
  destruct (optimization_loop _ _ _ _ _ _ _ _ _ _ _) as [[[u|e] opt] w1];
    simpl in Hs, Hlen.
  - subst opt. split; [reflexivity|]. split; [reflexivity|].
    assert (Hn : Py.len obs = Z.max 0 n_iterations) by (unfold Py.len; lia).
    split; [exact Hn|]. split.
    + unfold BayesianOptimizer.get_best_params. simpl.
      destruct (BayesianOptimizerFacts.updates_samples
                  (BayesianOptimizer.init bounds 5) obs) as [HX _].
      rewrite HX. simpl. unfold Py.len in *. now rewrite length_map.
    + apply (BayesianOptimizerFacts.best_of_updates bounds 5 obs).
  - subst opt. split; [reflexivity|]. unfold Py.len. lia.
Qed.
End Optimization.

End ExperimentRuns.

(** ** [BayesianABTest]: the sign of the expected loss *)

Module ExpectedLossSign.
Import BayesianABTest DictFacts ListFacts FloatOrder.

Section Sampling.
Variable world : Type.
Variable np_random_beta :
  float -> float -> Z -> world -> result (list float) * world.
Variable np_mean : list float -> float.

Hypothesis np_random_beta_size :
  forall a b n w l w',
    np_random_beta a b n w = (Ok l, w') -> List.length l = Z.to_nat n.

(** The shortfalls that [calculate_expected_loss] averages. *)
Lemma expected_loss_shortfalls (self : t) (variant : string) (n_samples : Z)
    (w w' : world) (loss : float) :
  Dict.mem (results self) variant = true ->
  calculate_expected_loss world np_random_beta np_mean self variant
    n_samples w = (Ok loss, w') ->
  exists (a mine : list float) (rows : list (list float)),
    In mine (a :: rows) /\
    List.length a = Z.to_nat n_samples /\
    loss
    = np_mean
        (map (fun i =>
                (fold_left Np.maximum (map (fun r => nth i r 0%float) rows)
                   (nth i a 0%float) - nth i mine 0)%float)
           (seq 0 (List.length a))).
Proof.
  intros Hmem. unfold calculate_expected_loss. rewrite Hmem. simpl.
  destruct (draw_samples world np_random_beta (results self) n_samples [] w)
    as [[samples|e] w1] eqn:Hdraw; [|discriminate].
  pose proof (BayesianABTestFacts.draw_samples_rows world np_random_beta
                np_random_beta_size _ _ _ _ _ _ Hdraw (Forall_nil _))
    as Hrows.
  pose proof (BayesianABTestFacts.draw_samples_mem world np_random_beta
                _ _ _ _ _ _ variant Hdraw) as Hin.
  rewrite Hmem in Hin. simpl in Hin. unfold Dict.mem in Hin.
  destruct (Dict.get samples variant) as [mine|] eqn:Hget; [|discriminate].
  pose proof (get_in_values _ _ _ Hget) as Hmine.
  unfold Dict.item. rewrite Hget.
  destruct (Dict.values samples) as [|a rows] eqn:Hval; [contradiction|].
  inversion Hrows as [|? ? Ha Hrest]; subst.
  assert (Hrows' : Forall (fun b => List.length b = List.length a) rows).
  { eapply Forall_impl; [|exact Hrest]. simpl. intros; congruence. }
  assert (Hlen : List.length mine = List.length a).
  { rewrite Forall_forall in Hrows. rewrite (Hrows mine Hmine). now symmetry. }
  rewrite BayesianABTestFacts.maximum_reduce_rows by exact Hrows'. simpl.
  rewrite BayesianABTestFacts.fold_maximum_arrays by exact Hrows'.
  rewrite <- (map_nth_seq 0%float mine) at 1.
  rewrite Hlen, combine_map_same, map_map. simpl.
  intros [= <- _]. exists a, mine, rows. repeat split; assumption.
Qed.

(** X16: the expected loss is a mean of numbers that are never negative.
    When [calculate_expected_loss] returns, either the variant has no
    record and the loss is [0.0], or the loss is [np.mean] of [n_samples]
    shortfalls, none of which is below zero: each is the maximum of a draw
    over the variants less the variant's own sample of that draw, which
    that maximum bounds unless it is a NaN.  So the loss is not negative
    for every mean that is not negative on such a list. *)
Theorem expected_loss_is_not_negative :
  forall (self : t) (variant : string) (n_samples : Z) (w w' : world)
         (loss : float),
    calculate_expected_loss world np_random_beta np_mean self variant
      n_samples w = (Ok loss, w') ->
    ((loss = 0%float /\ Dict.mem (results self) variant = false) \/
     exists shortfalls,
       loss = np_mean shortfalls /\
       List.length shortfalls = Z.to_nat n_samples /\
       Forall (fun d => (d <? 0)%float = false) shortfalls) /\
    ((forall l, Forall (fun d => (d <? 0)%float = false) l ->
                (np_mean l <? 0)%float = false) ->
     (loss <? 0)%float = false).
Proof.
  intros self variant n_samples w w' loss Hrun.
  assert (Hcases :
            (loss = 0%float /\ Dict.mem (results self) variant = false) \/
            exists shortfalls,
              loss = np_mean shortfalls /\
              List.length shortfalls = Z.to_nat n_samples /\
              Forall (fun d => (d <? 0)%float = false) shortfalls).
  { destruct (Dict.mem (results self) variant) eqn:Hmem.
    - right.
      destruct (expected_loss_shortfalls self variant n_samples w w' loss
                  Hmem Hrun) as (a & mine & rows & Hin & Hlen & ->).
      eexists. split; [reflexivity|].
      split; [now rewrite length_map, length_seq|].
      apply Forall_forall. intros d Hd. apply in_map_iff in Hd.
      destruct Hd as (i & <- & Hi).
      apply column_shortfall.
      change (nth i a 0%float :: map (fun r => nth i r 0%float) rows)
        with (map (fun r => nth i r 0%float) (a :: rows)).
      apply in_map_iff. exists mine. now split.
    - left. unfold calculate_expected_loss in Hrun. rewrite Hmem in Hrun.
      simpl in Hrun. injection Hrun as <- _. now split. }
  split; [exact Hcases|]. intros Hmean.
  destruct Hcases as [[-> _] | (shortfalls & -> & _ & Hall)];
    [reflexivity | now apply Hmean].
Qed.
End Sampling.

(** The expected loss of variant [b] on two draws is the mean of two
    shortfalls that are not negative. *)
Lemma expected_loss_sign_on_sample :
  exists shortfalls,
    0.25%float = Sample.mean_in_order shortfalls /\
    List.length shortfalls = 2%nat /\
    Forall (fun d => (d <? 0)%float = false) shortfalls.
Proof.
  destruct (expected_loss_is_not_negative unit Sample.beta_by_shape
              Sample.mean_in_order BayesianABTestFacts.beta_by_shape_size
              Sample.two_variants "b" 2 tt tt 0.25 eq_refl)
    as [[[_ H] | H] _]; [discriminate H | exact H].
Defined.

End ExpectedLossSign.

(** ** [DynamicPricingEngine]: the inventory factor *)

Module InventoryBand.
Import DynamicPricingEngine.

Lemma int_cmp_float_mono (i1 i2 : Z) (f : float) :
  i1 <= i2 ->
  (Py.int_gt_float i1 f = true -> Py.int_gt_float i2 f = true) /\
  (Py.int_lt_float i2 f = true -> Py.int_lt_float i1 f = true).
Proof.
  intros Hle. unfold Py.int_gt_float, Py.int_lt_float, Py.int_cmp_float.
  destruct (Prim2SF f) as [s|s| |s m e]; [| |split; discriminate|].
  - destruct (Z.compare_spec i1 0), (Z.compare_spec i2 0);
      split; try discriminate; try reflexivity; lia.
  - destruct s; split; try discriminate; reflexivity.
  - set (v := if s then Z.neg m else Z.pos m).
    destruct (0 <=? e) eqn:He.
    + destruct (Z.compare_spec i1 (v * 2 ^ e)),
               (Z.compare_spec i2 (v * 2 ^ e));
        split; try discriminate; try reflexivity; lia.
    + apply Z.leb_gt in He.
      assert (Hp : 0 < 2 ^ (- e)) by (apply Z.pow_pos_nonneg; lia).
      destruct (Z.compare_spec (i1 * 2 ^ (- e)) v),
               (Z.compare_spec (i2 * 2 ^ (- e)) v);
        split; try discriminate; try reflexivity; nia.
Qed.

(** X17: the inventory factor of [optimize_price] is one of [0.95], [1.0]
    and [1.05], and for a given target it never rises with the inventory
    level.  This holds for every target, a negative one included, because
    an integer is compared with a float exactly. *)
Theorem inventory_factor_never_rises :
  forall (target_inventory level1 level2 : Z) (f1 f2 : float),
    level1 <= level2 ->
    inventory_factor level1 target_inventory = Ok f1 ->
    inventory_factor level2 target_inventory = Ok f2 ->
    In f1 [0.95; 1; 1.05]%float /\
    (f1 <? f2)%float = false.
Proof.
  intros target_inventory level1 level2 f1 f2 Hle.
  unfold inventory_factor.
  destruct (Py.float_of_int target_inventory) as [t|e]; simpl;
    [|discriminate].
  destruct (int_cmp_float_mono level1 level2 (t * 1.2)%float Hle)
    as [Hgt _].
  destruct (int_cmp_float_mono level1 level2 (t * 0.8)%float Hle)
    as [_ Hlt].
  destruct (Py.int_gt_float level1 _) eqn:G1.
  - rewrite (Hgt eq_refl). intros [= <-] [= <-]. simpl. auto.
  - destruct (Py.int_lt_float level1 _) eqn:L1;
      destruct (Py.int_gt_float level2 _) eqn:G2;
      try (intros [= <-] [= <-]; simpl; now auto);
      destruct (Py.int_lt_float level2 _) eqn:L2;
      try (intros [= <-] [= <-]; simpl; now auto).
    specialize (Hlt eq_refl). discriminate.
Qed.

(** A target of 400 units: short stock gives [1.05], excess stock
    [0.95]. *)
Lemma inventory_factor_on_sample :
  inventory_factor 300 400 = Ok 1.05%float /\
  inventory_factor 500 400 = Ok 0.95%float /\
  (1.05 <? 0.95)%float = false.
Proof.
  split; [reflexivity|]. split; [reflexivity|].
  exact (proj2 (inventory_factor_never_rises 400 300 500 1.05 0.95
                  ltac:(discriminate) eq_refl eq_refl)).
Defined.

End InventoryBand.
